(** * Voice-line generation scripts of zundamahjong

    A shallow embedding of the three Python scripts

      - [scripts/generate_voicevox_voices.py] (module [Voicevox]),
      - [scripts/generate_quote_voices.py]    (module [Quotes]),
      - [update_voices.py]                    (module [UpdateVoices]),

    and the properties of their endpoint resolver, synthesis client and
    batch runner.

    Conventions of the model.
      - A Python computation that may raise is a value of [res]; a script
        that talks to the network and writes files is a function over a
        [world], which counts the network calls made so far and keeps the
        log of every effect in program order.
      - The speech service is an oracle [svc]: the outcome of the [n]-th
        network call of the run, given the request that was sent.  The
        outcome is what [requests] meets: a transport failure, or the
        final response (status, body, and what [r.json()] makes of the
        body).
      - Text read from [/proc/net/route] is a string of code points below
        256; the texts of the voice lines are opaque UTF-8 strings.
      - A call that [requests] gives up before anything is sent (a URL
        it cannot parse, a body it cannot encode) is a call like any
        other, with the outcome [Failed OtherFailure].
      - Name resolution is a query on the environment and leaves no
        entry in the log; [Voicevox.lookups] lists the lookups a run
        makes.
      - Creating the output directory, writing a file and printing are
        taken to succeed; they are logged, not failed.  No property
        below promises that a run ends normally: what is said of a normal
        end is said of the runs that reach it. *)

From Stdlib Require Import ZArith Ascii String List Lia.
From stdpp Require Import gmap strings list fin_maps pretty.

Open Scope string_scope.
Open Scope Z_scope.
Open Scope list_scope.

(** ** Python values and exceptions *)

(** The exception classes the scripts can meet.  [RequestException]
    stands for the classes of [requests] that are neither
    [ConnectionError], [Timeout] nor [HTTPError] (an invalid URL, too
    many redirects).  [SystemExit] is what [sys.exit] raises; it is not
    an [Exception] and no handler of the scripts catches it. *)
Inductive exn : Type :=
| ConnectionError
| Timeout
| HTTPError (status : Z)
| RequestException
| OSError
| ValueError
| OverflowError
| UnicodeDecodeError
| TypeError
| AttributeError
| JSONDecodeError
| SystemExit (code : Z).

Inductive res (A : Type) : Type :=
| Ret (a : A)
| Raise (e : exn).
Arguments Ret {A} a.
Arguments Raise {A} e.

#[export] Instance res_ret : MRet res := @Ret.
#[export] Instance res_bind : MBind res := λ A B k r,
  match r with
  | Ret a => k a
  | Raise e => Raise e
  end.

(** Truth value of a [str | None]: [None] and the empty string are false. *)
Definition truthy (o : option string) : bool :=
  match o with
  | Some s => negb (String.eqb s "")
  | None => false
  end.

(** [a or b] where [a : str | None] and [b : str]. *)
Definition or_else (a : option string) (b : string) : string :=
  match a with
  | Some s => if String.eqb s "" then b else s
  | None => b
  end.

(** ** String operations of the Python runtime *)

Module PyStr.

(** [str.isspace] on the code points below 256. *)
Definition isspace (c : ascii) : bool :=
  let n := N_of_ascii c in
  ((9 <=? n) && (n <=? 13) || (28 <=? n) && (n <=? 32)
   || (n =? 133) || (n =? 160))%N.

Fixpoint lstrip_by (p : ascii → bool) (s : string) : string :=
  match s with
  | String c s' => if p c then lstrip_by p s' else s
  | EmptyString => EmptyString
  end.

Fixpoint rstrip_by (p : ascii → bool) (s : string) : string :=
  match s with
  | EmptyString => EmptyString
  | String c s' =>
      match rstrip_by p s' with
      | EmptyString => if p c then EmptyString else String c EmptyString
      | r => String c r
      end
  end.

(** [s.strip()] *)
Definition strip (s : string) : string := rstrip_by isspace (lstrip_by isspace s).

(** [s.rstrip(chars)] for a one-character [chars]. *)
Definition rstrip_char (c : ascii) (s : string) : string :=
  rstrip_by (Ascii.eqb c) s.

(** [s.split()]: the maximal runs of non-blank characters, in order. *)
Fixpoint split (s : string) : list string :=
  match s with
  | EmptyString => []
  | String c s' =>
      if isspace c then split s'
      else
        let here := String c EmptyString in
        match s' with
        | EmptyString => [here]
        | String d _ =>
            if isspace d then here :: split s'
            else
              match split s' with
              | w :: ws => String c w :: ws
              | [] => [here]
              end
        end
  end.

(** Text-mode reading translates [\r\n] and a lone [\r] to [\n]. *)
Fixpoint universal_newlines (s : string) : string :=
  match s with
  | EmptyString => EmptyString
  | String c s' =>
      if Ascii.eqb c "013" then
        match s' with
        | String d _ =>
            if Ascii.eqb d "010" then universal_newlines s'
            else String "010" (universal_newlines s')
        | EmptyString => String "010" EmptyString
        end
      else String c (universal_newlines s')
  end.

(** The lines of a text, each with its terminating [\n] when it has one. *)
Fixpoint lines_of (s : string) : list string :=
  match s with
  | EmptyString => []
  | String c s' =>
      if Ascii.eqb c "010" then String c EmptyString :: lines_of s'
      else
        match lines_of s' with
        | l :: ls => String c l :: ls
        | [] => [String c EmptyString]
        end
  end.

(** [f.readlines()] of a file opened in text mode. *)
Definition readlines (s : string) : list string :=
  lines_of (universal_newlines s).

(** Value of a hexadecimal digit. *)
Definition hexval (c : ascii) : option Z :=
  let n := Z.of_N (N_of_ascii c) in
  if (48 <=? n) && (n <=? 57) then Some (n - 48)
  else if (65 <=? n) && (n <=? 70) then Some (n - 55)
  else if (97 <=? n) && (n <=? 102) then Some (n - 87)
  else None.

(** The digit loop of [int(s, 16)]: digits, single underscores between
    them, nothing else; [prev_us] records that the last character was an
    underscore and [seen] that a digit was read. *)
Fixpoint digits16 (s : string) (acc : Z) (prev_us seen : bool) : option Z :=
  match s with
  | EmptyString => if prev_us then None else if seen then Some acc else None
  | String c r =>
      if Ascii.eqb c "_" then
        if prev_us then None else digits16 r acc true seen
      else
        match hexval c with
        | Some d => digits16 r (16 * acc + d) false true
        | None => None
        end
  end.

(** [int(s, 16)] on a string without blanks (a field produced by
    [split]): an optional sign, an optional [0x]/[0X] prefix which one
    underscore may follow, then the digits.  [ValueError] otherwise. *)
Definition int16 (s : string) : res Z :=
  let '(neg, s1) :=
    match s with
    | String "+" r => (false, r)
    | String "-" r => (true, r)
    | _ => (false, s)
    end in
  let s2 :=
    match s1 with
    | String "0" (String x r) =>
        if Ascii.eqb x "x" || Ascii.eqb x "X" then
          match r with
          | String "_" r' => r'
          | _ => r
          end
        else s1
    | _ => s1
    end in
  match s2 with
  | String "_" _ => Raise ValueError
  | _ =>
      match digits16 s2 0 false false with
      | Some n => Ret (if neg then - n else n)
      | None => Raise ValueError
      end
  end.

(** [g.to_bytes(4, byteorder="little")] *)
Definition to_bytes4_little (g : Z) : res (list Z) :=
  if (g <? 0) || (2 ^ 32 <=? g) then Raise OverflowError
  else Ret [Z.land g 255;
            Z.land (Z.shiftr g 8) 255;
            Z.land (Z.shiftr g 16) 255;
            Z.land (Z.shiftr g 24) 255].

(** [socket.inet_ntoa] of four bytes: dotted decimal. *)
Definition inet_ntoa (b : list Z) : res string :=
  match b with
  | [b0; b1; b2; b3] =>
      Ret (pretty b0 +:+ "." +:+ pretty b1 +:+ "." +:+ pretty b2 +:+ "." +:+ pretty b3)
  | _ => Raise OSError
  end.

End PyStr.

(** ** JSON values, requests and responses *)

(** A float is represented by the decimal literal that denotes it:
    [JFloat 12 (-1)] is [1.2]. *)
#[warnings="-register-all"] Inductive jvalue : Type :=
| JNull
| JBool (b : bool)
| JInt (n : Z)
| JFloat (mantissa exponent : Z)
| JStr (s : string)
| JList (l : list jvalue)
| JDict (kv : list (string * jvalue)).

(** What [r.json()] returns: a [dict] (the structured query), or some
    other JSON value. *)
Inductive json : Type :=
| JObject (fields : gmap string jvalue)
| JOther (v : jvalue).

Inductive param : Type :=
| PStr (s : string)
| PInt (n : Z).

Inductive http_method : Type := GET | POST.

(** A call of [requests.get] / [requests.post]: the URL, the [params],
    the JSON body ([json=] or [data=json.dumps(..)]) and the [timeout]
    argument in seconds ([None] when the call passes none). *)
Record request : Type := {
  meth : http_method;
  target : string;
  params : list (string * param);
  payload : option json;
  timeout : option Z
}.

(** The final response [requests] returns, by the views the scripts take
    of it: [r.status_code], [r.content], [r.text] and [r.json()]
    ([json_body] is [None] when [r.json()] would raise).  The model keeps
    the three views of the body as separate fields and assumes no
    relation between them. *)
Record response : Type := {
  status : Z;
  content : list Byte.byte;
  text : string;
  json_body : option json
}.

(** How a call of [requests] can end without a response, by the class
    of [requests.exceptions] it raises.  [ConnectionFailed]: a
    [ConnectionError], raised when the connection is refused, reset or
    cannot be made, and also when the read timeout strikes while the body
    of the response is being read.  [TimedOut]: a [Timeout], raised when
    the connect timeout strikes, or the read timeout before the response
    has begun.  [OtherFailure]: any other [RequestException]. *)
Inductive failure : Type :=
| ConnectionFailed
| TimedOut
| OtherFailure.

Definition exn_of_failure (f : failure) : exn :=
  match f with
  | ConnectionFailed => ConnectionError
  | TimedOut => Timeout
  | OtherFailure => RequestException
  end.

Inductive reply : Type :=
| Failed (f : failure)
| Replied (r : response).

(** ** Effects *)

Inductive stream : Type := Stdout | Stderr.

(** The lines the scripts print, by format string. *)
Inductive message : Type :=
| MsgNote
| MsgVoicevox (url : string) (speaker : Z)
| MsgOutput (dir : string)
| MsgCouldNotConnect
| MsgUrl (url : string)
| MsgEnsureRunning
| MsgHint
| MsgDetails (e : exn)
| MsgHealthHTTPError
| MsgFailedToGenerate (filename : string) (e : exn)
| MsgGenerated (filename : string) (nbytes : nat) (line : option string)
| MsgGeneratedName (filename : string)
| MsgDoneCount (generated : nat)
| MsgVersion (body : string)
| MsgVersionWarn (e : exn)
| MsgFailedQuote (category : string) (i : nat) (e : exn)
| MsgDone.

(** A file is named by the directory it is joined to ([None]: the
    working directory) and its name. *)
Inductive event : Type :=
| Net (req : request) (out : reply)
| Mkdir (dir : string)
| WriteBytes (dir : option string) (name : string) (data : list Byte.byte)
| WriteManifest (dir : string) (name : string) (m : gmap string (list string))
| Print (st : stream) (m : message)
| Sleep (milliseconds : Z).

Record world : Type := {
  calls : nat;
  log : list event
}.

Definition world0 : world := {| calls := 0; log := [] |}.

(** A script action: it runs in a world and leaves a world, with a value
    or an exception. *)
Definition M (A : Type) : Type := world → res A * world.

#[export] Instance M_ret : MRet M := λ A a w, (Ret a, w).
#[export] Instance M_bind : MBind M := λ A B k m w,
  match m w with
  | (Ret a, w') => k a w'
  | (Raise e, w') => (Raise e, w')
  end.

Definition raise {A} (e : exn) : M A := λ w, (Raise e, w).

Definition lift {A} (r : res A) : M A := λ w, (r, w).

Definition emit (e : event) : M unit :=
  λ w, (Ret tt, {| calls := calls w; log := log w ++ [e] |}).

Definition print (st : stream) (m : message) : M unit := emit (Print st m).

Definition sys_exit {A} (code : Z) : M A := raise (SystemExit code).

(** [try: body except ..: handler]: [handler e] is [None] when no
    [except] clause matches [e]. *)
Definition try_except {A} (body : M A) (handler : exn → option (M A)) : M A :=
  λ w,
    match body w with
    | (Ret a, w') => (Ret a, w')
    | (Raise e, w') =>
        match handler e with
        | Some h => h w'
        | None => (Raise e, w')
        end
    end.

(** Exit status of the interpreter. *)
Definition exit_code {A} (r : res A) : Z :=
  match r with
  | Ret _ => 0
  | Raise (SystemExit c) => c
  | Raise _ => 1
  end.

(** The network calls, file writes and manifest writes of a log. *)
Definition requests_of (l : list event) : list request :=
  omap (λ e, match e with Net r _ => Some r | _ => None end) l.

Definition writes_of (l : list event) : list (option string * string * list Byte.byte) :=
  omap (λ e, match e with WriteBytes d n b => Some (d, n, b) | _ => None end) l.

(** The files a log leaves behind: the last data written under each name. *)
Definition files_of (l : list event) : gmap (option string * string) (list Byte.byte) :=
  foldl (λ m '(d, n, b), <[(d, n) := b]> m) ∅ (writes_of l).

Definition manifests_of (l : list event) : list (string * string * gmap string (list string)) :=
  omap (λ e, match e with WriteManifest d n m => Some (d, n, m) | _ => None end) l.

Section Service.

(** The speech service: outcome of the [n]-th network call of the run. *)
Variable svc : nat → request → reply.

Definition http (req : request) : M response :=
  λ w,
    let out := svc (calls w) req in
    (match out with
     | Failed f => Raise (exn_of_failure f)
     | Replied r => Ret r
     end,
     {| calls := S (calls w); log := log w ++ [Net req out] |}).

(** [r.raise_for_status()] *)
Definition raise_for_status (r : response) : M unit :=
  if (400 <=? status r) && (status r <? 600) then raise (HTTPError (status r))
  else mret tt.

(** [r.json()] *)
Definition json_of (r : response) : M json :=
  match json_body r with
  | Some j => mret j
  | None => raise JSONDecodeError
  end.

(** Body sent for [json=query]: none when [query] is [None]. *)
Definition json_arg (q : json) : option json :=
  match q with
  | JOther JNull => None
  | _ => Some q
  end.

End Service.

(** ** The process environment *)

(** What reading [/proc/net/route] as UTF-8 text gives: an [OSError]
    (no such file, no permission), a decoding error, or the text. *)
Inductive file_read : Type :=
| ReadOSError
| ReadDecodeError
| ReadText (s : string).

(** [os.environ], name resolution ([None]: [socket.gethostbyname]
    raises, an [OSError]) and the routing table. *)
Record environment : Type := {
  environ : gmap string string;
  gethostbyname : string → option string;
  proc_net_route : file_read
}.

(** The command line after [parse_args]: the options that were given. *)
Record cli_args : Type := {
  arg_url : option string;
  arg_out : option string
}.

(** ** scripts/generate_voicevox_voices.py *)

Module Voicevox.

Definition SPEAKER_ID : Z := 3.

(** The loop of [_get_default_gateway_linux] over the lines after the
    header. *)
Fixpoint scan_routes (lines : list string) : res (option string) :=
  match lines with
  | [] => Ret None
  | line :: rest =>
      match PyStr.split (PyStr.strip line) with
      | _ :: destination :: gateway :: _ =>
          if negb (String.eqb destination "00000000") then scan_routes rest
          else
            g ← PyStr.int16 gateway;
            b ← PyStr.to_bytes4_little g;
            ip ← PyStr.inet_ntoa b;
            Ret (Some ip)
      | _ => scan_routes rest
      end
  end.

(** [except OSError: return None], the handler around the whole body. *)
Definition except_OSError (r : res (option string)) : res (option string) :=
  match r with
  | Raise OSError => Ret None
  | _ => r
  end.

Definition _get_default_gateway_linux (env : environment) : res (option string) :=
  match proc_net_route env with
  | ReadOSError => Ret None
  | ReadDecodeError => Raise UnicodeDecodeError
  | ReadText s => except_OSError (scan_routes (tail (PyStr.readlines s)))
  end.

Definition _resolve_host_or_none (env : environment) (host : string) : option string :=
  match gethostbyname env host with
  | Some _ => Some host
  | None => None
  end.

Definition _default_voicevox_host (env : environment) : res string :=
  let env_host := environ env !! "VOICEVOX_HOST" in
  if truthy env_host then Ret (default "" env_host)
  else if truthy (_resolve_host_or_none env "host.docker.internal")
  then Ret "host.docker.internal"
  else
    gw ← _get_default_gateway_linux env;
    if truthy gw then Ret (default "" gw)
    else Ret "127.0.0.1".

(** The hosts [_default_voicevox_host] passes to [socket.gethostbyname],
    in order: the alias, unless [VOICEVOX_HOST] decides before.  The call
    takes the host name and nothing else. *)
Definition lookups (env : environment) : list string :=
  if truthy (environ env !! "VOICEVOX_HOST") then []
  else ["host.docker.internal"].

(** The module-level constants, computed when the script is loaded. *)
Definition DEFAULT_VOICEVOX_PORT (env : environment) : string :=
  or_else (environ env !! "VOICEVOX_PORT") "50021".

Definition DEFAULT_VOICEVOX_URL (env : environment) : res string :=
  DEFAULT_VOICEVOX_HOST ← _default_voicevox_host env;
  Ret (or_else (environ env !! "VOICEVOX_URL")
         ("http://" +:+ DEFAULT_VOICEVOX_HOST +:+ ":" +:+ DEFAULT_VOICEVOX_PORT env)).

Definition DEFAULT_OUTPUT_DIR : string := "public/sounds/voice".

Definition LINES : list (string * string) :=
  [ ("zunda_pon.wav", "ポンなのだ！");
    ("zunda_chi.wav", "チーなのだ。もらうのだ。");
    ("zunda_kan.wav", "カァーン！");
    ("zunda_riichi.wav", "リーチなのだ。覚悟するのだ。");
    ("zunda_ron.wav", "ロン！弱い、弱すぎるのだｗ");
    ("zunda_tsumo.wav", "ツモ！文句ないのだ！");
    ("zunda_tenpai.wav", "そろそろ上がれそうなのだ…");
    ("zunda_slow.wav", "遅いのだ。早く打つのだ。");
    ("zunda_dora.wav", "おっ、ドラ切ったのだ？");
    ("zunda_start.wav", "よろしくなのだ。絶対負けないのだ。") ].

(** The three calls, as [requests.get] / [requests.post] receive them. *)
Definition speakers_request (url : string) : request :=
  {| meth := GET; target := url +:+ "/speakers"; params := [];
     payload := None; timeout := Some 10 |}.

Definition audio_query_request (url text : string) : request :=
  {| meth := POST; target := url +:+ "/audio_query";
     params := [("text", PStr text); ("speaker", PInt SPEAKER_ID)];
     payload := None; timeout := Some 30 |}.

Definition synthesis_request (url : string) (query : json) : request :=
  {| meth := POST; target := url +:+ "/synthesis";
     params := [("speaker", PInt SPEAKER_ID)];
     payload := json_arg query; timeout := Some 60 |}.

Section Client.

Variable svc : nat → request → reply.

Definition check_voicevox (url : string) : M unit :=
  r ← http svc (speakers_request url);
  raise_for_status r.

Definition audio_query (url text : string) : M json :=
  r ← http svc (audio_query_request url text);
  raise_for_status r;;
  json_of r.

Definition synthesis (url : string) (query : json) : M (list Byte.byte) :=
  r ← http svc (synthesis_request url query);
  raise_for_status r;;
  mret (content r).

(** The handler of the health check in [main]. *)
Definition on_check_failure (voicevox_url : string) (e : exn) : option (M unit) :=
  match e with
  | ConnectionError | Timeout =>
      Some (print Stderr MsgCouldNotConnect;;
            print Stderr (MsgUrl voicevox_url);;
            print Stderr MsgEnsureRunning;;
            print Stderr MsgHint;;
            print Stderr (MsgDetails e);;
            sys_exit 2)
  | HTTPError _ =>
      Some (print Stderr MsgHealthHTTPError;;
            print Stderr (MsgDetails e);;
            sys_exit 3)
  | _ => None
  end.

(** The handler around the two calls of one item. *)
Definition on_item_failure (filename : string) (e : exn) : option (M (list Byte.byte)) :=
  match e with
  | ConnectionError | Timeout | HTTPError _ =>
      Some (print Stderr (MsgFailedToGenerate filename e);;
            sys_exit 4)
  | _ => None
  end.

(** The two calls of one item, the body of the [try]. *)
Definition fetch (voicevox_url text : string) : M (list Byte.byte) :=
  query ← audio_query voicevox_url text;
  synthesis voicevox_url query.

(** One turn of the loop over [LINES]. *)
Definition generate_one (voicevox_url output_dir : string) (item : string * string) : M unit :=
  let '(filename, text) := item in
  wav ← try_except (fetch voicevox_url text) (on_item_failure filename);
  emit (WriteBytes (Some output_dir) filename wav);;
  print Stdout (MsgGenerated filename (length wav) (Some text)).

(** The loop over the table, with the counter [generated]. *)
Fixpoint generate_all (voicevox_url output_dir : string)
    (lines : list (string * string)) (generated : nat) : M nat :=
  match lines with
  | [] => mret generated
  | item :: rest =>
      generate_one voicevox_url output_dir item;;
      generate_all voicevox_url output_dir rest (S generated)
  end.

(** [main] up to the loop: the directory, the banner, the health check. *)
Definition startup (voicevox_url output_dir : string) : M unit :=
  emit (Mkdir output_dir);;
  print Stderr MsgNote;;
  print Stdout (MsgVoicevox voicevox_url SPEAKER_ID);;
  print Stdout (MsgOutput output_dir);;
  try_except (check_voicevox voicevox_url) (on_check_failure voicevox_url).

(** [main] after [parse_args], over the table [lines]. *)
Definition main_with (lines : list (string * string)) (voicevox_url output_dir : string) : M unit :=
  startup voicevox_url output_dir;;
  generated ← generate_all voicevox_url output_dir lines 0;
  print Stdout (MsgDoneCount generated).

(** The URL [main] uses: [--url], else the module default. *)
Definition resolve_url (env : environment) (cli : cli_args) : res string :=
  d ← DEFAULT_VOICEVOX_URL env;
  Ret (default d (arg_url cli)).

(** The script: module constants, then [main()]. *)
Definition script (env : environment) (cli : cli_args) : M unit :=
  voicevox_url ← lift (resolve_url env cli);
  main_with LINES voicevox_url (default DEFAULT_OUTPUT_DIR (arg_out cli)).

End Client.

End Voicevox.

(** ** scripts/generate_quote_voices.py *)

Module Quotes.

Definition VOICEVOX_URL_DEFAULT (env : environment) : string :=
  or_else (environ env !! "VOICEVOX_URL") "http://localhost:50021".

Definition SPEAKER : Z := 3.

(** [QUOTES], in the order of the dictionary literal. *)
Definition QUOTES : list (string * list string) :=
  [ ("DEFENSE",
      [ "うわ、リーチなのだ…。統計的にここは『オリ』が正解なのだ。君のその安そうな手に振り込むほど、ボクは馬鹿じゃないのだ。";
        "はいはい撤退撤退。君のリーチ、なんか『待ち』が透けて見えるのだ。そんな見え見えの罠にかかるわけないのだ。" ]);
    ("OFFENSE",
      [ "は？ そのリーチ、ブラフでしょ？ 期待値計算した結果、ボクのこの手は『全ツッパ』が最適解と出たのだ！！";
        "リスクリターンも計算できないの？ このドラは通る……いや、通す！！ 君の運だけのリーチなんて怖くないのだ！！" ]);
    ("SAFE_TILE",
      [ "はいはい、安パイ。君のリーチ、全然プレッシャーないんだけど？";
        "はいはい、安全策安全策。そんなにボクのロンが怖いのだ？ ビビり散らかしてるのが手に取るようにわかるのだｗ" ]);
    ("EARLY_GAME",
      [ "ふふん、手牌が育ってきたのだ。今のうちに逃げる準備したほうがいいんじゃない？ 後で泣いても知らないのだ。";
        "ボクの配牌、良すぎて笑いが止まらないのだ。君の手牌、なんかゴミ溜めみたいになってない？" ]);
    ("DRAW_TENPAI",
      [ "危なかったねー。シミュレーションでは次のツモでボクが上がってたのだ。君の寿命が少し伸びただけなのだ。" ]);
    ("DRAW_NOTEN",
      [ "……あえてテンパイを取らなかったのだ。これが『回し打ち』の極意。放銃回避を最優先した高度な戦術……君には理解できない高尚なプレイなのだ。" ]);
    ("WIN_SMALL",
      [ "はい、ロン！ ……え、安い？ 点数じゃないのだ、君の『流れ』を断ち切るのが目的なのだ！ ざぁこ♡" ]);
    ("WIN_BIG",
      [ "これが実力、これが知性なのだ！！ 君の非効率な打牌に対する、統計学からの鉄槌なのだ！！ 点棒置いてさっさと席を立つのだ！" ]);
    ("GAME_WIN",
      [ "当然の結果なのだ。君とボクとでは、積んでるCPUのスペックが違いすぎたのだ。悔しかったら課金して出直してくるのだ！ まあ、何度やってもボクが勝つけどね！ お疲れ様、養分さん！" ]);
    ("PLAYER_WIN_LOW",
      [ "えっ、それだけ？ その点数のためにボクの手を蹴ったの？ コスパ悪すぎなのだ。";
        "必死にアガってそれ？ 駄菓子代にもならないのだｗ" ]);
    ("PLAYER_WIN_HIGH",
      [ "はいはい、よかったねー。すごいすごい（棒）。これで満足なのだ？";
        "へー、高打点？ おめでとうなのだ。……まさか、たかがゲームの点数で人生勝った気になってないよね？";
        "あーはいはい、強い強い。運だけは一人前なのだ。一応拍手してあげるのだ。（パチパチパチ）" ]);
    ("PLAYER_WIN_GENERIC",
      [ "はいはいおめでとう。君の人生の運、今ので全部使い果たしたのだw";
        "まあ、たまには勝たせてあげないとね。これは『接待』なのだ。" ]) ].

Definition VOICE_PARAMS : gmap string (gmap string jvalue) :=
  {[ "PLAYER_WIN_LOW" :=
       {[ "speedScale" := JFloat 12 (-1); "pitchScale" := JFloat 1 (-1) ]};
     "PLAYER_WIN_HIGH" :=
       {[ "intonationScale" := JFloat 5 (-1); "speedScale" := JFloat 11 (-1);
          "pitchScale" := JFloat 0 (-1) ]};
     "PLAYER_WIN_GENERIC" :=
       {[ "speedScale" := JFloat 13 (-1); "intonationScale" := JFloat 15 (-1) ]} ]}.

(** [f"{category}_{i}.wav"] *)
Definition filename_of (category : string) (i : nat) : string :=
  category +:+ "_" +:+ pretty i +:+ ".wav".

(** [if tuning: query.update(tuning)] with [tuning = voice_params.get(category)]:
    an absent or empty tuning leaves the query alone; a value that is
    not a [dict] has no [update]. *)
Definition apply_tuning (tuning : option (gmap string jvalue)) (query : json) : res json :=
  match tuning with
  | None => Ret query
  | Some t =>
      if decide (t = ∅) then Ret query
      else
        match query with
        | JObject fields => Ret (JObject (t ∪ fields))
        | JOther _ => Raise AttributeError
        end
  end.

(** The three calls, as [requests.get] / [requests.post] receive them. *)
Definition version_request (url : string) : request :=
  {| meth := GET; target := url +:+ "/version"; params := [];
     payload := None; timeout := Some 10 |}.

Definition audio_query_request (url text : string) : request :=
  {| meth := POST; target := url +:+ "/audio_query";
     params := [("text", PStr text); ("speaker", PInt SPEAKER)];
     payload := None; timeout := Some 30 |}.

Definition synthesis_request (url : string) (query : json) : request :=
  {| meth := POST; target := url +:+ "/synthesis";
     params := [("speaker", PInt SPEAKER)];
     payload := json_arg query; timeout := Some 60 |}.

Section Client.

Variable svc : nat → request → reply.

Definition audio_query (url text : string) : M json :=
  r ← http svc (audio_query_request url text);
  raise_for_status r;;
  json_of r.

Definition synthesis (url : string) (query : json) : M (list Byte.byte) :=
  r ← http svc (synthesis_request url query);
  raise_for_status r;;
  mret (content r).

(** The version check of [main]: any [Exception] is reported and dropped. *)
Definition version_check (url : string) : M unit :=
  try_except
    (r ← http svc (version_request url);
     raise_for_status r;;
     print Stdout (MsgVersion (text r)))
    (λ e, match e with
          | SystemExit _ => None
          | _ => Some (print Stdout (MsgVersionWarn e))
          end).

(** The handler around one line: report, then re-raise. *)
Definition on_line_failure (category : string) (i : nat) (e : exn)
    : option (M (gmap string (list string))) :=
  match e with
  | ConnectionError | Timeout | HTTPError _ =>
      Some (print Stdout (MsgFailedQuote category i e);; raise e)
  | _ => None
  end.

(** The calls for one line: query, tuning, synthesis. *)
Definition fetch (voice_params : gmap string (gmap string jvalue))
    (url category line : string) : M (list Byte.byte) :=
  query ← audio_query url line;
  query ← lift (apply_tuning (voice_params !! category) query);
  synthesis url query.

(** The body of the inner loop, for line [i] of [category]. *)
Definition generate_line (voice_params : gmap string (gmap string jvalue))
    (url out_dir category : string) (i : nat) (line : string)
    (manifest : gmap string (list string)) : M (gmap string (list string)) :=
  let filename := filename_of category i in
  try_except
    (wav ← fetch voice_params url category line;
     emit (WriteBytes (Some out_dir) filename wav);;
     let manifest := alter (λ l, l ++ [filename]) category manifest in
     print Stdout (MsgGenerated filename (length wav) None);;
     mret manifest)
    (on_line_failure category i).

(** [for i, line in enumerate(lines)], from index [i] on. *)
Fixpoint generate_lines (voice_params : gmap string (gmap string jvalue))
    (url out_dir category : string) (lines : list string) (i : nat)
    (manifest : gmap string (list string)) : M (gmap string (list string)) :=
  match lines with
  | [] => mret manifest
  | line :: rest =>
      manifest ← generate_line voice_params url out_dir category i line manifest;
      generate_lines voice_params url out_dir category rest (S i) manifest
  end.

(** [for category, lines in quotes.items()] *)
Fixpoint generate_categories (voice_params : gmap string (gmap string jvalue))
    (url out_dir : string) (quotes : list (string * list string))
    (manifest : gmap string (list string)) : M (gmap string (list string)) :=
  match quotes with
  | [] => mret manifest
  | (category, lines) :: rest =>
      manifest ← generate_lines voice_params url out_dir category lines 0
                   (<[category := []]> manifest);
      generate_categories voice_params url out_dir rest manifest
  end.

(** [main] up to the loops: the directory, the banner, the version check. *)
Definition startup (url out_dir : string) : M unit :=
  emit (Mkdir out_dir);;
  print Stdout (MsgVoicevox url SPEAKER);;
  print Stdout (MsgOutput out_dir);;
  version_check url.

(** [main] from the loops on: every line, then the manifest. *)
Definition batch (quotes : list (string * list string))
    (voice_params : gmap string (gmap string jvalue))
    (url out_dir : string) : M unit :=
  manifest ← generate_categories voice_params url out_dir quotes ∅;
  emit (WriteManifest out_dir "manifest.json" manifest);;
  print Stdout MsgDone.

(** [main] after [parse_args], over the tables [quotes] and
    [voice_params]; [arg_url] is [args.url]. *)
Definition main_with (quotes : list (string * list string))
    (voice_params : gmap string (gmap string jvalue))
    (arg_url out_dir : string) : M unit :=
  let url := PyStr.rstrip_char "/" arg_url in
  startup url out_dir;;
  batch quotes voice_params url out_dir.

(** [args.url]: [--url], else the module default. *)
Definition args_url (env : environment) (cli : cli_args) : string :=
  default (VOICEVOX_URL_DEFAULT env) (arg_url cli).

(** The base URL [main] talks to. *)
Definition resolve_url (env : environment) (cli : cli_args) : string :=
  PyStr.rstrip_char "/" (args_url env cli).

Definition script (env : environment) (cli : cli_args) : M unit :=
  main_with QUOTES VOICE_PARAMS (args_url env cli)
    (default "public/sounds/voice/quotes" (arg_out cli)).

End Client.

End Quotes.

(** ** update_voices.py *)

Module UpdateVoices.

Definition host : string := "localhost".
Definition port : Z := 50021.
Definition speaker_id : Z := 3.

Record voice : Type := {
  filename : string;
  voice_text : string;
  speed : jvalue;
  pitch : jvalue;
  intonation : jvalue
}.

Definition voices : list voice :=
  [ {| filename := "SAFE_TILE_1.wav";
       voice_text := "はいはい、あんぜんさく、あんぜんさく。そんなにボクのロンが怖いのだ？ ビビり散らかしてるのが手に取るようにわかるのだわら";
       speed := JFloat 12 (-1); pitch := JFloat 0 (-1); intonation := JFloat 12 (-1) |};
    {| filename := "WIN_SMALL_TSUMO_0.wav";
       voice_text := "あがり。安い？ 関係ないのだ。早あがりで君の親番を流すのが、デジタル麻雀の基本なのだ。";
       speed := JFloat 11 (-1); pitch := JFloat 0 (-1); intonation := JFloat 11 (-1) |};
    {| filename := "GAME_WIN_1.wav";
       voice_text := "圧倒的勝利なのだ！ 人類の知能なんて、所詮この程度なのだ。ボクに勝とうなんて100万年早かったね。";
       speed := JFloat 12 (-1); pitch := JFloat 1 (-1); intonation := JFloat 13 (-1) |};
    {| filename := "GAME_WIN_2.wav";
       voice_text := "対戦ありがとうございましたー。君の打牌データ、いい学習サンプルになったよ。養分になってくれて感謝するのだ。";
       speed := JFloat 11 (-1); pitch := JFloat 0 (-1); intonation := JFloat 8 (-1) |} ].

Definition base_url : string := "http://" +:+ host +:+ ":" +:+ pretty port.

(** [q[key] = value]: only a [dict] supports it here. *)
Definition setitem (q : json) (key : string) (v : jvalue) : res json :=
  match q with
  | JObject fields => Ret (JObject (<[key := v]> fields))
  | JOther _ => Raise TypeError
  end.

(** The three assignments of [generate_wav]. *)
Definition tune (voice_data : voice) (q : json) : res json :=
  q ← setitem q "speedScale" (speed voice_data);
  q ← setitem q "pitchScale" (pitch voice_data);
  setitem q "intonationScale" (intonation voice_data).

(** The two calls of [generate_wav]; neither passes a [timeout]. *)
Definition params_of (voice_data : voice) : list (string * param) :=
  [("text", PStr (voice_text voice_data)); ("speaker", PInt speaker_id)].

Definition audio_query_request (voice_data : voice) : request :=
  {| meth := POST; target := base_url +:+ "/audio_query";
     params := params_of voice_data; payload := None; timeout := None |}.

Definition synthesis_request (voice_data : voice) (q : json) : request :=
  {| meth := POST; target := base_url +:+ "/synthesis";
     params := params_of voice_data; payload := Some q; timeout := None |}.

Section Client.

Variable svc : nat → request → reply.

Definition generate_wav (voice_data : voice) : M unit :=
  r ← http svc (audio_query_request voice_data);
  q ← json_of r;
  q ← lift (tune voice_data q);
  res ← http svc (synthesis_request voice_data q);
  emit (WriteBytes None (filename voice_data) (content res));;
  print Stdout (MsgGeneratedName (filename voice_data));;
  emit (Sleep 500).

(** [for v in voices: generate_wav(v)] *)
Fixpoint generate_each (vs : list voice) : M unit :=
  match vs with
  | [] => mret tt
  | v :: rest => generate_wav v;; generate_each rest
  end.

Definition script : M unit := generate_each voices.

End Client.

End UpdateVoices.

(** * Vocabulary of the statements *)

(** A line the scan of the routing table passes over: fewer than three
    fields, or a destination other than the any-route. *)
Definition passed_over (line : string) : Prop :=
  match PyStr.split (PyStr.strip line) with
  | _ :: destination :: _ :: _ => destination ≠ "00000000"
  | _ => True
  end.

(** The table holds no any-route entry, or cannot be opened. *)
Definition no_default_route (env : environment) : Prop :=
  match proc_net_route env with
  | ReadOSError => True
  | ReadDecodeError => False
  | ReadText s => Forall passed_over (tail (PyStr.readlines s))
  end.

(** The dotted form of the four bytes of [g], lowest byte first. *)
Definition dotted_little_endian (g : Z) : string :=
  pretty (g mod 256) +:+ "." +:+ pretty (g / 256 mod 256) +:+ "."
  +:+ pretty (g / 65536 mod 256) +:+ "." +:+ pretty (g / 16777216 mod 256).

(** The hexadecimal digits and their values. *)
Definition hex_digits : list (ascii * Z) :=
  [("0", 0); ("1", 1); ("2", 2); ("3", 3); ("4", 4); ("5", 5); ("6", 6); ("7", 7);
   ("8", 8); ("9", 9);
   ("A", 10); ("B", 11); ("C", 12); ("D", 13); ("E", 14); ("F", 15);
   ("a", 10); ("b", 11); ("c", 12); ("d", 13); ("e", 14); ("f", 15)]%char.

(** The value of [c] as a hexadecimal digit, if it is one. *)
Definition digit_value (c : ascii) : option Z :=
  snd <$> find (λ p, Ascii.eqb p.1 c) hex_digits.

(** The number a row of digit values spells in base 16, the most
    significant digit first. *)
Fixpoint hex_value (ds : list Z) : Z :=
  match ds with
  | [] => 0
  | d :: rest => d * 16 ^ Z.of_nat (length rest) + hex_value rest
  end.

(** The number the hexadecimal digits of a field spell, read from left to
    right; characters that are no digit are left out. *)
Definition spelled (field : string) : Z :=
  hex_value (omap digit_value (list_ascii_of_string field)).

(** A field made of hexadecimal digits only, at least one; the kernel
    prints eight of them ([%08X]). *)
Definition hex_field (field : string) : Prop :=
  field ≠ "" ∧ Forall (λ c, is_Some (digit_value c)) (list_ascii_of_string field).



(** The last character of a string, if it has one. *)
Definition last_char (s : string) : option ascii :=
  last (list_ascii_of_string s).

(** [n] slashes. *)
Fixpoint slashes (n : nat) : string :=
  match n with
  | O => ""
  | S n' => String "/" (slashes n')
  end.

(** A line of [/proc/net/route] as the kernel prints it: the fields
    separated by tabs, a newline at the end. *)
Fixpoint route_line (fields : list string) : string :=
  match fields with
  | [] => String "010" ""
  | [f] => f +:+ String "010" ""
  | f :: rest => f +:+ String "009" (route_line rest)
  end.

Definition route_header : string :=
  route_line ["Iface"; "Destination"; "Gateway "; "Flags"; "RefCnt"; "Use";
              "Metric"; "Mask"; "MTU"; "Window"; "IRTT"].

(** A routing table with a link route first and the any-route second,
    whose gateway field is [0100007F]. *)
Definition route_table_loopback_gateway : string :=
  route_header
  +:+ route_line ["eth0"; "000011AC"; "00000000"; "0001"; "0"; "0"; "0"; "0000FFFF"; "0"; "0"; "0"]
  +:+ route_line ["eth0"; "00000000"; "0100007F"; "0003"; "0"; "0"; "0"; "00000000"; "0"; "0"; "0"].

(** A routing table as a home network gives it: the any-route first,
    through the gateway [192.168.1.254], then the link route. *)
Definition route_table_home_gateway : string :=
  route_header
  +:+ route_line ["wlan0"; "00000000"; "FE01A8C0"; "0003"; "0"; "0"; "600"; "00000000"; "0"; "0"; "0"]
  +:+ route_line ["wlan0"; "0001A8C0"; "00000000"; "0001"; "0"; "0"; "600"; "00FFFFFF"; "0"; "0"; "0"].

(** A table whose any-route entry carries a gateway that is no number. *)
Definition route_table_bad_gateway : string :=
  route_header
  +:+ route_line ["eth0"; "00000000"; "zz"; "0003"; "0"; "0"; "0"; "00000000"; "0"; "0"; "0"].

(** No variable set, no name resolves, no routing table. *)
Definition env_bare : environment :=
  {| environ := ∅; gethostbyname := λ _, None; proc_net_route := ReadOSError |}.

Definition env_with_route (table : string) : environment :=
  {| environ := ∅; gethostbyname := λ _, None; proc_net_route := ReadText table |}.

(** No variable set, no name resolves, and a routing table that is not
    UTF-8 text: the kernel prints the name of an interface as it is, and
    it accepts any name without [/], [:] and white space. *)
Definition env_undecodable_table : environment :=
  {| environ := ∅; gethostbyname := λ _, None; proc_net_route := ReadDecodeError |}.

(** [VOICEVOX_HOST] set, in a container where the alias resolves too. *)
Definition env_host_override : environment :=
  {| environ := {[ "VOICEVOX_HOST" := "192.168.0.7"; "VOICEVOX_PORT" := "50121" ]};
     gethostbyname := λ _, Some "192.168.65.254";
     proc_net_route := ReadText route_table_loopback_gateway |}.

(** [emits P m]: whatever [m] does, it only appends to the log, and
    only events that satisfy [P]. *)
Definition emits {A} (P : event → Prop) (m : M A) : Prop :=
  ∀ w r w', m w = (r, w') → ∃ evs, log w' = log w ++ evs ∧ Forall P evs.

(** The world after one more printed line. *)
Definition printed (w : world) (st : stream) (m : message) : world :=
  {| calls := calls w; log := log w ++ [Print st m] |}.

(** The failures the batch loops catch: connection, timeout, HTTP status. *)
Definition net_failure (e : exn) : Prop :=
  match e with
  | ConnectionError | Timeout | HTTPError _ => True
  | _ => False
  end.

(** A status on which [raise_for_status] raises. *)
Definition error_status (s : Z) : Prop := 400 ≤ s < 600.

(** The health check fails on this reply: no response, or an error status. *)
Definition health_fails (out : reply) : Prop :=
  match out with
  | Failed _ => True
  | Replied r => error_status (status r)
  end.

(** The exception a step raises on a reply that makes it fail. *)
Definition exn_of_reply (out : reply) : exn :=
  match out with
  | Failed f => exn_of_failure f
  | Replied r => HTTPError (status r)
  end.

Definition on_net (P : request → Prop) (e : event) : Prop :=
  match e with
  | Net req _ => P req
  | _ => True
  end.

Definition is_net (e : event) : Prop :=
  match e with
  | Net _ _ => True
  | _ => False
  end.

Definition not_manifest (e : event) : Prop :=
  match e with
  | WriteManifest _ _ _ => False
  | _ => True
  end.

(** The budgets of the two scripts under [scripts/]: 10 s for the health
    check at [url ++ health], 30 s for the query, 60 s for the synthesis. *)
Definition within_budget (url health : string) (req : request) : Prop :=
  (target req = url +:+ health ∧ timeout req = Some 10)
  ∨ (target req = url +:+ "/audio_query" ∧ timeout req = Some 30)
  ∨ (target req = url +:+ "/synthesis" ∧ timeout req = Some 60).

(** A network call of a run: an HTTP call made through [requests], or a
    name lookup made through [socket.gethostbyname]. *)
Inductive network_call : Type :=
| HttpCall (req : request)
| NameLookup (host : string).

(** The timeout a call is given: a name lookup has no such argument. *)
Definition timeout_of (c : network_call) : option Z :=
  match c with
  | HttpCall req => timeout req
  | NameLookup _ => None
  end.

(** The network calls of a run of [generate_voicevox_voices.py]: the
    lookups made while the module loads, then the HTTP calls of [main]. *)
Definition voicevox_network_calls (svc : nat → request → reply)
    (env : environment) (cli : cli_args) : list network_call :=
  map NameLookup (Voicevox.lookups env)
  ++ map HttpCall (requests_of (log (Voicevox.script svc env cli world0).2)).

(** An HTTP call within the budgets, or the lookup of the alias. *)
Definition accounted (url health : string) (c : network_call) : Prop :=
  match c with
  | HttpCall req => within_budget url health req
  | NameLookup host => host = "host.docker.internal"
  end.

(** The tuning set of a voice request of [update_voices.py]. *)
Definition tuning_of (v : UpdateVoices.voice) : gmap string jvalue :=
  {[ "speedScale" := UpdateVoices.speed v;
     "pitchScale" := UpdateVoices.pitch v;
     "intonationScale" := UpdateVoices.intonation v ]}.

(** A query with [tuning] laid over it: the fields of [tuning] at their
    supplied values, every other field as [returned] has it. *)
Definition overridden (tuning returned sent : gmap string jvalue) : Prop :=
  ∀ k, sent !! k = match tuning !! k with
                    | Some v => Some v
                    | None => returned !! k
                    end.

(** The calls each script can make. *)
Definition voicevox_call (url : string) (req : request) : Prop :=
  req = Voicevox.speakers_request url
  ∨ (∃ text, req = Voicevox.audio_query_request url text)
  ∨ (∃ q, req = Voicevox.synthesis_request url q).

Definition quotes_call (url : string) (req : request) : Prop :=
  req = Quotes.version_request url
  ∨ (∃ text, req = Quotes.audio_query_request url text)
  ∨ (∃ q, req = Quotes.synthesis_request url q).

(** Network calls that satisfy [P], and nothing else. *)
Definition calls_only (P : request → Prop) (e : event) : Prop :=
  match e with
  | Net req _ => P req
  | _ => False
  end.

(** Network calls that satisfy [P], and anything but a manifest. *)
Definition before_manifest (P : request → Prop) (e : event) : Prop :=
  match e with
  | Net req _ => P req
  | WriteManifest _ _ _ => False
  | _ => True
  end.

(** The world after the call [req] made in [w]. *)
Definition after_call (svc : nat → request → reply) (req : request) (w : world) : world :=
  {| calls := S (calls w); log := log w ++ [Net req (svc (calls w) req)] |}.

(** A step that met [out] and ended with [r] raised the transport error
    of [out], if [out] is one. *)
Definition fails_on_transport {A} (out : reply) (r : res A) : Prop :=
  match out with
  | Failed ConnectionFailed => r = Raise ConnectionError
  | Failed TimedOut => r = Raise Timeout
  | Failed OtherFailure => r = Raise RequestException
  | Replied _ => True
  end.

(** A step that met [out] and ended with [r] failed loudly: a transport
    failure raised its exception, an error status raised [HTTPError]. *)
Definition fails_loudly {A} (out : reply) (r : res A) : Prop :=
  fails_on_transport out r
  ∧ ∀ resp, out = Replied resp →
      error_status (status resp) → r = Raise (HTTPError (status resp)).

(** Bytes returned as audio are the body of a response without error status. *)
Definition audio_from (out : reply) (r : res (list Byte.byte)) : Prop :=
  ∀ bytes, r = Ret bytes →
    ∃ resp, out = Replied resp ∧ ¬ error_status (status resp) ∧ bytes = content resp.

(** An event that is no network call. *)
Definition quiet (e : event) : Prop :=
  match e with
  | Net _ _ => False
  | _ => True
  end.

(** Network calls that satisfy [P], the directory and printed lines:
    what a script does before its loop. *)
Definition banner_event (P : request → Prop) (e : event) : Prop :=
  match e with
  | Net req _ => P req
  | Mkdir _ | Print _ _ => True
  | _ => False
  end.

(** The files the voicevox loop writes for [lines], in order. *)
Definition line_files (out_dir : string) (lines : list (string * string))
    : list (option string * string) :=
  map (λ item, (Some out_dir, item.1)) lines.

(** The names [generate_quote_voices.py] gives the lines of a category,
    from index [i] on. *)
Definition filenames_from (category : string) (i n : nat) : list string :=
  map (Quotes.filename_of category) (seq i n).

(** The files the quotes loops write for [quotes], in order. *)
Definition quote_files (out_dir : string) (quotes : list (string * list string))
    : list (option string * string) :=
  flat_map (λ '(category, lines),
              map (λ name, (Some out_dir, name))
                  (filenames_from category 0 (length lines))) quotes.

(** The world after the banner of [generate_voicevox_voices.py]. *)
Definition voicevox_banner (url out_dir : string) : world :=
  {| calls := 0;
     log := [Mkdir out_dir; Print Stderr MsgNote;
             Print Stdout (MsgVoicevox url Voicevox.SPEAKER_ID);
             Print Stdout (MsgOutput out_dir)] |}.

(** The world after the banner of [generate_quote_voices.py]. *)
Definition quotes_banner (url out_dir : string) : world :=
  {| calls := 0;
     log := [Mkdir out_dir;
             Print Stdout (MsgVoicevox url Quotes.SPEAKER);
             Print Stdout (MsgOutput out_dir)] |}.

(** A dotted quad: four decimal octets. *)
Definition dotted_quad (ip : string) : Prop :=
  ∃ a b c d,
    0 ≤ a < 256 ∧ 0 ≤ b < 256 ∧ 0 ≤ c < 256 ∧ 0 ≤ d < 256
    ∧ ip = pretty a +:+ "." +:+ pretty b +:+ "." +:+ pretty c +:+ "." +:+ pretty d.

(** The environment with the variable [name] removed. *)
Definition unset (name : string) (env : environment) : environment :=
  {| environ := delete name (environ env);
     gethostbyname := gethostbyname env;
     proc_net_route := proc_net_route env |}.

(** [VOICEVOX_URL] set to the empty string, [VOICEVOX_HOST] to a host. *)
Definition env_empty_url : environment :=
  {| environ := {[ "VOICEVOX_URL" := ""; "VOICEVOX_HOST" := "10.0.0.9" ]};
     gethostbyname := λ _, None;
     proc_net_route := ReadOSError |}.

(** The texts sent to the query step, in the order of the calls: the
    [text] parameter of the calls whose first parameter it is. *)
Definition texts_of (l : list event) : list string :=
  omap (λ e, match e with
             | Net req _ =>
                 match params req with
                 | ("text", PStr t) :: _ => Some t
                 | _ => None
                 end
             | _ => None
             end) l.

(** Every file of the log holds the body of a response of the log that
    carries no error status. *)
Definition writes_only_audio (l : list event) : Prop :=
  ∀ d n b, WriteBytes d n b ∈ l →
    ∃ req r, Net req (Replied r) ∈ l ∧ ¬ error_status (status r) ∧ content r = b.

(** All the lines of a table of categories, in order. *)
Definition all_lines (quotes : list (string * list string)) : list string :=
  flat_map snd quotes.

(** What a loop over the texts [texts], writing the files [files], may
    add to the log: the texts queried and the files written are initial
    segments of the table, no item takes more than two calls, and only
    audio is written. *)
Definition orderly (texts : list string) (files : list (option string * string))
    (evs : list event) : Prop :=
  texts_of evs `prefix_of` texts
  ∧ (writes_of evs).*1 `prefix_of` files
  ∧ (length (requests_of evs) ≤ 2 * length texts)%nat
  ∧ writes_only_audio evs.

(** What a log holds besides the network calls, in order. *)
Definition local_events (l : list event) : list event :=
  omap (λ e, match e with Net _ _ => None | _ => Some e end) l.

(** What [update_voices.py] does for a file it writes: the write, the
    line that reports it and a pause of half a second. *)
Definition voice_block (file : option string * string * list Byte.byte) : list event :=
  let '(d, n, b) := file in
  [WriteBytes d n b; Print Stdout (MsgGeneratedName n); Sleep 500].

(** The files [update_voices.py] writes for [vs], in order. *)
Definition voice_files (vs : list UpdateVoices.voice) : list (option string * string) :=
  map (λ v, (None, UpdateVoices.filename v)) vs.

(** Stub services.  An answer fills in the view of the body its caller
    reads: the text for the version check, the JSON value for the query
    step, the bytes for the synthesis step. *)
Definition sample_query : gmap string jvalue :=
  {[ "accent_phrases" := JList [];
     "speedScale" := JFloat 10 (-1);
     "pitchScale" := JFloat 0 (-1);
     "intonationScale" := JFloat 10 (-1);
     "volumeScale" := JFloat 10 (-1);
     "outputSamplingRate" := JInt 24000;
     "kana" := JStr "" ]}.

Definition sample_wav : list Byte.byte := [Byte.x52; Byte.x49; Byte.x46; Byte.x46].

Definition version_response : response :=
  {| status := 200; content := []; text := "0.14.0"; json_body := None |}.

Definition query_response : response :=
  {| status := 200; content := []; text := "";
     json_body := Some (JObject sample_query) |}.

Definition audio_response : response :=
  {| status := 200; content := sample_wav; text := ""; json_body := None |}.

Definition error_body : list Byte.byte :=
  list_byte_of_string "Internal Server Error".

Definition error_response : response :=
  {| status := 500; content := error_body; text := "Internal Server Error";
     json_body := None |}.

Definition answer (req : request) : response :=
  match meth req, payload req with
  | GET, _ => version_response
  | POST, None => query_response
  | POST, Some _ => audio_response
  end.

(** Every call answered with success. *)
Definition svc_ok : nat → request → reply := λ _ req, Replied (answer req).

(** Call number [k] meets [out]; every other call succeeds. *)
Definition svc_except (k : nat) (out : reply) : nat → request → reply :=
  λ n req, if (n =? k)%nat then out else Replied (answer req).

(** * Properties *)

(** ** Hexadecimal fields *)

Section Hexadecimal.

Lemma hexval_digit_value c : PyStr.hexval c = digit_value c.
Proof. destruct c as [[] [] [] [] [] [] [] []]; vm_compute; reflexivity. Qed.

Lemma digit_value_range c d : digit_value c = Some d → 0 ≤ d < 16.
Proof.
  intros H.
  destruct c as [[] [] [] [] [] [] [] []]; vm_compute in H; try discriminate;
    injection H as <-; lia.
Qed.

Lemma hex_value_nonneg ds : Forall (λ d, 0 ≤ d < 16) ds → 0 ≤ hex_value ds.
Proof.
  induction 1 as [|d ds Hd _ IH]; [done|]. cbn [hex_value].
  assert (0 ≤ 16 ^ Z.of_nat (length ds)) by (apply Z.pow_nonneg; lia). nia.
Qed.

Lemma digits_range s :
  Forall (λ d, 0 ≤ d < 16) (omap digit_value (list_ascii_of_string s)).
Proof.
  induction s as [|c s IH]; [constructor|]. cbn [list_ascii_of_string omap list_omap].
  destruct (digit_value c) as [d|] eqn:Hc; [|exact IH].
  constructor; [by eapply digit_value_range|exact IH].
Qed.

Lemma spelled_nonneg s : 0 ≤ spelled s.
Proof. apply hex_value_nonneg, digits_range. Qed.

Lemma spelled_digit c d s :
  digit_value c = Some d →
  spelled (String c s)
  = d * 16 ^ Z.of_nat (length (omap digit_value (list_ascii_of_string s))) + spelled s.
Proof. intros H. unfold spelled. cbn [list_ascii_of_string omap list_omap]. by rewrite H. Qed.

Lemma spelled_other c s : digit_value c = None → spelled (String c s) = spelled s.
Proof. intros H. unfold spelled. cbn [list_ascii_of_string omap list_omap]. by rewrite H. Qed.

(** The digit loop adds the digits it reads to the number read so far. *)
Lemma digits16_spelled s acc prev_us seen n :
  PyStr.digits16 s acc prev_us seen = Some n →
  n = acc * 16 ^ Z.of_nat (length (omap digit_value (list_ascii_of_string s)))
      + spelled s.
Proof.
  revert acc prev_us seen. induction s as [|c s IH]; intros acc prev_us seen.
  - cbn. destruct prev_us, seen; intros [= <-]; unfold spelled; cbn; lia.
  - cbn [PyStr.digits16]. destruct (Ascii.eqb_spec c "_") as [->|Hc].
    + destruct prev_us; [done|]. intros H. apply IH in H.
      rewrite spelled_other by reflexivity. exact H.
    + rewrite hexval_digit_value. destruct (digit_value c) as [d|] eqn:Hd; [|done].
      intros H. apply IH in H. rewrite (spelled_digit _ _ _ Hd).
      cbn [list_ascii_of_string omap list_omap]. rewrite Hd. cbn [length].
      rewrite Nat2Z.inj_succ, Z.pow_succ_r by lia. lia.
Qed.

(** What [int(s, 16)] returns is, up to the sign, the number the digits of
    [s] spell. *)
Lemma int16_spelled s g :
  PyStr.int16 s = Ret g → g = spelled s ∨ g = - spelled s.
Proof.
  unfold PyStr.int16.
  set (signed := match s with
                 | String "+" r => (false, r)
                 | String "-" r => (true, r)
                 | _ => (false, s)
                 end).
  assert (spelled signed.2 = spelled s) as Hsign.
  { subst signed. destruct s as [|c r]; [done|].
    destruct (Ascii.eqb_spec c "+") as [->|Hp]; [by rewrite spelled_other|].
    destruct (Ascii.eqb_spec c "-") as [->|Hm]; [by rewrite spelled_other|].
    destruct c as [[] [] [] [] [] [] [] []]; try done. }
  destruct signed as [neg s1]. cbn [snd] in Hsign.
  set (s2 := match s1 with
             | String "0" (String x r) =>
                 if Ascii.eqb x "x" || Ascii.eqb x "X" then
                   match r with
                   | String "_" r' => r'
                   | _ => r
                   end
                 else s1
             | _ => s1
             end).
  assert (spelled s2 = spelled s1) as Hprefix.
  { subst s2. destruct s1 as [|c [|x r]]; try done.
    - destruct c as [[] [] [] [] [] [] [] []]; done.
    - assert (∀ t : string,
                (if Ascii.eqb c "0" then
                   if Ascii.eqb x "x" || Ascii.eqb x "X" then t
                   else String c (String x r)
                 else String c (String x r))
                = match c with
                  | "0"%char =>
                      if Ascii.eqb x "x" || Ascii.eqb x "X" then t
                      else String c (String x r)
                  | _ => String c (String x r)
                  end) as Hmatch.
      { intros t. destruct c as [[] [] [] [] [] [] [] []]; reflexivity. }
      rewrite <- Hmatch. destruct (Ascii.eqb_spec c "0") as [->|_]; [|done].
      assert (spelled (String "0" (String x r)) = spelled (String x r)) as ->.
      { rewrite (spelled_digit "0" 0) by reflexivity. lia. }
      destruct (Ascii.eqb_spec x "x") as [->|_]; cbn [orb].
      { rewrite (spelled_other "x") by reflexivity.
        destruct r as [|u r']; [done|].
        destruct (Ascii.eqb_spec u "_") as [->|Hu];
          [by rewrite spelled_other|].
        destruct u as [[] [] [] [] [] [] [] []]; done. }
      destruct (Ascii.eqb_spec x "X") as [->|_]; [|done].
      rewrite (spelled_other "X") by reflexivity.
      destruct r as [|u r']; [done|].
      destruct (Ascii.eqb_spec u "_") as [->|Hu];
        [by rewrite spelled_other|].
      destruct u as [[] [] [] [] [] [] [] []]; done. }
  clearbody s2.
  assert (∀ r : res Z,
            match PyStr.digits16 s2 0 false false with
            | Some n => Ret (if neg then - n else n)
            | None => Raise ValueError
            end = Ret g → g = spelled s ∨ g = - spelled s) as Hloop.
  { intros _. destruct (PyStr.digits16 s2 0 false false) as [n|] eqn:Hn; [|done].
    apply digits16_spelled in Hn. rewrite Hprefix, Hsign in Hn.
    intros [= <-]. destruct neg; [right|left]; lia. }
  destruct s2 as [|c r]; [exact (Hloop (Ret 0))|].
  destruct (Ascii.eqb_spec c "_") as [->|Hc]; [done|].
  intros H. apply (Hloop (Ret 0)).
  destruct c as [[] [] [] [] [] [] [] []]; try exact H. done.
Qed.

Lemma int16_nonneg_spelled s g :
  PyStr.int16 s = Ret g → 0 ≤ g → g = spelled s.
Proof.
  intros H Hg. pose proof (spelled_nonneg s).
  destruct (int16_spelled _ _ H); lia.
Qed.

Lemma digits16_total s acc seen :
  Forall (λ c, is_Some (digit_value c)) (list_ascii_of_string s) →
  s ≠ "" ∨ seen = true →
  is_Some (PyStr.digits16 s acc false seen).
Proof.
  revert acc seen. induction s as [|c s IH]; intros acc seen Hall Hseen.
  - destruct Hseen as [?| ->]; [done|]. by eexists.
  - cbn [list_ascii_of_string] in Hall. apply Forall_cons in Hall as [[d Hd] Hall].
    cbn [PyStr.digits16]. destruct (Ascii.eqb_spec c "_") as [->|_]; [done|].
    rewrite hexval_digit_value, Hd. apply IH; [done|by right].
Qed.

(** On a field of hexadecimal digits [int(s, 16)] returns the number they
    spell. *)
Lemma int16_hex_field s : hex_field s → PyStr.int16 s = Ret (spelled s).
Proof.
  intros [Hne Hall].
  destruct (digits16_total s 0 false Hall (or_introl Hne)) as [n Hn].
  pose proof (digits16_spelled _ _ _ _ _ Hn) as Hval.
  assert (n = spelled s) as -> by lia. clear Hval.
  destruct s as [|c r]; [done|].
  cbn [list_ascii_of_string] in Hall. apply Forall_cons in Hall as [[d Hd] Hall].
  destruct (Ascii.eqb_spec c "0") as [->|Hc].
  - destruct r as [|x r']; [reflexivity|].
    cbn [list_ascii_of_string] in Hall. apply Forall_cons in Hall as [[dx Hx] _].
    unfold PyStr.int16.
    destruct x as [[] [] [] [] [] [] [] []]; vm_compute in Hx; try discriminate;
      cbv beta iota delta [Ascii.eqb Bool.eqb orb andb]; by rewrite Hn.
  - unfold PyStr.int16.
    destruct c as [[] [] [] [] [] [] [] []]; vm_compute in Hd; try discriminate;
      try (by destruct Hc); cbv beta iota; by rewrite Hn.
Qed.




End Hexadecimal.

(** ** Endpoint resolver *)

Section Resolver.

Import Voicevox.

(** Evaluate the fields of the concrete routing-table line in the goal. *)
Ltac eval_fields :=
  match goal with
  | |- context [PyStr.split (PyStr.strip ?line)] =>
      let fields := eval vm_compute in (PyStr.split (PyStr.strip line)) in
      change (PyStr.split (PyStr.strip line)) with fields; cbv beta iota
  end.

Lemma eqb_dest_refl : String.eqb "00000000" "00000000" = true.
Proof. reflexivity. Qed.

Lemma scan_routes_passed_over skipped rest :
  Forall passed_over skipped →
  scan_routes (skipped ++ rest) = scan_routes rest.
Proof.
  induction 1 as [|line skipped Hline _ IH]; [done|].
  cbn [app scan_routes]. unfold passed_over in Hline.
  destruct (PyStr.split (PyStr.strip line)) as [|f0 [|destination [|gateway more]]]; try done.
  destruct (String.eqb_spec destination "00000000") as [->|_]; [done|].
  exact IH.
Qed.

Lemma scan_routes_none lines :
  Forall passed_over lines → scan_routes lines = Ret None.
Proof.
  intros H. rewrite <- (app_nil_r lines). by rewrite scan_routes_passed_over.
Qed.

Lemma to_bytes4_little_ok g :
  0 ≤ g < 2 ^ 32 →
  PyStr.to_bytes4_little g =
    Ret [g mod 256; g / 256 mod 256; g / 65536 mod 256; g / 16777216 mod 256].
Proof.
  intros Hg. unfold PyStr.to_bytes4_little.
  destruct (Z.ltb_spec g 0); [lia|].
  destruct (Z.leb_spec (2 ^ 32) g); [lia|]. cbn [orb].
  change 255 with (Z.ones 8).
  rewrite !Z.land_ones, !Z.shiftr_div_pow2 by lia.
  reflexivity.
Qed.

Lemma decode_gateway gateway g :
  PyStr.int16 gateway = Ret g → 0 ≤ g < 2 ^ 32 →
  (g ← PyStr.int16 gateway;
   b ← PyStr.to_bytes4_little g;
   ip ← PyStr.inet_ntoa b;
   Ret (Some ip)) = Ret (Some (dotted_little_endian g)).
Proof.
  intros Hint Hg. rewrite Hint. cbn [mbind res_bind].
  rewrite (to_bytes4_little_ok g Hg). reflexivity.
Qed.



Lemma truthy_some s : s ≠ "" → truthy (Some s) = true.
Proof. intros H. unfold truthy. by destruct (String.eqb_spec s ""). Qed.

Lemma truthy_true o : truthy o = true → ∃ s, o = Some s ∧ s ≠ "".
Proof.
  destruct o as [s|]; [|done]. unfold truthy.
  destruct (String.eqb_spec s ""); [done|]. by exists s.
Qed.

Lemma or_else_truthy o d s : o = Some s → s ≠ "" → or_else o d = s.
Proof. intros -> H. unfold or_else. by destruct (String.eqb_spec s ""). Qed.

Lemma or_else_falsy o d : truthy o = false → or_else o d = d.
Proof.
  destruct o as [s|]; [|done]. unfold truthy, or_else.
  by destruct (String.eqb s "").
Qed.

Lemma rstrip_by_unfold p c s :
  PyStr.rstrip_by p (String c s) =
    match PyStr.rstrip_by p s with
    | EmptyString => if p c then EmptyString else String c EmptyString
    | r => String c r
    end.
Proof. reflexivity. Qed.

Lemma append_nil_l t : "" +:+ t = t.
Proof. reflexivity. Qed.

Lemma append_cons c s t : String c s +:+ t = String c (s +:+ t).
Proof. reflexivity. Qed.

Lemma rstrip_by_suffix p s :
  ∃ t, s = PyStr.rstrip_by p s +:+ t
       ∧ Forall (λ c, p c = true) (list_ascii_of_string t).
Proof.
  induction s as [|c s (t & Hs & Ht)]; [by exists ""|].
  rewrite rstrip_by_unfold.
  destruct (PyStr.rstrip_by p s) as [|d r] eqn:E.
  - rewrite append_nil_l in Hs. subst t. destruct (p c) eqn:Hc.
    + exists (String c s). split; [done|]. by constructor.
    + exists s. by split.
  - exists t. rewrite append_cons. split; [congruence|done].
Qed.

Lemma rstrip_by_last p s c :
  last_char (PyStr.rstrip_by p s) = Some c → p c = false.
Proof.
  unfold last_char. induction s as [|a s IH]; [done|].
  rewrite rstrip_by_unfold.
  destruct (PyStr.rstrip_by p s) as [|d r] eqn:E.
  - destruct (p a) eqn:Ha; cbn; [done|]. by intros [= <-].
  - cbn [list_ascii_of_string]. rewrite last_cons.
    cbn [list_ascii_of_string] in IH.
    destruct (last (d :: list_ascii_of_string r)) eqn:L; [exact IH|].
    by rewrite last_cons in L; destruct (last (list_ascii_of_string r)).
Qed.

Lemma all_slashes t :
  Forall (λ c, Ascii.eqb "/" c = true) (list_ascii_of_string t) →
  ∃ n, t = slashes n.
Proof.
  induction t as [|c t IH]; [by exists O|].
  cbn [list_ascii_of_string]. intros H. apply Forall_cons in H as [Hc Ht].
  destruct (IH Ht) as [n ->]. apply Ascii.eqb_eq in Hc as <-. by exists (S n).
Qed.

(** C2. When the first any-route entry of the routing table (destination
    [00000000]) carries as gateway a field of hexadecimal digits, as the
    kernel prints it, and the digits spell a number of at most 32 bits,
    the gateway decoder returns the dotted address whose four octets are
    the bytes of that number from the lowest to the highest
    (little-endian); for the gateway field [0100007F] this is
    [127.0.0.1]. *)
Theorem gateway_decoded_little_endian env s header skipped line rest
    iface gateway more :
  proc_net_route env = ReadText s →
  PyStr.readlines s = header :: skipped ++ line :: rest →
  Forall passed_over skipped →
  PyStr.split (PyStr.strip line) = iface :: "00000000" :: gateway :: more →
  hex_field gateway →
  spelled gateway < 2 ^ 32 →
  _get_default_gateway_linux env
  = Ret (Some (dotted_little_endian (spelled gateway)))
  ∧ (gateway = "0100007F" →
     _get_default_gateway_linux env = Ret (Some "127.0.0.1")).
Proof.
  intros Hroute Hlines Hskip Hfields Hhex Hg.
  assert (_get_default_gateway_linux env
          = Ret (Some (dotted_little_endian (spelled gateway)))) as Hdec.
  { unfold _get_default_gateway_linux. rewrite Hroute, Hlines. cbn [tail].
    rewrite scan_routes_passed_over by done.
    cbn [scan_routes]. rewrite Hfields, eqb_dest_refl. cbn [negb].
    rewrite (decode_gateway gateway (spelled gateway)); [done| |].
    - by apply int16_hex_field.
    - pose proof (spelled_nonneg gateway). lia. }
  split; [exact Hdec|].
  intros ->. rewrite Hdec. vm_compute. reflexivity.
Qed.

Lemma gateway_decoded_little_endian_witness :
  _get_default_gateway_linux (env_with_route route_table_loopback_gateway)
  = Ret (Some "127.0.0.1").
Proof.
  refine (proj2 (gateway_decoded_little_endian
            (env_with_route route_table_loopback_gateway)
            route_table_loopback_gateway
            route_header
            [route_line ["eth0"; "000011AC"; "00000000"; "0001"; "0"; "0"; "0"; "0000FFFF"; "0"; "0"; "0"]]
            (route_line ["eth0"; "00000000"; "0100007F"; "0003"; "0"; "0"; "0"; "00000000"; "0"; "0"; "0"])
            [] "eth0" "0100007F" ["0003"; "0"; "0"; "0"; "00000000"; "0"; "0"; "0"]
            _ _ _ _ _ _) _).
  - reflexivity.
  - vm_compute. reflexivity.
  - constructor; [|constructor]. unfold passed_over. eval_fields. discriminate.
  - vm_compute. reflexivity.
  - split; [discriminate|]. apply (bool_decide_unpack _). vm_compute. exact I.
  - vm_compute. reflexivity.
  - reflexivity.
Defined.

Lemma default_host_no_override env :
  truthy (environ env !! "VOICEVOX_HOST") = false →
  gethostbyname env "host.docker.internal" = None →
  _default_voicevox_host env =
    (gw ← _get_default_gateway_linux env;
     if truthy gw then Ret (default "" gw) else Ret "127.0.0.1").
Proof.
  intros Hhost Hdns. unfold _default_voicevox_host, _resolve_host_or_none.
  by rewrite Hhost, Hdns.
Qed.

Lemma gateway_none env :
  no_default_route env → _get_default_gateway_linux env = Ret None.
Proof.
  unfold no_default_route, _get_default_gateway_linux.
  destruct (proc_net_route env); [done|done|].
  intros H. by rewrite scan_routes_none.
Qed.


(** C3.  The claim fails on the code.  With no host override and an
    alias that does not resolve, a routing table that is not UTF-8 text
    makes [_get_default_gateway_linux] raise [UnicodeDecodeError]; its
    [except OSError] does not catch it, and the host resolver raises
    instead of returning [127.0.0.1]. *)
Theorem resolver_raises_on_undecodable_table :
  truthy (environ env_undecodable_table !! "VOICEVOX_HOST") = false
  ∧ gethostbyname env_undecodable_table "host.docker.internal" = None
  ∧ _get_default_gateway_linux env_undecodable_table = Raise UnicodeDecodeError
  ∧ _default_voicevox_host env_undecodable_table = Raise UnicodeDecodeError
  ∧ ¬ (∀ env, ∃ a, _default_voicevox_host env = Ret a).
Proof.
  assert (_default_voicevox_host env_undecodable_table = Raise UnicodeDecodeError)
    as H by reflexivity.
  repeat (split; [reflexivity|]).
  intros Hall. destruct (Hall env_undecodable_table) as [a Ha].
  rewrite H in Ha. discriminate.
Qed.

(** C4, amended. In [generate_voicevox_voices.py] a non-empty
    [VOICEVOX_HOST] is returned verbatim by the host resolver whatever
    name resolution and the routing table say; without it the alias is
    used when it resolves, whatever the routing table says; with neither,
    the gateway the decoder returns is used if it returns one, else
    [127.0.0.1]; and whenever the host resolver returns a host [h], the
    URL of the run is [--url] verbatim if given, else a non-empty
    [VOICEVOX_URL] verbatim, else [http://h:p] with [p] the non-empty
    [VOICEVOX_PORT] or [50021].  In
    [generate_quote_voices.py] the URL of the run is [--url], else a
    non-empty [VOICEVOX_URL], else [http://localhost:50021], with its
    trailing slashes removed and nothing else changed. *)
Theorem endpoint_precedence env cli :
  (∀ h, environ env !! "VOICEVOX_HOST" = Some h → h ≠ "" →
        _default_voicevox_host env = Ret h)
  ∧ (truthy (environ env !! "VOICEVOX_HOST") = false →
     is_Some (gethostbyname env "host.docker.internal") →
     _default_voicevox_host env = Ret "host.docker.internal")
  ∧ (truthy (environ env !! "VOICEVOX_HOST") = false →
     gethostbyname env "host.docker.internal" = None →
     ∀ gw, _get_default_gateway_linux env = Ret gw →
           _default_voicevox_host env
           = Ret (if truthy gw then default "" gw else "127.0.0.1"))
  ∧ (∀ h, _default_voicevox_host env = Ret h →
       (∀ u, arg_url cli = Some u → Voicevox.resolve_url env cli = Ret u)
       ∧ (∀ u, arg_url cli = None →
               environ env !! "VOICEVOX_URL" = Some u → u ≠ "" →
               Voicevox.resolve_url env cli = Ret u)
       ∧ (arg_url cli = None →
          truthy (environ env !! "VOICEVOX_URL") = false →
          (∀ p, environ env !! "VOICEVOX_PORT" = Some p → p ≠ "" →
                Voicevox.resolve_url env cli = Ret ("http://" +:+ h +:+ ":" +:+ p))
          ∧ (truthy (environ env !! "VOICEVOX_PORT") = false →
             Voicevox.resolve_url env cli = Ret ("http://" +:+ h +:+ ":50021"))))
  ∧ (∃ n, Quotes.args_url env cli = Quotes.resolve_url env cli +:+ slashes n)
  ∧ last_char (Quotes.resolve_url env cli) ≠ Some "/"%char
  ∧ (∀ u, arg_url cli = Some u → Quotes.args_url env cli = u)
  ∧ (∀ u, arg_url cli = None →
          environ env !! "VOICEVOX_URL" = Some u → u ≠ "" →
          Quotes.args_url env cli = u)
  ∧ (arg_url cli = None →
     truthy (environ env !! "VOICEVOX_URL") = false →
     Quotes.args_url env cli = "http://localhost:50021").
Proof.
  split; [|split; [|split; [|split; [|split; [|split; [|split; [|split]]]]]]].
  - intros h Hh Hne. unfold _default_voicevox_host.
    by rewrite Hh, (truthy_some h Hne).
  - intros Hhost [ip Hdns]. unfold _default_voicevox_host, _resolve_host_or_none.
    by rewrite Hhost, Hdns.
  - intros Hhost Hdns gw Hgw. rewrite default_host_no_override, Hgw by done.
    cbn [mbind res_bind]. by destruct (truthy gw).
  - intros h Hh. unfold Voicevox.resolve_url, DEFAULT_VOICEVOX_URL.
    rewrite Hh. cbn [mbind res_bind]. split; [|split].
    + intros u Harg. by rewrite Harg.
    + intros u Harg Hu Hne. rewrite Harg. cbn [default].
      by rewrite (or_else_truthy _ _ u Hu Hne).
    + intros Harg Hurl. rewrite Harg. cbn [default]. rewrite (or_else_falsy _ _ Hurl).
      unfold DEFAULT_VOICEVOX_PORT. split.
      * intros p Hp Hne. by rewrite (or_else_truthy _ _ p Hp Hne).
      * intros Hport. by rewrite (or_else_falsy _ _ Hport).
  - unfold Quotes.resolve_url, PyStr.rstrip_char.
    destruct (rstrip_by_suffix (Ascii.eqb "/") (Quotes.args_url env cli))
      as (t & Ht & Hall).
    destruct (all_slashes t Hall) as [n ->]. by exists n.
  - intros Hlast. apply rstrip_by_last in Hlast. discriminate.
  - intros u Harg. unfold Quotes.args_url. by rewrite Harg.
  - intros u Harg Hu Hne. unfold Quotes.args_url, Quotes.VOICEVOX_URL_DEFAULT.
    rewrite Harg. cbn [default]. by apply or_else_truthy.
  - intros Harg Hurl. unfold Quotes.args_url, Quotes.VOICEVOX_URL_DEFAULT.
    rewrite Harg. cbn [default]. by apply or_else_falsy.
Qed.

Lemma endpoint_precedence_witness :
  _default_voicevox_host env_host_override = Ret "192.168.0.7"
  ∧ Voicevox.resolve_url env_host_override {| arg_url := None; arg_out := None |}
    = Ret "http://192.168.0.7:50121"
  ∧ Voicevox.resolve_url env_host_override
      {| arg_url := Some "http://10.0.0.2:50021/"; arg_out := None |}
    = Ret "http://10.0.0.2:50021/".
Proof.
  pose proof (endpoint_precedence env_host_override
                {| arg_url := None; arg_out := None |}) as (H1 & _ & _ & H3 & _).
  pose proof (endpoint_precedence env_host_override
                {| arg_url := Some "http://10.0.0.2:50021/"; arg_out := None |})
    as (_ & _ & _ & H3' & _).
  assert (_default_voicevox_host env_host_override = Ret "192.168.0.7") as Hh.
  { apply H1; [reflexivity|discriminate]. }
  split; [exact Hh|split].
  - destruct (H3 _ Hh) as (_ & _ & Hp).
    destruct (Hp eq_refl eq_refl) as [Hp1 _].
    apply (Hp1 "50121"); [reflexivity|discriminate].
  - destruct (H3' _ Hh) as (Hcli & _). by apply Hcli.
Defined.

(** C4, as stated, fails: [generate_quote_voices.py] does not use an
    override verbatim, it removes the trailing slashes of [--url] and of
    [VOICEVOX_URL]. *)
Lemma quotes_override_not_verbatim :
  Quotes.resolve_url env_bare
    {| arg_url := Some "http://10.0.0.2:50021/"; arg_out := None |}
  = "http://10.0.0.2:50021"
  ∧ Quotes.resolve_url
      {| environ := {[ "VOICEVOX_URL" := "http://10.0.0.2:50021/" ]};
         gethostbyname := λ _, None; proc_net_route := ReadOSError |}
      {| arg_url := None; arg_out := None |}
    ≠ "http://10.0.0.2:50021/".
Proof. split; [vm_compute; reflexivity|vm_compute; discriminate]. Qed.

End Resolver.

(** ** Running a script *)

Section Runs.

Context {A B : Type}.

Lemma bind_run (m : M A) (k : A → M B) w :
  (m ≫= k) w =
    match m w with
    | (Ret a, w') => k a w'
    | (Raise e, w') => (Raise e, w')
    end.
Proof. reflexivity. Qed.

Lemma bind_run_ret (m : M A) (k : A → M B) w a w' :
  m w = (Ret a, w') → (m ≫= k) w = k a w'.
Proof. intros H. by rewrite bind_run, H. Qed.

Lemma bind_run_raise (m : M A) (k : A → M B) w e w' :
  m w = (Raise e, w') → (m ≫= k) w = (Raise e, w').
Proof. intros H. by rewrite bind_run, H. Qed.

Lemma try_run (m : M A) (h : exn → option (M A)) w :
  try_except m h w =
    match m w with
    | (Ret a, w') => (Ret a, w')
    | (Raise e, w') =>
        match h e with
        | Some k => k w'
        | None => (Raise e, w')
        end
    end.
Proof. reflexivity. Qed.

End Runs.

Lemma run_ends {A} (run : res A * world) r : run.1 = r → run = (r, run.2).
Proof. destruct run. cbn. by intros ->. Qed.

Section Emits.

Context {A : Type}.
Implicit Types P : event → Prop.

Lemma emits_mono P Q (m : M A) :
  (∀ e, P e → Q e) → emits P m → emits Q m.
Proof.
  intros HPQ Hm w r w' Hrun. destruct (Hm w r w' Hrun) as (evs & Hlog & Hevs).
  exists evs. split; [done|]. by eapply Forall_impl.
Qed.

Lemma emits_ret P (a : A) : emits P (mret a).
Proof. intros w r w' [= <- <-]. exists []. by rewrite app_nil_r. Qed.

Lemma emits_raise P e : emits P (raise e : M A).
Proof. intros w r w' [= <- <-]. exists []. by rewrite app_nil_r. Qed.

Lemma emits_lift P (x : res A) : emits P (lift x).
Proof. intros w r w' [= <- <-]. exists []. by rewrite app_nil_r. Qed.

Lemma emits_bind {B} P (m : M B) (k : B → M A) :
  emits P m → (∀ b, emits P (k b)) → emits P (m ≫= k).
Proof.
  intros Hm Hk w r w' Hrun. rewrite bind_run in Hrun.
  destruct (m w) as [[b|e] w1] eqn:E.
  - destruct (Hm _ _ _ E) as (evs1 & Hlog1 & Hevs1).
    destruct (Hk b _ _ _ Hrun) as (evs2 & Hlog2 & Hevs2).
    exists (evs1 ++ evs2). split.
    + by rewrite Hlog2, Hlog1, app_assoc.
    + by apply Forall_app.
  - injection Hrun as <- <-. by apply Hm in E.
Qed.

Lemma emits_try P (m : M A) h :
  emits P m → (∀ e k, h e = Some k → emits P k) → emits P (try_except m h).
Proof.
  intros Hm Hh w r w' Hrun. rewrite try_run in Hrun.
  destruct (m w) as [[a|e] w1] eqn:E.
  - injection Hrun as <- <-. by apply Hm in E.
  - destruct (Hm _ _ _ E) as (evs1 & Hlog1 & Hevs1).
    destruct (h e) as [k|] eqn:Hk.
    + destruct (Hh e k Hk _ _ _ Hrun) as (evs2 & Hlog2 & Hevs2).
      exists (evs1 ++ evs2). split.
      * by rewrite Hlog2, Hlog1, app_assoc.
      * by apply Forall_app.
    + injection Hrun as <- <-. by exists evs1.
Qed.

End Emits.

Lemma emits_emit P e : P e → emits P (emit e).
Proof. intros He w r w' [= <- <-]. exists [e]. split; [done|]. by constructor. Qed.

Lemma emits_print P st m : P (Print st m) → emits P (print st m).
Proof. apply emits_emit. Qed.

Lemma emits_http svc P req : (∀ out, P (Net req out)) → emits P (http svc req).
Proof.
  intros He w r w' [= <- <-]. eexists [_]. split; [done|]. by constructor.
Qed.

Lemma emits_raise_for_status P r : emits P (raise_for_status r).
Proof.
  unfold raise_for_status. destruct (_ && _); [apply emits_raise|apply emits_ret].
Qed.

Lemma emits_json_of P r : emits P (json_of r).
Proof.
  unfold json_of. destruct (json_body r); [apply emits_ret|apply emits_raise].
Qed.

Lemma emits_from_start {A} P (m : M A) :
  emits P m → Forall P (log (m world0).2).
Proof.
  intros Hm. destruct (m world0) as [r w] eqn:E.
  destruct (Hm _ _ _ E) as (evs & Hlog & Hevs). cbn in *. by rewrite Hlog.
Qed.

Lemma requests_of_app l1 l2 :
  requests_of (l1 ++ l2) = requests_of l1 ++ requests_of l2.
Proof. apply omap_app. Qed.

Lemma writes_of_app l1 l2 : writes_of (l1 ++ l2) = writes_of l1 ++ writes_of l2.
Proof. apply omap_app. Qed.

Lemma manifests_of_app l1 l2 :
  manifests_of (l1 ++ l2) = manifests_of l1 ++ manifests_of l2.
Proof. apply omap_app. Qed.

Lemma requests_of_on_net P l : Forall (on_net P) l → Forall P (requests_of l).
Proof.
  induction 1 as [|e l He _ IH]; [constructor|].
  destruct e; cbn in *; try done. by constructor.
Qed.

Lemma writes_of_is_net l : Forall is_net l → writes_of l = [].
Proof. induction 1 as [|e l He _ IH]; [done|]. by destruct e. Qed.

Lemma manifests_of_none l : Forall not_manifest l → manifests_of l = [].
Proof. induction 1 as [|e l He _ IH]; [done|]. by destruct e. Qed.

Lemma calls_only_before_manifest P e : calls_only P e → before_manifest P e.
Proof. by destruct e. Qed.

Lemma before_manifest_on_net P e : before_manifest P e → on_net P e.
Proof. by destruct e. Qed.

Lemma before_manifest_not_manifest P e : before_manifest P e → not_manifest e.
Proof. by destruct e. Qed.

Lemma calls_only_is_net P e : calls_only P e → is_net e.
Proof. by destruct e. Qed.

(** One step of a proof that an action only emits events of a kind. *)
Ltac emits_handler :=
  let e := fresh "e" in
  let k := fresh "k" in
  let Hk := fresh "Hk" in
  intros e k Hk; destruct e; cbn in Hk; try discriminate Hk; injection Hk as <-.

Ltac emits_step :=
  first
    [ apply emits_ret | apply emits_raise | apply emits_lift
    | apply emits_raise_for_status | apply emits_json_of
    | apply emits_print | apply emits_emit
    | apply emits_http; intros ?
    | apply emits_bind; [|intros ?]
    | apply emits_try; [|emits_handler] ].
(** ** The events of each script *)

Section VoicevoxEvents.

Import Voicevox.
Variable svc : nat → request → reply.
Variables url out_dir : string.

Lemma fetch_calls text : emits (calls_only (voicevox_call url)) (fetch svc url text).
Proof.
  unfold fetch, audio_query, synthesis.
  repeat emits_step; cbn; unfold voicevox_call; eauto.
Qed.

Lemma generate_one_events item :
  emits (before_manifest (voicevox_call url)) (generate_one svc url out_dir item).
Proof.
  destruct item as [filename text]. unfold generate_one, sys_exit.
  emits_step.
  - emits_step; [|repeat emits_step; done..].
    eapply emits_mono; [apply calls_only_before_manifest|apply fetch_calls].
  - repeat emits_step; done.
Qed.

Lemma generate_all_events lines n :
  emits (before_manifest (voicevox_call url)) (generate_all svc url out_dir lines n).
Proof.
  revert n. induction lines as [|item rest IH]; intros n; cbn [generate_all].
  - emits_step.
  - emits_step; [apply generate_one_events|apply IH].
Qed.

Lemma startup_events :
  emits (before_manifest (voicevox_call url)) (startup svc url out_dir).
Proof.
  unfold startup, check_voicevox, sys_exit. repeat emits_step; try done.
  cbn. unfold voicevox_call. eauto.
Qed.

Lemma main_events lines :
  emits (before_manifest (voicevox_call url)) (main_with svc lines url out_dir).
Proof.
  unfold main_with. emits_step; [apply startup_events|].
  emits_step; [apply generate_all_events|]. by emits_step.
Qed.

End VoicevoxEvents.

Section QuotesEvents.

Import Quotes.
Variable svc : nat → request → reply.
Variable voice_params : gmap string (gmap string jvalue).
Variables url out_dir : string.

Lemma quotes_fetch_calls category line :
  emits (calls_only (quotes_call url)) (fetch svc voice_params url category line).
Proof.
  unfold fetch, audio_query, synthesis. repeat emits_step; cbn; unfold quotes_call; eauto.
Qed.

Lemma generate_line_events category i line manifest :
  emits (before_manifest (quotes_call url))
    (generate_line svc voice_params url out_dir category i line manifest).
Proof.
  unfold generate_line. emits_step; [|repeat emits_step; done..].
  emits_step; [|repeat emits_step; done].
  eapply emits_mono; [apply calls_only_before_manifest|apply quotes_fetch_calls].
Qed.

Lemma generate_lines_events category lines i manifest :
  emits (before_manifest (quotes_call url))
    (generate_lines svc voice_params url out_dir category lines i manifest).
Proof.
  revert i manifest. induction lines as [|line rest IH]; intros i manifest;
    cbn [generate_lines].
  - emits_step.
  - emits_step; [apply generate_line_events|apply IH].
Qed.

Lemma generate_categories_events quotes manifest :
  emits (before_manifest (quotes_call url))
    (generate_categories svc voice_params url out_dir quotes manifest).
Proof.
  revert manifest. induction quotes as [|[category lines] rest IH]; intros manifest;
    cbn [generate_categories].
  - emits_step.
  - emits_step; [apply generate_lines_events|apply IH].
Qed.

Lemma quotes_startup_events :
  emits (before_manifest (quotes_call url)) (startup svc url out_dir).
Proof.
  unfold startup, version_check. repeat emits_step; try done.
  cbn. unfold quotes_call. eauto.
Qed.

Lemma quotes_batch_events quotes :
  emits (on_net (quotes_call url)) (batch svc quotes voice_params url out_dir).
Proof.
  unfold batch. emits_step; [|repeat emits_step; done].
  eapply emits_mono; [apply before_manifest_on_net|apply generate_categories_events].
Qed.

End QuotesEvents.

Lemma quotes_main_events svc quotes voice_params arg_url out_dir :
  emits (on_net (quotes_call (PyStr.rstrip_char "/" arg_url)))
    (Quotes.main_with svc quotes voice_params arg_url out_dir).
Proof.
  unfold Quotes.main_with. emits_step; [|apply quotes_batch_events].
  eapply emits_mono; [apply before_manifest_on_net|apply quotes_startup_events].
Qed.

Lemma voicevox_call_budget url req :
  voicevox_call url req → within_budget url "/speakers" req.
Proof.
  unfold within_budget. intros [->|[[text ->]|[q ->]]]; cbn; eauto.
Qed.

Lemma quotes_call_budget url req :
  quotes_call url req → within_budget url "/version" req.
Proof.
  unfold within_budget. intros [->|[[text ->]|[q ->]]]; cbn; eauto.
Qed.

(** ** Timeouts *)

(** C9, amended. Every HTTP call of [generate_voicevox_voices.py] and of
    [generate_quote_voices.py] passes an explicit timeout: 10 seconds for
    the health check ([/speakers], [/version]), 30 for the query step and
    60 for the synthesis step; this holds for [main] over any table and
    for the whole script in any environment.  The only other network call
    of the two scripts is the name lookup of [host.docker.internal] that
    [generate_voicevox_voices.py] makes while it loads: the host resolver
    asks name resolution about no other host. *)
Theorem calls_carry_timeouts svc :
  (∀ lines url out_dir,
     Forall (within_budget url "/speakers")
       (requests_of (log (Voicevox.main_with svc lines url out_dir world0).2)))
  ∧ (∀ quotes voice_params arg_url out_dir,
       Forall (within_budget (PyStr.rstrip_char "/" arg_url) "/version")
         (requests_of
            (log (Quotes.main_with svc quotes voice_params arg_url out_dir world0).2)))
  ∧ (∀ env cli,
       ∃ url, Forall (accounted url "/speakers") (voicevox_network_calls svc env cli))
  ∧ (∀ env cli,
       Forall (within_budget (Quotes.resolve_url env cli) "/version")
         (requests_of (log (Quotes.script svc env cli world0).2)))
  ∧ (∀ env env',
       environ env' = environ env →
       proc_net_route env' = proc_net_route env →
       (∀ host, host ∈ Voicevox.lookups env →
                gethostbyname env' host = gethostbyname env host) →
       Voicevox._default_voicevox_host env' = Voicevox._default_voicevox_host env).
Proof.
  assert (∀ lines url out_dir,
     Forall (within_budget url "/speakers")
       (requests_of (log (Voicevox.main_with svc lines url out_dir world0).2))) as Hv.
  { intros lines url out_dir. apply requests_of_on_net, emits_from_start.
    eapply emits_mono; [|apply main_events].
    intros e He. apply before_manifest_on_net in He.
    destruct e; try done. by apply voicevox_call_budget. }
  assert (∀ quotes voice_params arg_url out_dir,
       Forall (within_budget (PyStr.rstrip_char "/" arg_url) "/version")
         (requests_of
            (log (Quotes.main_with svc quotes voice_params arg_url out_dir world0).2)))
    as Hq.
  { intros quotes voice_params arg_url out_dir.
    apply requests_of_on_net, emits_from_start.
    eapply emits_mono; [|apply quotes_main_events].
    intros e He. destruct e; try done. by apply quotes_call_budget. }
  split; [exact Hv|]. split; [exact Hq|]. split.
  - intros env cli. unfold voicevox_network_calls, Voicevox.script.
    assert (∀ url, Forall (accounted url "/speakers")
                     (map NameLookup (Voicevox.lookups env))) as Hlook.
    { intros url. unfold Voicevox.lookups.
      destruct (truthy _); [constructor|]. by repeat constructor. }
    rewrite bind_run. unfold lift.
    destruct (Voicevox.resolve_url env cli) as [url|e].
    + exists url. apply Forall_app. split; [apply Hlook|].
      apply Forall_fmap. eapply Forall_impl; [apply Hv|]. done.
    + exists "". cbn. rewrite app_nil_r. apply Hlook.
  - split; [intros env cli; apply Hq|].
    intros env env' Henv Hroute Hdns.
    unfold Voicevox._default_voicevox_host, Voicevox._resolve_host_or_none,
      Voicevox._get_default_gateway_linux, Voicevox.lookups in *.
    rewrite Henv, Hroute.
    destruct (truthy (environ env !! "VOICEVOX_HOST")); [done|].
    rewrite (Hdns "host.docker.internal"); [done|]. apply list_elem_of_here.
Qed.

Lemma calls_carry_timeouts_witness :
  Voicevox._default_voicevox_host
    {| environ := ∅;
       gethostbyname := λ host, if String.eqb host "localhost" then Some "127.0.0.1"
                                else None;
       proc_net_route := ReadOSError |}
  = Voicevox._default_voicevox_host env_bare.
Proof.
  apply (proj2 (proj2 (proj2 (proj2 (calls_carry_timeouts svc_ok))))).
  - reflexivity.
  - reflexivity.
  - intros host Hhost. apply list_elem_of_singleton in Hhost as ->. reflexivity.
Defined.

(** C9, as stated, fails: the calls of [update_voices.py] pass no
    timeout, and the name lookup that [generate_voicevox_voices.py] makes
    while it loads has none. *)
Lemma update_voices_calls_have_no_timeout :
  map timeout (requests_of (log (UpdateVoices.script svc_ok world0).2))
  = [None; None; None; None; None; None; None; None]
  ∧ head (voicevox_network_calls svc_ok env_bare {| arg_url := None; arg_out := None |})
    = Some (NameLookup "host.docker.internal")
  ∧ timeout_of (NameLookup "host.docker.internal") = None.
Proof. split; [vm_compute; reflexivity|]. split; reflexivity. Qed.

(** ** Synthesis client *)

Section Client.

Variable svc : nat → request → reply.

Lemma error_status_true s : error_status s → (400 <=? s) && (s <? 600) = true.
Proof. unfold error_status. intros H. apply andb_true_iff. lia. Qed.

Lemma error_status_false s : ¬ error_status s → (400 <=? s) && (s <? 600) = false.
Proof.
  unfold error_status. intros H. apply andb_false_iff.
  destruct (Z.leb_spec 400 s); [right|by left]. apply Z.ltb_ge. lia.
Qed.

(** A call followed by [raise_for_status]. *)
Lemma checked_run {A} req (k : response → M A) w :
  (r ← http svc req; raise_for_status r;; k r) w =
    match svc (calls w) req with
    | Failed f => (Raise (exn_of_failure f), after_call svc req w)
    | Replied r =>
        if (400 <=? status r) && (status r <? 600)
        then (Raise (HTTPError (status r)), after_call svc req w)
        else k r (after_call svc req w)
    end.
Proof.
  rewrite bind_run. unfold http, after_call. cbn zeta.
  destruct (svc (calls w) req) as [f|r]; [done|].
  rewrite bind_run. unfold raise_for_status.
  by destruct ((400 <=? status r) && (status r <? 600)).
Qed.

Lemma checked_fails_loudly {A} req (k : response → M A) w :
  fails_loudly (svc (calls w) req)
    ((r ← http svc req; raise_for_status r;; k r) w).1.
Proof.
  rewrite checked_run. unfold fails_loudly.
  destruct (svc (calls w) req) as [f|r]; [by destruct f|].
  split; [done|]. intros resp [= <-] Hs. by rewrite (error_status_true _ Hs).
Qed.

Lemma checked_audio_from req w :
  audio_from (svc (calls w) req)
    ((r ← http svc req; raise_for_status r;; mret (content r)) w).1.
Proof.
  rewrite checked_run. unfold audio_from.
  destruct (svc (calls w) req) as [f|r]; [done|].
  destruct ((400 <=? status r) && (status r <? 600)) eqn:E; [done|].
  intros bytes [= <-]. exists r. split; [done|]. split; [|done].
  intros Hs. apply error_status_true in Hs. congruence.
Qed.

Lemma update_voices_first_call v w f :
  svc (calls w) (UpdateVoices.audio_query_request v) = Failed f →
  UpdateVoices.generate_wav svc v w
  = (Raise (exn_of_failure f), after_call svc (UpdateVoices.audio_query_request v) w).
Proof.
  intros H. unfold UpdateVoices.generate_wav. rewrite bind_run.
  unfold http, after_call. cbn zeta. by rewrite H.
Qed.

Lemma update_voices_second_call v w r q sent f :
  svc (calls w) (UpdateVoices.audio_query_request v) = Replied r →
  json_body r = Some q →
  UpdateVoices.tune v q = Ret sent →
  svc (S (calls w)) (UpdateVoices.synthesis_request v sent) = Failed f →
  UpdateVoices.generate_wav svc v w
  = (Raise (exn_of_failure f),
     after_call svc (UpdateVoices.synthesis_request v sent)
       (after_call svc (UpdateVoices.audio_query_request v) w)).
Proof.
  intros Hr Hq Hsent Hf. unfold UpdateVoices.generate_wav. rewrite bind_run.
  unfold http at 1. cbn zeta. rewrite Hr.
  rewrite bind_run. unfold json_of. rewrite Hq. cbn [mret M_ret].
  rewrite bind_run. unfold lift. rewrite Hsent.
  rewrite bind_run. unfold http, after_call. cbn zeta. cbn [calls log].
  by rewrite Hf, Hr.
Qed.

(** C7, amended. In [generate_voicevox_voices.py] and
    [generate_quote_voices.py] the query step and the synthesis step raise
    the transport error of a call that fails, [ConnectionError] on a
    connection failure and [Timeout] on a timeout, and raise [HTTPError]
    whenever the response carries an error status (400 to 599); the bytes
    the synthesis step returns are the body of a response without error
    status.  In [update_voices.py] the query call and the synthesis call
    raise a transport error the same way, each before anything is
    written. *)
Theorem client_steps_fail_loudly url w :
  (∀ text,
     fails_loudly (svc (calls w) (Voicevox.audio_query_request url text))
       (Voicevox.audio_query svc url text w).1)
  ∧ (∀ q,
       fails_loudly (svc (calls w) (Voicevox.synthesis_request url q))
         (Voicevox.synthesis svc url q w).1
       ∧ audio_from (svc (calls w) (Voicevox.synthesis_request url q))
           (Voicevox.synthesis svc url q w).1)
  ∧ (∀ text,
       fails_loudly (svc (calls w) (Quotes.audio_query_request url text))
         (Quotes.audio_query svc url text w).1)
  ∧ (∀ q,
       fails_loudly (svc (calls w) (Quotes.synthesis_request url q))
         (Quotes.synthesis svc url q w).1
       ∧ audio_from (svc (calls w) (Quotes.synthesis_request url q))
           (Quotes.synthesis svc url q w).1)
  ∧ (∀ v,
       let out := svc (calls w) (UpdateVoices.audio_query_request v) in
       let run := UpdateVoices.generate_wav svc v w in
       fails_on_transport out run.1
       ∧ (∀ f, out = Failed f → writes_of (log run.2) = writes_of (log w)))
  ∧ (∀ v r q sent,
       svc (calls w) (UpdateVoices.audio_query_request v) = Replied r →
       json_body r = Some q →
       UpdateVoices.tune v q = Ret sent →
       let out := svc (S (calls w)) (UpdateVoices.synthesis_request v sent) in
       let run := UpdateVoices.generate_wav svc v w in
       fails_on_transport out run.1
       ∧ (∀ f, out = Failed f → writes_of (log run.2) = writes_of (log w))).
Proof.
  split; [|split; [|split; [|split; [|split]]]].
  - intros text. unfold Voicevox.audio_query. apply checked_fails_loudly.
  - intros q. unfold Voicevox.synthesis.
    split; [apply checked_fails_loudly|apply checked_audio_from].
  - intros text. unfold Quotes.audio_query. apply checked_fails_loudly.
  - intros q. unfold Quotes.synthesis.
    split; [apply checked_fails_loudly|apply checked_audio_from].
  - intros v. cbn zeta.
    destruct (svc (calls w) (UpdateVoices.audio_query_request v)) as [f|r] eqn:H;
      [|by split].
    rewrite (update_voices_first_call _ _ _ H).
    split; [by destruct f|]. intros _ _. unfold after_call. cbn [snd log].
    rewrite writes_of_app. cbn. by rewrite app_nil_r.
  - intros v r q sent Hr Hq Hsent. cbn zeta.
    destruct (svc (S (calls w)) (UpdateVoices.synthesis_request v sent))
      as [f|r2] eqn:H; [|by split].
    rewrite (update_voices_second_call _ _ _ _ _ _ Hr Hq Hsent H).
    split; [by destruct f|]. intros _ _. unfold after_call. cbn [snd log].
    rewrite !writes_of_app. cbn. by rewrite !app_nil_r.
Qed.

End Client.

Lemma client_steps_fail_loudly_witness :
  (Voicevox.synthesis (svc_except 0 (Replied error_response))
     "http://127.0.0.1:50021" (JObject sample_query) world0).1
  = Raise (HTTPError 500)
  ∧ (Quotes.audio_query (svc_except 0 (Failed TimedOut))
       "http://127.0.0.1:50021" "a" world0).1
    = Raise Timeout
  ∧ ∃ v, head UpdateVoices.voices = Some v
      ∧ (UpdateVoices.generate_wav (svc_except 1 (Failed ConnectionFailed)) v world0).1
        = Raise ConnectionError
      ∧ writes_of
          (log (UpdateVoices.generate_wav (svc_except 1 (Failed ConnectionFailed))
                  v world0).2)
        = [].
Proof.
  pose proof (client_steps_fail_loudly (svc_except 0 (Replied error_response))
                "http://127.0.0.1:50021" world0) as (_ & H2 & _).
  pose proof (client_steps_fail_loudly (svc_except 0 (Failed TimedOut))
                "http://127.0.0.1:50021" world0) as (_ & _ & H3 & _).
  pose proof (client_steps_fail_loudly (svc_except 1 (Failed ConnectionFailed))
                "http://127.0.0.1:50021" world0) as (_ & _ & _ & _ & _ & H6).
  split; [|split].
  - destruct (H2 (JObject sample_query)) as [[_ Hloud] _].
    apply (Hloud error_response); [reflexivity|]. unfold error_status. cbn. lia.
  - exact (proj1 (H3 "a")).
  - eexists. split; [reflexivity|].
    match goal with
    | |- (UpdateVoices.generate_wav _ ?v _).1 = _ ∧ _ =>
        destruct (H6 v query_response (JObject sample_query) _
                    eq_refl eq_refl eq_refl) as [Hraise Hwrites]
    end.
    split; [exact Hraise|]. exact (Hwrites ConnectionFailed eq_refl).
Defined.

(** C7, as stated, fails: [update_voices.py] checks no status; when the
    synthesis call is answered with status 500, [generate_wav] returns
    normally and the body of that response is written as the audio file. *)
Lemma update_voices_writes_error_body :
  ∃ v, head UpdateVoices.voices = Some v
    ∧ (UpdateVoices.generate_wav (svc_except 1 (Replied error_response)) v world0).1
      = Ret tt
    ∧ writes_of
        (log (UpdateVoices.generate_wav (svc_except 1 (Replied error_response)) v world0).2)
      = [(None, "SAFE_TILE_1.wav", error_body)].
Proof. eexists. split; [reflexivity|]. split; vm_compute; reflexivity. Qed.

(** ** Tuning *)

Section Tuning.

Variable svc : nat → request → reply.

Lemma requests_of_quiet l : Forall quiet l → requests_of l = [].
Proof. induction 1 as [|e l He _ IH]; [done|]. by destruct e. Qed.

Lemma quiet_run {A} (m : M A) w :
  emits quiet m → requests_of (log (m w).2) = requests_of (log w).
Proof.
  intros Hm. destruct (m w) as [r w'] eqn:E.
  destruct (Hm _ _ _ E) as (evs & Hlog & Hevs). cbn [snd].
  by rewrite Hlog, requests_of_app, (requests_of_quiet _ Hevs), app_nil_r.
Qed.

(** What follows the calls inside a [try] adds no call. *)
Lemma try_bind_quiet {A B} (m : M A) (k : A → M B) h w :
  (∀ a, emits quiet (k a)) →
  (∀ e c, h e = Some c → emits quiet c) →
  requests_of (log (try_except (m ≫= k) h w).2) = requests_of (log (m w).2).
Proof.
  intros Hk Hh. rewrite try_run, bind_run.
  destruct (m w) as [[a|e] w1]; cbn [snd].
  - destruct (k a w1) as [[b|e] w2] eqn:E.
    + cbn [snd]. change w2 with (Ret b, w2).2. rewrite <- E. by apply quiet_run.
    + destruct (Hk a _ _ _ E) as (evs & Hlog & Hevs).
      assert (requests_of (log w2) = requests_of (log w1)) as <-.
      { by rewrite Hlog, requests_of_app, (requests_of_quiet _ Hevs), app_nil_r. }
      destruct (h e) as [c|] eqn:Hc; [|done]. by apply quiet_run, (Hh e).
  - destruct (h e) as [c|] eqn:Hc; [|done]. by apply quiet_run, (Hh e).
Qed.

Lemma http_run req w :
  http svc req w =
    (match svc (calls w) req with
     | Failed f => Raise (exn_of_failure f)
     | Replied r => Ret r
     end, after_call svc req w).
Proof. reflexivity. Qed.

Lemma requests_after_call req w :
  requests_of (log (after_call svc req w)) = requests_of (log w) ++ [req].
Proof. unfold after_call. cbn [log]. by rewrite requests_of_app. Qed.

Lemma union_overridden (tuning fields : gmap string jvalue) :
  overridden tuning fields (tuning ∪ fields).
Proof.
  unfold overridden. intros k. rewrite lookup_union.
  destruct (tuning !! k), (fields !! k); done.
Qed.

Lemma apply_tuning_overridden tuning fields :
  ∃ sent, Quotes.apply_tuning tuning (JObject fields) = Ret (JObject sent)
          ∧ overridden (default ∅ tuning) fields sent.
Proof.
  unfold Quotes.apply_tuning. destruct tuning as [t|]; cbn [default from_option id].
  - destruct (decide (t = ∅)) as [->|_].
    + exists fields. split; [done|]. unfold overridden. intros k. by rewrite lookup_empty.
    + exists (t ∪ fields). split; [done|]. apply union_overridden.
  - exists fields. split; [done|]. unfold overridden. intros k. by rewrite lookup_empty.
Qed.

Lemma tune_overridden v fields :
  ∃ sent, UpdateVoices.tune v (JObject fields) = Ret (JObject sent)
          ∧ overridden (tuning_of v) fields sent.
Proof.
  eexists. split; [reflexivity|]. unfold overridden, tuning_of. intros k.
  destruct (decide (k = "intonationScale")) as [->|Hi].
  { rewrite lookup_insert_eq. by simplify_map_eq. }
  rewrite lookup_insert_ne by done.
  destruct (decide (k = "pitchScale")) as [->|Hp].
  { rewrite lookup_insert_eq. by simplify_map_eq. }
  rewrite lookup_insert_ne by done.
  destruct (decide (k = "speedScale")) as [->|Hs].
  { rewrite lookup_insert_eq. by simplify_map_eq. }
  rewrite lookup_insert_ne by done. by simplify_map_eq.
Qed.

Lemma quotes_fetch_requests voice_params url category line w resp fields :
  svc (calls w) (Quotes.audio_query_request url line) = Replied resp →
  ¬ error_status (status resp) →
  json_body resp = Some (JObject fields) →
  ∃ sent,
    overridden (default ∅ (voice_params !! category)) fields sent
    ∧ requests_of (log (Quotes.fetch svc voice_params url category line w).2)
      = requests_of (log w)
        ++ [Quotes.audio_query_request url line;
            Quotes.synthesis_request url (JObject sent)].
Proof.
  intros Hsvc Hok Hjson.
  destruct (apply_tuning_overridden (voice_params !! category) fields)
    as (sent & Htune & Hover).
  exists sent. split; [done|].
  unfold Quotes.fetch, Quotes.audio_query. rewrite bind_run, checked_run, Hsvc.
  rewrite (error_status_false _ Hok). unfold json_of. rewrite Hjson.
  cbn [mret M_ret]. rewrite bind_run. unfold lift. rewrite Htune.
  unfold Quotes.synthesis. rewrite checked_run.
  set (w1 := after_call svc (Quotes.audio_query_request url line) w).
  set (req := Quotes.synthesis_request url (JObject sent)).
  assert (requests_of (log (after_call svc req w1))
          = requests_of (log w) ++ [Quotes.audio_query_request url line; req]) as Hreq.
  { rewrite requests_after_call. unfold w1.
    by rewrite requests_after_call, <- app_assoc. }
  destruct (svc (calls w1) req) as [f|r]; [done|].
  by destruct ((400 <=? status r) && (status r <? 600)).
Qed.

(** C1. In the loop body of [generate_quote_voices.py] and in
    [generate_wav] of [update_voices.py], when the query step returns the
    structured query [fields], the calls made are the query call and one
    synthesis call whose body is a query [sent] that holds every field of
    the tuning set of the request at its supplied value and every other
    field as [fields] has it (a category without tuning set sends [fields]
    itself). *)
Theorem tuned_query_is_sent voice_params url out_dir category i line manifest
    v w resp fields :
  json_body resp = Some (JObject fields) →
  (svc (calls w) (Quotes.audio_query_request url line) = Replied resp →
   ¬ error_status (status resp) →
   ∃ sent,
     overridden (default ∅ (voice_params !! category)) fields sent
     ∧ payload (Quotes.synthesis_request url (JObject sent)) = Some (JObject sent)
     ∧ requests_of
         (log (Quotes.generate_line svc voice_params url out_dir category i line
                 manifest w).2)
       = requests_of (log w)
         ++ [Quotes.audio_query_request url line;
             Quotes.synthesis_request url (JObject sent)])
  ∧ (svc (calls w) (UpdateVoices.audio_query_request v) = Replied resp →
     ∃ sent,
       overridden (tuning_of v) fields sent
       ∧ payload (UpdateVoices.synthesis_request v (JObject sent)) = Some (JObject sent)
       ∧ requests_of (log (UpdateVoices.generate_wav svc v w).2)
         = requests_of (log w)
           ++ [UpdateVoices.audio_query_request v;
               UpdateVoices.synthesis_request v (JObject sent)]).
Proof.
  intros Hjson. split.
  - intros Hsvc Hok.
    destruct (quotes_fetch_requests voice_params url category line w resp fields
                Hsvc Hok Hjson) as (sent & Hover & Hreq).
    exists sent. split; [done|]. split; [done|].
    unfold Quotes.generate_line. rewrite try_bind_quiet; [done| |].
    + intros wav. repeat emits_step; done.
    + intros e c. destruct e; try done; intros [= <-]; repeat emits_step; done.
  - intros Hsvc.
    destruct (tune_overridden v fields) as (sent & Htune & Hover).
    exists sent. split; [done|]. split; [done|].
    unfold UpdateVoices.generate_wav. rewrite bind_run, http_run, Hsvc.
    rewrite bind_run. unfold json_of. rewrite Hjson. cbn [mret M_ret].
    rewrite bind_run. unfold lift. rewrite Htune.
    rewrite bind_run, http_run.
    set (w1 := after_call svc (UpdateVoices.audio_query_request v) w).
    set (req := UpdateVoices.synthesis_request v (JObject sent)).
    assert (requests_of (log (after_call svc req w1))
            = requests_of (log w) ++ [UpdateVoices.audio_query_request v; req]) as Hreq.
    { rewrite requests_after_call. unfold w1.
      by rewrite requests_after_call, <- app_assoc. }
    destruct (svc (calls w1) req) as [f|r2]; [done|].
    rewrite quiet_run; [done|]. repeat emits_step; done.
Qed.

End Tuning.

(** ** The voicevox batch *)

Section VoicevoxBatch.

Import Voicevox.
Variable svc : nat → request → reply.
Variables url out_dir : string.

Lemma startup_banner :
  startup svc url out_dir world0
  = try_except (check_voicevox svc url) (on_check_failure url)
      (voicevox_banner url out_dir).
Proof. reflexivity. Qed.

Lemma check_run w :
  check_voicevox svc url w =
    match svc (calls w) (speakers_request url) with
    | Failed f => (Raise (exn_of_failure f), after_call svc (speakers_request url) w)
    | Replied r =>
        if (400 <=? status r) && (status r <? 600)
        then (Raise (HTTPError (status r)), after_call svc (speakers_request url) w)
        else (Ret tt, after_call svc (speakers_request url) w)
    end.
Proof.
  unfold check_voicevox, http, after_call, raise_for_status. rewrite bind_run.
  destruct (svc (calls w) (speakers_request url)) as [f|r]; [done|].
  by destruct ((400 <=? status r) && (status r <? 600)).
Qed.

Lemma main_after_failed_startup lines e w :
  startup svc url out_dir world0 = (Raise e, w) →
  main_with svc lines url out_dir world0 = (Raise e, w).
Proof. intros H. unfold main_with. by rewrite (bind_run_raise _ _ _ _ _ H). Qed.

(** The run when the health check fails, by failure class. *)
Lemma health_check_failure lines :
  health_fails (svc 0 (speakers_request url)) →
  let run := main_with svc lines url out_dir world0 in
  requests_of (log run.2) = [speakers_request url]
  ∧ writes_of (log run.2) = []
  ∧ exit_code run.1 ≠ 0
  ∧ (svc 0 (speakers_request url) = Failed ConnectionFailed
     ∨ svc 0 (speakers_request url) = Failed TimedOut →
     run.1 = Raise (SystemExit 2)
     ∧ Print Stderr MsgCouldNotConnect ∈ log run.2)
  ∧ (∀ resp, svc 0 (speakers_request url) = Replied resp →
     run.1 = Raise (SystemExit 3)
     ∧ Print Stderr MsgHealthHTTPError ∈ log run.2).
Proof.
  intros Hfail run.
  assert (∃ e w, startup svc url out_dir world0 = (Raise e, w)
                 ∧ requests_of (log w) = [speakers_request url]
                 ∧ writes_of (log w) = []
                 ∧ exit_code (Raise e : res unit) ≠ 0
                 ∧ (svc 0 (speakers_request url) = Failed ConnectionFailed
                    ∨ svc 0 (speakers_request url) = Failed TimedOut →
                    e = SystemExit 2 ∧ Print Stderr MsgCouldNotConnect ∈ log w)
                 ∧ (∀ resp, svc 0 (speakers_request url) = Replied resp →
                    e = SystemExit 3 ∧ Print Stderr MsgHealthHTTPError ∈ log w))
    as (e & w & Hstart & Hreq & Hwr & Hcode & Hconn & Hhttp).
  { rewrite startup_banner, try_run, check_run.
    change (calls (voicevox_banner url out_dir)) with 0%nat.
    unfold health_fails in Hfail.
    destruct (svc 0%nat (speakers_request url)) as [[| |]|resp] eqn:Hsvc;
      [| | |rewrite (error_status_true _ Hfail)];
      (eexists _, _; split; [reflexivity|]; cbn;
       split; [done|]; split; [done|]; split; [done|]; split;
       [intros [?|?]; try discriminate; (split; [done|set_solver])
       |intros ? ?; try discriminate; (split; [done|set_solver])]). }
  subst run. rewrite (main_after_failed_startup lines e w Hstart). cbn [fst snd].
  split; [done|]. split; [done|]. split; [done|]. split.
  - intros Hc. destruct (Hconn Hc) as [-> ?]. by split.
  - intros resp Hr. destruct (Hhttp resp Hr) as [-> ?]. by split.
Qed.

Lemma writes_of_banner P l : Forall (banner_event P) l → writes_of l = [].
Proof. induction 1 as [|e l He _ IH]; [done|]. by destruct e. Qed.

Lemma startup_banner_events :
  emits (banner_event (voicevox_call url)) (startup svc url out_dir).
Proof.
  unfold startup, check_voicevox, sys_exit. repeat emits_step; try done.
  cbn. unfold voicevox_call. eauto.
Qed.

Lemma startup_writes_nothing r ws :
  startup svc url out_dir world0 = (r, ws) → writes_of (log ws) = [].
Proof.
  intros H. destruct (startup_banner_events _ _ _ H) as (evs & Hlog & Hevs).
  rewrite Hlog. cbn [log world0 app]. by eapply writes_of_banner.
Qed.

Lemma fetch_writes_nothing text w r w' :
  fetch svc url text w = (r, w') → writes_of (log w') = writes_of (log w).
Proof.
  intros H. destruct (fetch_calls svc url text _ _ _ H) as (evs & Hlog & Hevs).
  rewrite Hlog, writes_of_app, (writes_of_is_net evs), app_nil_r; [done|].
  eapply Forall_impl; [exact Hevs|]. apply calls_only_is_net.
Qed.

Lemma generate_all_app l1 l2 n w :
  generate_all svc url out_dir (l1 ++ l2) n w
  = (n' ← generate_all svc url out_dir l1 n; generate_all svc url out_dir l2 n') w.
Proof.
  revert n w. induction l1 as [|item l1 IH]; intros n w; [done|].
  cbn [app generate_all]. rewrite !bind_run.
  destruct (generate_one svc url out_dir item w) as [[[]|e] w1]; [|done].
  by rewrite IH, bind_run.
Qed.

(** The turn of an item whose calls fail: report, exit with status 4. *)
Lemma generate_one_fails filename text w e w2 :
  fetch svc url text w = (Raise e, w2) →
  net_failure e →
  generate_one svc url out_dir (filename, text) w
  = (Raise (SystemExit 4), printed w2 Stderr (MsgFailedToGenerate filename e)).
Proof.
  intros Hfetch He. unfold generate_one. rewrite bind_run, try_run, Hfetch.
  by destruct e.
Qed.

(** The turn of an item that succeeds: one file, under the item's name. *)
Lemma generate_one_ok filename text w u w' :
  generate_one svc url out_dir (filename, text) w = (Ret u, w') →
  ∃ wav, writes_of (log w') = writes_of (log w) ++ [(Some out_dir, filename, wav)].
Proof.
  unfold generate_one. rewrite bind_run, try_run.
  destruct (fetch svc url text w) as [[wav|e] w1] eqn:Hfetch.
  - intros [= <- <-]. exists wav. cbn [log]. rewrite !writes_of_app.
    rewrite (fetch_writes_nothing _ _ _ _ Hfetch). cbn. by rewrite app_nil_r.
  - by destruct e.
Qed.

Lemma generate_all_ok lines n w g w' :
  generate_all svc url out_dir lines n w = (Ret g, w') →
  (writes_of (log w')).*1 = (writes_of (log w)).*1 ++ line_files out_dir lines.
Proof.
  revert n w. induction lines as [|[filename text] rest IH]; intros n w.
  - intros [= <- <-]. by rewrite app_nil_r.
  - cbn [generate_all]. rewrite bind_run.
    destruct (generate_one svc url out_dir (filename, text) w) as [[u|e] w1] eqn:Hone;
      [|done].
    intros Hrest. apply IH in Hrest as ->.
    destruct (generate_one_ok _ _ _ _ _ Hone) as [wav ->].
    rewrite fmap_app. cbn. by rewrite <- app_assoc.
Qed.

(** C6 for [generate_voicevox_voices.py]. *)
Lemma voicevox_aborts_at_first_failure lines k filename text ws g w1 e w2 :
  startup svc url out_dir world0 = (Ret tt, ws) →
  lines !! k = Some (filename, text) →
  generate_all svc url out_dir (take k lines) 0 ws = (Ret g, w1) →
  fetch svc url text w1 = (Raise e, w2) →
  net_failure e →
  let final := printed w2 Stderr (MsgFailedToGenerate filename e) in
  main_with svc lines url out_dir world0 = (Raise (SystemExit 4), final)
  ∧ exit_code (Raise (SystemExit 4) : res unit) = 4
  ∧ files_of (log final) = files_of (log w1)
  ∧ (writes_of (log final)).*1 = line_files out_dir (take k lines).
Proof.
  intros Hstart Hk Hbefore Hfetch He final.
  assert (writes_of (log final) = writes_of (log w1)) as Hwrites.
  { unfold final, printed. cbn [log]. rewrite writes_of_app. cbn.
    rewrite app_nil_r. by eapply fetch_writes_nothing. }
  split; [|split; [done|split]].
  - unfold main_with. rewrite (bind_run_ret _ _ _ _ _ Hstart), bind_run.
    rewrite <- (take_drop_middle lines k _ Hk), generate_all_app.
    rewrite (bind_run_ret _ _ _ _ _ Hbefore). cbn [generate_all].
    rewrite bind_run. by rewrite (generate_one_fails _ _ _ _ _ Hfetch He).
  - unfold files_of. by rewrite Hwrites.
  - rewrite Hwrites. apply generate_all_ok in Hbefore as ->.
    by rewrite (startup_writes_nothing _ _ Hstart).
Qed.

End VoicevoxBatch.

(** ** The quotes batch *)

Section QuotesBatch.

Import Quotes.
Variable svc : nat → request → reply.
Variable voice_params : gmap string (gmap string jvalue).
Variables url out_dir : string.

Lemma quotes_startup_banner :
  startup svc url out_dir world0 = version_check svc url (quotes_banner url out_dir).
Proof. reflexivity. Qed.

(** The version check never raises; when it fails, it prints a warning. *)
Lemma version_check_run w :
  version_check svc url w =
    let w1 := after_call svc (version_request url) w in
    match svc (calls w) (version_request url) with
    | Failed f => (Ret tt, printed w1 Stdout (MsgVersionWarn (exn_of_failure f)))
    | Replied r =>
        if (400 <=? status r) && (status r <? 600)
        then (Ret tt, printed w1 Stdout (MsgVersionWarn (HTTPError (status r))))
        else (Ret tt, printed w1 Stdout (MsgVersion (text r)))
    end.
Proof.
  unfold version_check. rewrite try_run, checked_run. cbn zeta.
  destruct (svc (calls w) (version_request url)) as [[| |]|r]; try done.
  by destruct ((400 <=? status r) && (status r <? 600)).
Qed.

Lemma quotes_startup_returns : ∃ ws, startup svc url out_dir world0 = (Ret tt, ws).
Proof.
  rewrite quotes_startup_banner, version_check_run. cbn zeta.
  destruct (svc _ _) as [f|r]; [by eexists|].
  destruct (_ && _); by eexists.
Qed.

Lemma quotes_startup_writes_nothing r ws :
  startup svc url out_dir world0 = (r, ws) →
  writes_of (log ws) = [] ∧ manifests_of (log ws) = [].
Proof.
  rewrite quotes_startup_banner, version_check_run. cbn zeta.
  destruct (svc _ _) as [f|resp]; [by intros [= <- <-]|].
  destruct (_ && _); by intros [= <- <-].
Qed.

Lemma quotes_fetch_writes_nothing category line w r w' :
  fetch svc voice_params url category line w = (r, w') →
  writes_of (log w') = writes_of (log w)
  ∧ manifests_of (log w') = manifests_of (log w).
Proof.
  intros H.
  destruct (quotes_fetch_calls svc voice_params url category line _ _ _ H)
    as (evs & Hlog & Hevs).
  rewrite Hlog, writes_of_app, manifests_of_app.
  rewrite (writes_of_is_net evs), (manifests_of_none evs), !app_nil_r; [done| |].
  - eapply Forall_impl; [exact Hevs|]. by intros [].
  - eapply Forall_impl; [exact Hevs|]. apply calls_only_is_net.
Qed.

Lemma generate_lines_app l1 l2 category i manifest w :
  generate_lines svc voice_params url out_dir category (l1 ++ l2) i manifest w
  = (m ← generate_lines svc voice_params url out_dir category l1 i manifest;
     generate_lines svc voice_params url out_dir category l2 (i + length l1)%nat m) w.
Proof.
  revert i manifest w. induction l1 as [|line l1 IH]; intros i manifest w.
  - cbn [app generate_lines length]. rewrite Nat.add_0_r. reflexivity.
  - cbn [app generate_lines length]. rewrite !bind_run.
    destruct (generate_line svc voice_params url out_dir category i line manifest w)
      as [[m|e] w1]; [|done].
    rewrite IH, bind_run. by rewrite Nat.add_succ_comm.
Qed.

Lemma generate_categories_app q1 q2 manifest w :
  generate_categories svc voice_params url out_dir (q1 ++ q2) manifest w
  = (m ← generate_categories svc voice_params url out_dir q1 manifest;
     generate_categories svc voice_params url out_dir q2 m) w.
Proof.
  revert manifest w. induction q1 as [|[category lines] q1 IH]; intros manifest w;
    [done|].
  cbn [app generate_categories]. rewrite !bind_run.
  destruct (generate_lines svc voice_params url out_dir category lines 0
              (<[category:=[]]> manifest) w) as [[m|e] w1]; [|done].
  by rewrite IH, bind_run.
Qed.

(** The turn of a line whose calls fail: report, raise again. *)
Lemma generate_line_fails category i line manifest w e w2 :
  fetch svc voice_params url category line w = (Raise e, w2) →
  net_failure e →
  generate_line svc voice_params url out_dir category i line manifest w
  = (Raise e, printed w2 Stdout (MsgFailedQuote category i e)).
Proof.
  intros Hfetch He. unfold generate_line. rewrite try_run, bind_run, Hfetch.
  by destruct e.
Qed.

(** The turn of a line that succeeds: one file, one manifest entry. *)
Lemma generate_line_ok category i line manifest w m w' :
  generate_line svc voice_params url out_dir category i line manifest w = (Ret m, w') →
  m = alter (λ l, l ++ [filename_of category i]) category manifest
  ∧ manifests_of (log w') = manifests_of (log w)
  ∧ ∃ wav, writes_of (log w')
           = writes_of (log w) ++ [(Some out_dir, filename_of category i, wav)].
Proof.
  unfold generate_line. rewrite try_run, bind_run.
  destruct (fetch svc voice_params url category line w) as [[wav|e] w1] eqn:Hfetch.
  - intros [= <- <-].
    destruct (quotes_fetch_writes_nothing _ _ _ _ _ Hfetch) as [Hw Hm].
    split; [done|]. cbn [log]. rewrite !manifests_of_app, !writes_of_app, Hw, Hm.
    cbn. rewrite !app_nil_r. split; [done|]. by exists wav.
  - destruct e; cbn; try done.
Qed.

Lemma generate_lines_ok category lines i manifest w m w' :
  generate_lines svc voice_params url out_dir category lines i manifest w = (Ret m, w') →
  m = alter (λ l, l ++ filenames_from category i (length lines)) category manifest
  ∧ manifests_of (log w') = manifests_of (log w)
  ∧ (writes_of (log w')).*1
    = (writes_of (log w)).*1
      ++ map (λ name, (Some out_dir, name)) (filenames_from category i (length lines)).
Proof.
  revert i manifest w. induction lines as [|line rest IH]; intros i manifest w.
  - intros [= <- <-]. split; [|by rewrite app_nil_r].
    apply map_eq. intros c. rewrite lookup_alter. case_decide; [|done].
    subst. destruct (manifest !! c); [|done]. cbn. by rewrite app_nil_r.
  - cbn [generate_lines]. rewrite bind_run.
    destruct (generate_line svc voice_params url out_dir category i line manifest w)
      as [[m1|e] w1] eqn:Hline; [|done].
    intros Hrest. apply IH in Hrest as (-> & -> & ->).
    apply generate_line_ok in Hline as (-> & -> & wav & ->).
    split; [|split; [done|]].
    + rewrite alter_alter_eq. apply alter_ext. intros l _. cbn.
      by rewrite <- app_assoc.
    + rewrite fmap_app. cbn. by rewrite <- app_assoc.
Qed.

Lemma generate_categories_ok quotes manifest w m w' :
  NoDup quotes.*1 →
  generate_categories svc voice_params url out_dir quotes manifest w = (Ret m, w') →
  (∀ category lines, (category, lines) ∈ quotes →
     m !! category = Some (filenames_from category 0 (length lines)))
  ∧ (∀ category, category ∉ quotes.*1 → m !! category = manifest !! category).
Proof.
  revert manifest w. induction quotes as [|[category lines] rest IH];
    intros manifest w Hnodup.
  - intros [= <- <-]. split; [|done]. intros ? ? Hin. by apply elem_of_nil in Hin.
  - cbn [generate_categories]. rewrite bind_run.
    destruct (generate_lines svc voice_params url out_dir category lines 0
                (<[category:=[]]> manifest) w) as [[m1|e] w1] eqn:Hlines; [|done].
    intros Hrest. cbn in Hnodup. apply NoDup_cons in Hnodup as [Hfresh Hnodup].
    destruct (IH _ _ Hnodup Hrest) as [Hin Hout].
    apply generate_lines_ok in Hlines as (-> & _).
    split.
    + intros c ls Hc. apply elem_of_cons in Hc as [[= -> ->]|Hc]; [|by apply Hin].
      rewrite (Hout _ Hfresh), lookup_alter. case_decide; [|done].
      by rewrite lookup_insert_eq.
    + intros c Hc. cbn in Hc. apply not_elem_of_cons in Hc as [Hne Hc].
      rewrite (Hout _ Hc), lookup_alter. case_decide; [done|].
      by rewrite lookup_insert_ne.
Qed.

Lemma generate_categories_writes quotes manifest w m w' :
  generate_categories svc voice_params url out_dir quotes manifest w = (Ret m, w') →
  manifests_of (log w') = manifests_of (log w)
  ∧ (writes_of (log w')).*1 = (writes_of (log w)).*1 ++ quote_files out_dir quotes.
Proof.
  revert manifest w. induction quotes as [|[category lines] rest IH]; intros manifest w.
  - intros [= <- <-]. by rewrite app_nil_r.
  - cbn [generate_categories]. rewrite bind_run.
    destruct (generate_lines svc voice_params url out_dir category lines 0
                (<[category:=[]]> manifest) w) as [[m1|e] w1] eqn:Hlines; [|done].
    intros Hrest. apply IH in Hrest as (-> & ->).
    apply generate_lines_ok in Hlines as (_ & -> & ->).
    split; [done|]. cbn. by rewrite <- app_assoc.
Qed.

(** The batch when the calls of line [i] of category number [c] fail. *)
Lemma batch_fails quotes c category lines i line ws m0 w1 m1 w2 e w3 :
  quotes !! c = Some (category, lines) →
  generate_categories svc voice_params url out_dir (take c quotes) ∅ ws = (Ret m0, w1) →
  lines !! i = Some line →
  generate_lines svc voice_params url out_dir category (take i lines) 0
    (<[category:=[]]> m0) w1 = (Ret m1, w2) →
  fetch svc voice_params url category line w2 = (Raise e, w3) →
  net_failure e →
  let final := printed w3 Stdout (MsgFailedQuote category i e) in
  batch svc quotes voice_params url out_dir ws = (Raise e, final)
  ∧ writes_of (log final) = writes_of (log w2)
  ∧ manifests_of (log final) = manifests_of (log ws)
  ∧ (writes_of (log w2)).*1
    = (writes_of (log ws)).*1 ++ quote_files out_dir (take c quotes)
      ++ map (λ name, (Some out_dir, name)) (filenames_from category 0 i).
Proof.
  intros Hc Hcats Hi Hlines Hfetch He final.
  destruct (quotes_fetch_writes_nothing _ _ _ _ _ Hfetch) as [Hw3 Hm3].
  destruct (generate_categories_writes _ _ _ _ _ Hcats) as [Hm1 Hw1].
  destruct (generate_lines_ok _ _ _ _ _ _ _ Hlines) as (_ & Hm2 & Hw2).
  split; [|split; [|split]].
  - unfold batch. rewrite bind_run.
    rewrite <- (take_drop_middle quotes c _ Hc), generate_categories_app.
    rewrite (bind_run_ret _ _ _ _ _ Hcats). cbn [generate_categories].
    rewrite bind_run.
    rewrite <- (take_drop_middle lines i _ Hi), generate_lines_app.
    rewrite (bind_run_ret _ _ _ _ _ Hlines). cbn [generate_lines].
    rewrite bind_run.
    rewrite length_take_le by (apply Nat.lt_le_incl; by eapply lookup_lt_Some).
    cbn [Nat.add]. by rewrite (generate_line_fails _ _ _ _ _ _ _ Hfetch He).
  - unfold final, printed. cbn [log]. rewrite writes_of_app. cbn.
    by rewrite app_nil_r.
  - unfold final, printed. cbn [log]. rewrite manifests_of_app. cbn.
    by rewrite app_nil_r, Hm3, Hm2, Hm1.
  - rewrite Hw2, Hw1, <- app_assoc.
    by rewrite length_take_le by (apply Nat.lt_le_incl; by eapply lookup_lt_Some).
Qed.

(** The batch, by its result: a manifest at the very end, or none. *)
Lemma batch_result quotes ws r w :
  batch svc quotes voice_params url out_dir ws = (r, w) →
  (r = Ret tt →
   ∃ pre m,
     log w = pre ++ [WriteManifest out_dir "manifest.json" m; Print Stdout MsgDone]
     ∧ manifests_of pre = manifests_of (log ws)
     ∧ (writes_of pre).*1 = (writes_of (log ws)).*1 ++ quote_files out_dir quotes)
  ∧ (r ≠ Ret tt → manifests_of (log w) = manifests_of (log ws)).
Proof.
  unfold batch. rewrite bind_run.
  destruct (generate_categories svc voice_params url out_dir quotes ∅ ws)
    as [[m|e] w1] eqn:Hcats.
  - intros [= <- <-]. split; [|done]. intros _.
    destruct (generate_categories_writes _ _ _ _ _ Hcats) as [Hm Hw].
    exists (log w1), m. cbn [log]. by rewrite <- app_assoc.
  - intros [= <- <-]. split; [done|]. intros _.
    destruct (generate_categories_events svc voice_params url out_dir _ _ _ _ _ Hcats)
      as (evs & Hlog & Hevs).
    rewrite Hlog, manifests_of_app, (manifests_of_none evs), app_nil_r; [done|].
    eapply Forall_impl; [exact Hevs|]. apply before_manifest_not_manifest.
Qed.

End QuotesBatch.

(** ** Health check *)

(** C5, amended. In [generate_voicevox_voices.py] a failed health check
    ends the run before any item: the only network call is the health
    check, no file is written, the exit status is not 0; it is 2 with the
    connection diagnostic on a connection failure or timeout, and 3 with
    the HTTP diagnostic on an error status.  In [generate_quote_voices.py]
    a failed version check is printed as a warning and the batch then runs
    from there. *)
Theorem health_check_failure_policy svc url out_dir :
  (∀ lines,
     health_fails (svc 0%nat (Voicevox.speakers_request url)) →
     let run := Voicevox.main_with svc lines url out_dir world0 in
     requests_of (log run.2) = [Voicevox.speakers_request url]
     ∧ writes_of (log run.2) = []
     ∧ exit_code run.1 ≠ 0
     ∧ (svc 0%nat (Voicevox.speakers_request url) = Failed ConnectionFailed
        ∨ svc 0%nat (Voicevox.speakers_request url) = Failed TimedOut →
        run.1 = Raise (SystemExit 2)
        ∧ Print Stderr MsgCouldNotConnect ∈ log run.2)
     ∧ (∀ resp, svc 0%nat (Voicevox.speakers_request url) = Replied resp →
        run.1 = Raise (SystemExit 3)
        ∧ Print Stderr MsgHealthHTTPError ∈ log run.2))
  ∧ (∀ quotes voice_params arg_url,
       url = PyStr.rstrip_char "/" arg_url →
       health_fails (svc 0%nat (Quotes.version_request url)) →
       let ws :=
         printed (after_call svc (Quotes.version_request url) (quotes_banner url out_dir))
           Stdout (MsgVersionWarn (exn_of_reply (svc 0%nat (Quotes.version_request url)))) in
       Quotes.main_with svc quotes voice_params arg_url out_dir world0
       = Quotes.batch svc quotes voice_params url out_dir ws).
Proof.
  split.
  - intros lines. apply health_check_failure.
  - intros quotes voice_params arg_url -> Hfail ws.
    unfold Quotes.main_with. rewrite bind_run.
    rewrite quotes_startup_banner, version_check_run. cbn zeta.
    change (calls (quotes_banner (PyStr.rstrip_char "/" arg_url) out_dir)) with 0%nat.
    unfold ws. unfold health_fails in Hfail.
    destruct (svc 0%nat (Quotes.version_request (PyStr.rstrip_char "/" arg_url)))
      as [f|resp]; [done|].
    by rewrite (error_status_true _ Hfail).
Qed.

Lemma health_check_failure_policy_witness :
  (Voicevox.main_with (svc_except 0 (Failed TimedOut)) Voicevox.LINES
     "http://127.0.0.1:50021" "public/sounds/voice" world0).1
  = Raise (SystemExit 2)
  ∧ (Voicevox.main_with (svc_except 0 (Replied error_response)) Voicevox.LINES
       "http://127.0.0.1:50021" "public/sounds/voice" world0).1
    = Raise (SystemExit 3).
Proof.
  split.
  - pose proof (proj1 (health_check_failure_policy (svc_except 0 (Failed TimedOut))
                         "http://127.0.0.1:50021" "public/sounds/voice")
                  Voicevox.LINES I) as (_ & _ & _ & H & _).
    apply H. by right.
  - assert (health_fails (svc_except 0 (Replied error_response) 0%nat
                            (Voicevox.speakers_request "http://127.0.0.1:50021"))) as Hf.
    { unfold health_fails, error_status. cbn. lia. }
    pose proof (proj1 (health_check_failure_policy (svc_except 0 (Replied error_response))
                         "http://127.0.0.1:50021" "public/sounds/voice")
                  Voicevox.LINES Hf) as (_ & _ & _ & _ & H).
    by apply (H error_response).
Defined.

(** C5, as stated, fails: when the version check of
    [generate_quote_voices.py] fails, the run goes on, generates the
    audio file of every line and ends with status 0. *)
Lemma quotes_run_continues_after_failed_check :
  health_fails (svc_except 0 (Failed ConnectionFailed) 0%nat
                  (Quotes.version_request "http://localhost:50021"))
  ∧ exit_code (Quotes.script (svc_except 0 (Failed ConnectionFailed)) env_bare
                 {| arg_url := None; arg_out := None |} world0).1 = 0
  ∧ length (writes_of (log (Quotes.script (svc_except 0 (Failed ConnectionFailed)) env_bare
                              {| arg_url := None; arg_out := None |} world0).2)) = 20%nat.
Proof. split; [exact I|]. split; vm_compute; reflexivity. Qed.

(** ** Abort at the first failure *)

(** C6. When the query or synthesis call of item [k] fails with a
    connection error, a timeout or an HTTP error after the items before
    it succeeded, [generate_voicevox_voices.py] ends there with exit
    status 4 and [generate_quote_voices.py] ends there with the re-raised
    exception (exit status 1); the run stops at the report of the
    failure, the files written are those of the items before [k], and the
    files on disk are as they were when item [k] began. *)
Theorem batch_aborts_at_first_failure svc out_dir :
  (∀ url lines k filename text ws g w1 e w2,
     Voicevox.startup svc url out_dir world0 = (Ret tt, ws) →
     lines !! k = Some (filename, text) →
     Voicevox.generate_all svc url out_dir (take k lines) 0 ws = (Ret g, w1) →
     Voicevox.fetch svc url text w1 = (Raise e, w2) →
     net_failure e →
     let final := printed w2 Stderr (MsgFailedToGenerate filename e) in
     Voicevox.main_with svc lines url out_dir world0 = (Raise (SystemExit 4), final)
     ∧ exit_code (Raise (SystemExit 4) : res unit) = 4
     ∧ files_of (log final) = files_of (log w1)
     ∧ (writes_of (log final)).*1 = line_files out_dir (take k lines))
  ∧ (∀ voice_params arg_url quotes c category lines i line ws m0 w1 m1 w2 e w3,
       let url := PyStr.rstrip_char "/" arg_url in
       Quotes.startup svc url out_dir world0 = (Ret tt, ws) →
       quotes !! c = Some (category, lines) →
       Quotes.generate_categories svc voice_params url out_dir (take c quotes) ∅ ws
       = (Ret m0, w1) →
       lines !! i = Some line →
       Quotes.generate_lines svc voice_params url out_dir category (take i lines) 0
         (<[category:=[]]> m0) w1 = (Ret m1, w2) →
       Quotes.fetch svc voice_params url category line w2 = (Raise e, w3) →
       net_failure e →
       let final := printed w3 Stdout (MsgFailedQuote category i e) in
       Quotes.main_with svc quotes voice_params arg_url out_dir world0 = (Raise e, final)
       ∧ exit_code (Raise e : res unit) = 1
       ∧ files_of (log final) = files_of (log w2)
       ∧ (writes_of (log final)).*1
         = quote_files out_dir (take c quotes)
           ++ map (λ name, (Some out_dir, name)) (filenames_from category 0 i)).
Proof.
  split.
  - intros url lines k filename text ws g w1 e w2.
    apply voicevox_aborts_at_first_failure.
  - intros voice_params arg_url quotes c category lines i line ws m0 w1 m1 w2 e w3 url
      Hstart Hc Hcats Hi Hlines Hfetch He final.
    destruct (batch_fails svc voice_params url out_dir quotes c category lines i line
                ws m0 w1 m1 w2 e w3 Hc Hcats Hi Hlines Hfetch He)
      as (Hbatch & Hw & _ & Hnames).
    fold final in Hbatch, Hw.
    destruct (quotes_startup_writes_nothing _ _ _ _ _ Hstart) as [Hws _].
    split; [|split; [|split]].
    + unfold Quotes.main_with. fold url. by rewrite (bind_run_ret _ _ _ _ _ Hstart).
    + by destruct e.
    + unfold files_of. by rewrite Hw.
    + rewrite Hw, Hnames, Hws. reflexivity.
Qed.

Lemma batch_aborts_at_first_failure_witness :
  ((Voicevox.main_with (svc_except 5 (Replied error_response)) Voicevox.LINES
      "http://127.0.0.1:50021" "out" world0).1
   = Raise (SystemExit 4)
   ∧ (writes_of
        (log (Voicevox.main_with (svc_except 5 (Replied error_response)) Voicevox.LINES
                "http://127.0.0.1:50021" "out" world0).2)).*1
     = [(Some "out", "zunda_pon.wav"); (Some "out", "zunda_chi.wav")])
  ∧ ((Quotes.main_with (svc_except 5 (Failed ConnectionFailed)) Quotes.QUOTES
        Quotes.VOICE_PARAMS "http://localhost:50021/" "out" world0).1
     = Raise ConnectionError
     ∧ (writes_of
          (log (Quotes.main_with (svc_except 5 (Failed ConnectionFailed)) Quotes.QUOTES
                  Quotes.VOICE_PARAMS "http://localhost:50021/" "out" world0).2)).*1
       = [(Some "out", "DEFENSE_0.wav"); (Some "out", "DEFENSE_1.wav")]).
Proof.
  split.
  - edestruct (proj1 (batch_aborts_at_first_failure
                        (svc_except 5 (Replied error_response)) "out")
                 "http://127.0.0.1:50021" Voicevox.LINES 2%nat)
      as (Hrun & _ & _ & Hnames).
    + vm_compute. reflexivity.
    + reflexivity.
    + vm_compute. reflexivity.
    + vm_compute. reflexivity.
    + exact I.
    + rewrite Hrun. cbn [fst snd]. split; [reflexivity|]. rewrite Hnames. reflexivity.
  - edestruct (proj2 (batch_aborts_at_first_failure
                        (svc_except 5 (Failed ConnectionFailed)) "out")
                 Quotes.VOICE_PARAMS "http://localhost:50021/" Quotes.QUOTES
                 1%nat "OFFENSE" (default [] (snd <$> Quotes.QUOTES !! 1%nat)) 0%nat)
      as (Hrun & _ & _ & Hnames).
    + vm_compute. reflexivity.
    + reflexivity.
    + vm_compute. reflexivity.
    + reflexivity.
    + vm_compute. reflexivity.
    + vm_compute. reflexivity.
    + exact I.
    + rewrite Hrun. cbn [fst snd]. split; [reflexivity|]. rewrite Hnames.
      vm_compute. reflexivity.
Defined.

(** ** Manifest *)

(** C8. When the run of [generate_quote_voices.py] over a table of
    categories succeeds, exactly one manifest is written, as
    [manifest.json] of the output directory; it maps every category of the
    table to the names [{category}_{index}.wav] of its lines, one per line
    in input order, and has no other key; the audio files written are
    those names, in table order.  For a table of two categories with one
    and two lines the manifest has exactly those two keys, with lists of
    length 1 and 2. *)
Theorem manifest_lists_generated_files svc quotes voice_params arg_url out_dir w :
  NoDup quotes.*1 →
  Quotes.main_with svc quotes voice_params arg_url out_dir world0 = (Ret tt, w) →
  ∃ m,
    manifests_of (log w) = [(out_dir, "manifest.json", m)]
    ∧ (∀ category lines, (category, lines) ∈ quotes →
         m !! category = Some (filenames_from category 0 (length lines)))
    ∧ (∀ category, is_Some (m !! category) ↔ category ∈ quotes.*1)
    ∧ (writes_of (log w)).*1 = quote_files out_dir quotes
    ∧ (∀ c1 c2 l1 l2 l3,
         quotes = [(c1, [l1]); (c2, [l2; l3])] →
         dom m = {[c1; c2]}
         ∧ m !! c1 = Some [Quotes.filename_of c1 0]
         ∧ m !! c2 = Some [Quotes.filename_of c2 0; Quotes.filename_of c2 1]).
Proof.
  intros Hnodup Hrun. unfold Quotes.main_with in Hrun.
  set (url := PyStr.rstrip_char "/" arg_url) in *.
  destruct (quotes_startup_returns svc url out_dir) as [ws Hstart].
  destruct (quotes_startup_writes_nothing _ _ _ _ _ Hstart) as [Hws Hms].
  rewrite (bind_run_ret _ _ _ _ _ Hstart) in Hrun.
  unfold Quotes.batch in Hrun. rewrite bind_run in Hrun.
  destruct (Quotes.generate_categories svc voice_params url out_dir quotes ∅ ws)
    as [[m|e] w1] eqn:Hcats; [|done].
  injection Hrun as <-.
  destruct (generate_categories_ok _ _ _ _ _ _ _ _ _ Hnodup Hcats) as [Hin Hout].
  destruct (generate_categories_writes _ _ _ _ _ _ _ _ _ Hcats) as [Hm1 Hw1].
  assert (∀ category, is_Some (m !! category) ↔ category ∈ quotes.*1) as Hdom.
  { intros category. split.
    - intros Hsome. destruct (decide (category ∈ quotes.*1)) as [|Hno]; [done|].
      rewrite (Hout _ Hno), lookup_empty in Hsome. by destruct Hsome.
    - intros Hc. apply list_elem_of_fmap in Hc as ([c lines] & -> & Hc).
      cbn [fst]. by rewrite (Hin _ _ Hc). }
  exists m. cbn [log]. split; [|split; [|split; [|split]]].
  - rewrite <- !app_assoc, !manifests_of_app, Hm1, Hms. reflexivity.
  - exact Hin.
  - exact Hdom.
  - rewrite <- !app_assoc, !writes_of_app. cbn. by rewrite !app_nil_r, Hw1, Hws.
  - intros c1 c2 l1 l2 l3 ->. split; [|split].
    + apply set_eq. intros c. rewrite elem_of_dom, Hdom. cbn.
      rewrite !elem_of_cons, elem_of_nil, elem_of_union, !elem_of_singleton. tauto.
    + apply (Hin c1 [l1]). by left.
    + apply (Hin c2 [l2; l3]). right. by left.
Qed.

Lemma manifest_lists_generated_files_witness :
  ∃ m,
    manifests_of
      (log (Quotes.main_with svc_ok
              [("DRAW_TENPAI", ["a"]); ("PLAYER_WIN_LOW", ["b"; "c"])]
              Quotes.VOICE_PARAMS "http://localhost:50021" "out" world0).2)
    = [("out", "manifest.json", m)]
    ∧ dom m = {[ "DRAW_TENPAI"; "PLAYER_WIN_LOW" ]}
    ∧ m !! "DRAW_TENPAI" = Some ["DRAW_TENPAI_0.wav"]
    ∧ m !! "PLAYER_WIN_LOW" = Some ["PLAYER_WIN_LOW_0.wav"; "PLAYER_WIN_LOW_1.wav"].
Proof.
  edestruct (manifest_lists_generated_files svc_ok
               [("DRAW_TENPAI", ["a"]); ("PLAYER_WIN_LOW", ["b"; "c"])]
               Quotes.VOICE_PARAMS "http://localhost:50021" "out")
    as (m & Hm & _ & _ & _ & Htwo).
  - apply NoDup_cons. split; [|apply NoDup_singleton].
    intros Hin. apply list_elem_of_singleton in Hin. discriminate Hin.
  - vm_compute. reflexivity.
  - exists m. destruct (Htwo _ _ _ _ _ eq_refl) as (Hdom & H1 & H2).
    split; [exact Hm|]. split; [exact Hdom|]. split; [exact H1|exact H2].
Defined.

(** C10. In [generate_quote_voices.py] the manifest is the last thing
    written: a run that ends normally wrote it once, after the audio file
    of every line of every category; a run that ends otherwise wrote no
    manifest at all; and when the calls of a line fail after earlier lines
    succeeded, the run ends with that exception and without manifest,
    while the audio files on disk are as they were when that line began. *)
Theorem manifest_written_last svc quotes voice_params arg_url out_dir r w :
  Quotes.main_with svc quotes voice_params arg_url out_dir world0 = (r, w) →
  (r = Ret tt →
   ∃ pre m,
     log w = pre ++ [WriteManifest out_dir "manifest.json" m; Print Stdout MsgDone]
     ∧ manifests_of pre = []
     ∧ (writes_of pre).*1 = quote_files out_dir quotes)
  ∧ (r ≠ Ret tt → manifests_of (log w) = [])
  ∧ (∀ c category lines i line ws m0 w1 m1 w2 e w3,
       let url := PyStr.rstrip_char "/" arg_url in
       Quotes.startup svc url out_dir world0 = (Ret tt, ws) →
       quotes !! c = Some (category, lines) →
       Quotes.generate_categories svc voice_params url out_dir (take c quotes) ∅ ws
       = (Ret m0, w1) →
       lines !! i = Some line →
       Quotes.generate_lines svc voice_params url out_dir category (take i lines) 0
         (<[category:=[]]> m0) w1 = (Ret m1, w2) →
       Quotes.fetch svc voice_params url category line w2 = (Raise e, w3) →
       net_failure e →
       r = Raise e
       ∧ manifests_of (log w) = []
       ∧ files_of (log w) = files_of (log w2)).
Proof.
  intros Hrun. unfold Quotes.main_with in Hrun.
  set (url := PyStr.rstrip_char "/" arg_url) in *.
  destruct (quotes_startup_returns svc url out_dir) as [ws Hstart].
  destruct (quotes_startup_writes_nothing _ _ _ _ _ Hstart) as [Hws Hms].
  rewrite (bind_run_ret _ _ _ _ _ Hstart) in Hrun.
  destruct (batch_result _ _ _ _ _ _ _ _ Hrun) as [Hok Hfail].
  split; [|split].
  - intros Hr. destruct (Hok Hr) as (pre & m & Hlog & Hpre & Hnames).
    exists pre, m. split; [done|]. split; [congruence|].
    by rewrite Hnames, Hws.
  - intros Hr. by rewrite (Hfail Hr).
  - intros c category lines i line ws' m0 w1 m1 w2 e w3 url'
      Hstart' Hc Hcats Hi Hlines Hfetch He.
    subst url'. fold url in Hstart'. rewrite Hstart in Hstart'.
    injection Hstart' as <-.
    destruct (batch_fails svc voice_params url out_dir quotes c category lines i line
                ws m0 w1 m1 w2 e w3 Hc Hcats Hi Hlines Hfetch He)
      as (Hbatch & Hw & Hm & _).
    rewrite Hbatch in Hrun. injection Hrun as <- <-.
    split; [done|]. split; [by rewrite Hm|]. unfold files_of. by rewrite Hw.
Qed.

Lemma manifest_written_last_witness :
  manifests_of
    (log (Quotes.script (svc_except 7 (Failed TimedOut)) env_bare
            {| arg_url := None; arg_out := None |} world0).2) = []
  ∧ length (writes_of
      (log (Quotes.script (svc_except 7 (Failed TimedOut)) env_bare
              {| arg_url := None; arg_out := None |} world0).2)) = 3%nat.
Proof.
  split; [|vm_compute; reflexivity].
  destruct (Quotes.script (svc_except 7 (Failed TimedOut)) env_bare
              {| arg_url := None; arg_out := None |} world0) as [r w] eqn:Hrun.
  assert (r ≠ Ret tt) as Hr.
  { assert (r = Raise Timeout) as ->; [|discriminate].
    change r with (r, w).1. rewrite <- Hrun. vm_compute. reflexivity. }
  exact (proj1 (proj2 (manifest_written_last _ _ _ _ _ r w Hrun)) Hr).
Defined.

Lemma tuned_query_is_sent_witness :
  ∃ sent,
    sent !! "speedScale" = Some (JFloat 12 (-1))
    ∧ sent !! "pitchScale" = Some (JFloat 1 (-1))
    ∧ sent !! "intonationScale" = Some (JFloat 10 (-1))
    ∧ sent !! "kana" = Some (JStr "")
    ∧ requests_of
        (log (Quotes.generate_line svc_ok Quotes.VOICE_PARAMS "http://localhost:50021"
                "out" "PLAYER_WIN_LOW" 0 "a" ∅ world0).2)
      = [Quotes.audio_query_request "http://localhost:50021" "a";
         Quotes.synthesis_request "http://localhost:50021" (JObject sent)].
Proof.
  destruct (proj1 (tuned_query_is_sent svc_ok Quotes.VOICE_PARAMS
                     "http://localhost:50021" "out" "PLAYER_WIN_LOW" 0 "a" ∅
                     {| UpdateVoices.filename := ""; UpdateVoices.voice_text := "";
                        UpdateVoices.speed := JNull; UpdateVoices.pitch := JNull;
                        UpdateVoices.intonation := JNull |}
                     world0 query_response sample_query eq_refl) eq_refl)
    as (sent & Hover & _ & Hreq).
  - unfold error_status. cbn. lia.
  - exists sent. unfold overridden in Hover.
    split; [by rewrite Hover|]. split; [by rewrite Hover|].
    split; [by rewrite Hover|]. split; [by rewrite Hover|]. exact Hreq.
Defined.
(** * Further properties *)

(** ** The gateway decoder and the host resolver *)

(** Evaluate the fields of the concrete routing-table line in the goal. *)
Ltac eval_line_fields :=
  match goal with
  | |- context [PyStr.split (PyStr.strip ?line)] =>
      let fields := eval vm_compute in (PyStr.split (PyStr.strip line)) in
      change (PyStr.split (PyStr.strip line)) with fields; cbv beta iota
  end.

Section ResolverMore.

Import Voicevox.

Lemma int16_raises s e : PyStr.int16 s = Raise e → e = ValueError.
Proof.
  unfold PyStr.int16. intros H.
  repeat case_match; simplify_eq; done.
Qed.

Lemma to_bytes4_little_range g b :
  PyStr.to_bytes4_little g = Ret b → 0 ≤ g < 2 ^ 32.
Proof.
  unfold PyStr.to_bytes4_little.
  destruct (Z.ltb_spec g 0); [done|].
  destruct (Z.leb_spec (2 ^ 32) g); [done|]. intros _. lia.
Qed.

Lemma to_bytes4_little_raises g e :
  PyStr.to_bytes4_little g = Raise e → e = OverflowError ∧ ¬ (0 ≤ g < 2 ^ 32).
Proof.
  unfold PyStr.to_bytes4_little.
  destruct (Z.ltb_spec g 0); [intros [= <-]; split; [done|lia]|].
  destruct (Z.leb_spec (2 ^ 32) g); [intros [= <-]; split; [done|lia]|done].
Qed.

Lemma dotted_little_endian_quad g : dotted_quad (dotted_little_endian g).
Proof.
  exists (g mod 256), (g / 256 mod 256), (g / 65536 mod 256), (g / 16777216 mod 256).
  repeat split; try apply Z.mod_pos_bound; lia.
Qed.

(** What the decoding of one gateway field gives. *)
Lemma decode_cases gateway :
  (∃ g, PyStr.int16 gateway = Ret g ∧ 0 ≤ g < 2 ^ 32
        ∧ (g ← PyStr.int16 gateway;
           b ← PyStr.to_bytes4_little g;
           ip ← PyStr.inet_ntoa b;
           Ret (Some ip)) = Ret (Some (dotted_little_endian g)))
  ∨ (PyStr.int16 gateway = Raise ValueError
     ∧ (g ← PyStr.int16 gateway;
        b ← PyStr.to_bytes4_little g;
        ip ← PyStr.inet_ntoa b;
        Ret (Some ip)) = Raise ValueError)
  ∨ (∃ g, PyStr.int16 gateway = Ret g ∧ ¬ (0 ≤ g < 2 ^ 32)
          ∧ (g ← PyStr.int16 gateway;
             b ← PyStr.to_bytes4_little g;
             ip ← PyStr.inet_ntoa b;
             Ret (Some ip)) = Raise OverflowError).
Proof.
  destruct (PyStr.int16 gateway) as [g|e] eqn:Hint.
  - destruct (PyStr.to_bytes4_little g) as [b|e] eqn:Hb.
    + left. exists g. apply to_bytes4_little_range in Hb as Hg.
      split; [done|]. split; [done|]. cbn [mbind res_bind].
      by rewrite (to_bytes4_little_ok g Hg).
    + right; right. exists g. apply to_bytes4_little_raises in Hb as Hb'.
      destruct Hb' as [-> Hg]. split; [done|]. split; [done|].
      cbn [mbind res_bind]. by rewrite Hb.
  - right; left. apply int16_raises in Hint as He. subst e. by split.
Qed.

(** The scan, by its result: the first any-route entry decides. *)
Lemma scan_routes_cases lines :
  (scan_routes lines = Ret None ∧ Forall passed_over lines)
  ∨ ∃ skipped line rest iface gateway more,
      lines = skipped ++ line :: rest
      ∧ Forall passed_over skipped
      ∧ PyStr.split (PyStr.strip line) = iface :: "00000000" :: gateway :: more
      ∧ ((∃ g, PyStr.int16 gateway = Ret g ∧ 0 ≤ g < 2 ^ 32
               ∧ scan_routes lines = Ret (Some (dotted_little_endian g)))
         ∨ (PyStr.int16 gateway = Raise ValueError
            ∧ scan_routes lines = Raise ValueError)
         ∨ (∃ g, PyStr.int16 gateway = Ret g ∧ ¬ (0 ≤ g < 2 ^ 32)
                 ∧ scan_routes lines = Raise OverflowError)).
Proof.
  induction lines as [|line lines IH]; [by left|].
  assert (passed_over line → scan_routes (line :: lines) = scan_routes lines) as Hskip.
  { intros Hp. apply (scan_routes_passed_over [line] lines). by constructor. }
  destruct (PyStr.split (PyStr.strip line))
    as [|iface [|destination [|gateway more]]] eqn:Hfields.
  1-3: (assert (passed_over line) as Hp by (unfold passed_over; by rewrite Hfields);
        rewrite (Hskip Hp);
        destruct IH as [[Hnone Hall]|(skipped & l & rest & i & gw & m & -> & Hs & Hf & Hres)];
        [left; split; [done|by constructor]
        |right; exists (line :: skipped), l, rest, i, gw, m;
         split; [done|]; split; [by constructor|]; by split]).
  destruct (String.eqb_spec destination "00000000") as [->|Hne].
  - right. exists [], line, lines, iface, gateway, more.
    split; [done|]. split; [constructor|]. split; [done|].
    cbn [scan_routes]. rewrite Hfields, eqb_dest_refl. cbn [negb].
    destruct (decode_cases gateway)
      as [(g & Hint & Hg & ->)|[(Hint & ->)|(g & Hint & Hg & ->)]].
    + left. by exists g.
    + right; left. by split.
    + right; right. by exists g.
  - assert (passed_over line) as Hp by (unfold passed_over; by rewrite Hfields).
    rewrite (Hskip Hp).
    destruct IH as [[Hnone Hall]|(skipped & l & rest & i & gw & m & -> & Hs & Hf & Hres)].
    + left. split; [done|by constructor].
    + right. exists (line :: skipped), l, rest, i, gw, m.
      split; [done|]. split; [by constructor|]. by split.
Qed.

Lemma scan_routes_first line rest :
  ¬ passed_over line → scan_routes (line :: rest) = scan_routes [line].
Proof.
  unfold passed_over. cbn [scan_routes]. intros Hline.
  destruct (PyStr.split (PyStr.strip line)) as [|f0 [|destination [|gateway more]]];
    try (by destruct Hline).
  destruct (String.eqb_spec destination "00000000") as [->|Hne]; [done|].
  by destruct Hline.
Qed.

Lemma gateway_address_is_quad env ip :
  _get_default_gateway_linux env = Ret (Some ip) → dotted_quad ip.
Proof.
  unfold _get_default_gateway_linux.
  destruct (proc_net_route env) as [| |s]; [done|done|].
  destruct (scan_routes_cases (tail (PyStr.readlines s)))
    as [[-> _]|(skipped & line & rest & iface & gateway & more & Hlines & Hskip & Hfields
                & [(g & Hint & Hg & ->)|[(_ & ->)|(g & _ & _ & ->)]])];
    [done| |done|done].
  cbn [except_OSError]. intros [= <-]. apply dotted_little_endian_quad.
Qed.

(** X1. Whenever the gateway decoder returns an address, the routing
    table has, after its header line and after lines that are passed
    over, an any-route entry; [int(gateway, 16)] of its gateway field is
    the number [g] that the hexadecimal digits of the field spell, [g] has
    at most 32 bits, and the address is a dotted quad: the four bytes of
    [g], lowest first, each between 0 and 255. *)
Theorem gateway_address_comes_from_first_entry env ip :
  _get_default_gateway_linux env = Ret (Some ip) →
  dotted_quad ip
  ∧ ∃ s skipped line rest iface gateway more,
      proc_net_route env = ReadText s
      ∧ tail (PyStr.readlines s) = skipped ++ line :: rest
      ∧ Forall passed_over skipped
      ∧ PyStr.split (PyStr.strip line) = iface :: "00000000" :: gateway :: more
      ∧ PyStr.int16 gateway = Ret (spelled gateway)
      ∧ spelled gateway < 2 ^ 32
      ∧ ip = dotted_little_endian (spelled gateway).
Proof.
  unfold _get_default_gateway_linux.
  destruct (proc_net_route env) as [| |s] eqn:Hroute; [done|done|].
  destruct (scan_routes_cases (tail (PyStr.readlines s)))
    as [[-> _]|(skipped & line & rest & iface & gateway & more & Hlines & Hskip & Hfields
                & [(g & Hint & Hg & ->)|[(_ & ->)|(g & _ & _ & ->)]])];
    [done| |done|done].
  cbn [except_OSError]. intros [= <-]. split; [apply dotted_little_endian_quad|].
  assert (g = spelled gateway) as -> by (apply int16_nonneg_spelled; [done|lia]).
  exists s, skipped, line, rest, iface, gateway, more.
  repeat (split; [done|]). split; [lia|done].
Qed.

Lemma gateway_address_comes_from_first_entry_witness :
  dotted_quad "192.168.1.254"
  ∧ ∃ s skipped line rest iface gateway more,
      proc_net_route (env_with_route route_table_home_gateway) = ReadText s
      ∧ tail (PyStr.readlines s) = skipped ++ line :: rest
      ∧ Forall passed_over skipped
      ∧ PyStr.split (PyStr.strip line) = iface :: "00000000" :: gateway :: more
      ∧ PyStr.int16 gateway = Ret (spelled gateway)
      ∧ spelled gateway < 2 ^ 32
      ∧ "192.168.1.254" = dotted_little_endian (spelled gateway).
Proof.
  apply (gateway_address_comes_from_first_entry
           (env_with_route route_table_home_gateway) "192.168.1.254").
  vm_compute. reflexivity.
Defined.

(** X2. The gateway decoder raises in three cases only: the routing
    table is not UTF-8 text ([UnicodeDecodeError]); the gateway field of
    the first any-route entry after the header is not a hexadecimal number
    ([ValueError]); or it is one, but negative or of more than 32 bits
    ([OverflowError]).  It never raises [OSError]. *)
Theorem gateway_decoder_failures env e :
  _get_default_gateway_linux env = Raise e →
  e ≠ OSError
  ∧ ((proc_net_route env = ReadDecodeError ∧ e = UnicodeDecodeError)
     ∨ ∃ s skipped line rest iface gateway more,
         proc_net_route env = ReadText s
         ∧ tail (PyStr.readlines s) = skipped ++ line :: rest
         ∧ Forall passed_over skipped
         ∧ PyStr.split (PyStr.strip line) = iface :: "00000000" :: gateway :: more
         ∧ ((PyStr.int16 gateway = Raise ValueError ∧ e = ValueError)
            ∨ (∃ g, PyStr.int16 gateway = Ret g ∧ ¬ (0 ≤ g < 2 ^ 32)
                    ∧ e = OverflowError))).
Proof.
  unfold _get_default_gateway_linux.
  destruct (proc_net_route env) as [| |s] eqn:Hroute; [done| |].
  { intros [= <-]. split; [done|]. by left. }
  destruct (scan_routes_cases (tail (PyStr.readlines s)))
    as [[-> _]|(skipped & line & rest & iface & gateway & more & Hlines & Hskip & Hfields
                & [(g & Hint & Hg & ->)|[(Hint & ->)|(g & Hint & Hg & ->)]])];
    [done|done| |].
  - cbn [except_OSError]. intros [= <-]. split; [done|]. right.
    exists s, skipped, line, rest, iface, gateway, more.
    repeat (split; [done|]). by left.
  - cbn [except_OSError]. intros [= <-]. split; [done|]. right.
    exists s, skipped, line, rest, iface, gateway, more.
    repeat (split; [done|]). right. by exists g.
Qed.

Lemma gateway_decoder_failures_witness : ValueError ≠ OSError.
Proof.
  apply (gateway_decoder_failures (env_with_route route_table_bad_gateway) ValueError).
  vm_compute. reflexivity.
Defined.

(** X3. The gateway decoder returns no address exactly when the routing
    table cannot be opened or holds, after its header line, no entry with
    at least three fields and destination [00000000]. *)
Theorem gateway_none_iff_no_default_route env :
  _get_default_gateway_linux env = Ret None ↔ no_default_route env.
Proof.
  split; [|apply gateway_none].
  unfold _get_default_gateway_linux, no_default_route.
  destruct (proc_net_route env) as [| |s]; [done|done|].
  destruct (scan_routes_cases (tail (PyStr.readlines s)))
    as [[_ Hall]|(skipped & line & rest & iface & gateway & more & Hlines & Hskip & Hfields
                  & [(g & Hint & Hg & ->)|[(Hint & ->)|(g & Hint & Hg & ->)]])];
    done.
Qed.

Lemma gateway_none_iff_no_default_route_witness :
  no_default_route (env_with_route route_header).
Proof.
  apply (proj1 (gateway_none_iff_no_default_route (env_with_route route_header))).
  vm_compute. reflexivity.
Defined.

(** X4. The gateway decoder looks at nothing but the lines between the
    header and the first any-route entry, and at that entry: two routing
    tables that agree there give the same result, whatever their header
    lines and whatever follows the entry. *)
Theorem gateway_depends_on_first_entry_only env1 env2 s1 s2 h1 h2 skipped line
    rest1 rest2 :
  proc_net_route env1 = ReadText s1 →
  proc_net_route env2 = ReadText s2 →
  PyStr.readlines s1 = h1 :: skipped ++ line :: rest1 →
  PyStr.readlines s2 = h2 :: skipped ++ line :: rest2 →
  Forall passed_over skipped →
  ¬ passed_over line →
  _get_default_gateway_linux env1 = _get_default_gateway_linux env2.
Proof.
  intros Hr1 Hr2 Hl1 Hl2 Hskip Hline. unfold _get_default_gateway_linux.
  rewrite Hr1, Hr2, Hl1, Hl2. cbn [tail].
  rewrite !scan_routes_passed_over by done.
  by rewrite (scan_routes_first line rest1), (scan_routes_first line rest2).
Qed.

Lemma gateway_depends_on_first_entry_only_witness :
  _get_default_gateway_linux (env_with_route route_table_loopback_gateway)
  = _get_default_gateway_linux
      (env_with_route
         (route_line ["no"; "header"]
          +:+ route_line ["eth0"; "000011AC"; "00000000"; "0001"; "0"; "0"; "0"; "0000FFFF"; "0"; "0"; "0"]
          +:+ route_line ["eth0"; "00000000"; "0100007F"; "0003"; "0"; "0"; "0"; "00000000"; "0"; "0"; "0"]
          +:+ route_line ["wlan0"; "00000000"; "FE01A8C0"; "0003"])).
Proof.
  eapply (gateway_depends_on_first_entry_only _ _ _ _ _ _
            [route_line ["eth0"; "000011AC"; "00000000"; "0001"; "0"; "0"; "0"; "0000FFFF"; "0"; "0"; "0"]]
            (route_line ["eth0"; "00000000"; "0100007F"; "0003"; "0"; "0"; "0"; "00000000"; "0"; "0"; "0"])).
  - reflexivity.
  - reflexivity.
  - vm_compute. reflexivity.
  - vm_compute. reflexivity.
  - constructor; [|constructor]. unfold passed_over. eval_line_fields. discriminate.
  - unfold passed_over. eval_line_fields. intros H. by apply H.
Defined.

Lemma host_resolver_cases env :
  (∃ h, environ env !! "VOICEVOX_HOST" = Some h ∧ h ≠ ""
        ∧ _default_voicevox_host env = Ret h)
  ∨ (truthy (environ env !! "VOICEVOX_HOST") = false
     ∧ ((is_Some (gethostbyname env "host.docker.internal")
         ∧ _default_voicevox_host env = Ret "host.docker.internal")
        ∨ (gethostbyname env "host.docker.internal" = None
           ∧ ((∃ ip, _get_default_gateway_linux env = Ret (Some ip)
                     ∧ _default_voicevox_host env = Ret ip)
              ∨ (_get_default_gateway_linux env = Ret None
                 ∧ _default_voicevox_host env = Ret "127.0.0.1")
              ∨ (∃ e, _get_default_gateway_linux env = Raise e
                      ∧ _default_voicevox_host env = Raise e))))).
Proof.
  destruct (truthy (environ env !! "VOICEVOX_HOST")) eqn:Hhost.
  { left. apply truthy_true in Hhost as (h & Hh & Hne). exists h.
    split; [done|]. split; [done|]. unfold _default_voicevox_host.
    by rewrite Hh, (truthy_some h Hne). }
  right. split; [done|].
  destruct (gethostbyname env "host.docker.internal") as [a|] eqn:Hdns.
  { left. split; [by eexists|]. unfold _default_voicevox_host, _resolve_host_or_none.
    by rewrite Hhost, Hdns. }
  right. split; [done|]. rewrite default_host_no_override by done.
  destruct (_get_default_gateway_linux env) as [[ip|]|e] eqn:Hgw.
  - left. exists ip. split; [done|].
    pose proof (gateway_address_is_quad env ip Hgw) as Hq.
    cbn [mbind res_bind]. rewrite truthy_some; [done|].
    destruct Hq as (a & b & c & d & _ & _ & _ & _ & ->). by destruct (pretty a).
  - right; left. by split.
  - right; right. by exists e.
Qed.

Lemma gateway_raise_classes env e :
  _get_default_gateway_linux env = Raise e →
  e = ValueError ∨ e = OverflowError ∨ e = UnicodeDecodeError.
Proof.
  unfold _get_default_gateway_linux.
  destruct (proc_net_route env) as [| |s]; [done|intros [= <-]; auto|].
  destruct (scan_routes_cases (tail (PyStr.readlines s)))
    as [[-> _]|(skipped & line & rest & iface & gateway & more & Hlines & Hskip & Hfields
                & [(g & Hint & Hg & ->)|[(Hint & ->)|(g & Hint & Hg & ->)]])];
    [done|done| |]; cbn [except_OSError]; intros [= <-]; auto.
Qed.

Lemma loopback_is_quad : dotted_quad "127.0.0.1".
Proof. exists 127, 0, 0, 1. repeat split; try lia. Qed.

(** X5. Whatever the host resolver returns is not empty, and it is the
    value of [VOICEVOX_HOST], or the alias [host.docker.internal], or a
    dotted quad (a decoded gateway or the loopback address). *)
Theorem resolved_host_is_never_empty env a :
  _default_voicevox_host env = Ret a →
  a ≠ ""
  ∧ (environ env !! "VOICEVOX_HOST" = Some a
     ∨ a = "host.docker.internal"
     ∨ dotted_quad a).
Proof.
  intros Ha.
  destruct (host_resolver_cases env)
    as [(h & Hh & Hne & Hres)
       |(Hhost & [[_ Hres]|(Hdns & [(ip & Hgw & Hres)|[(_ & Hres)|(e & _ & Hres)]])])];
    rewrite Hres in Ha; try discriminate Ha; injection Ha as <-.
  - split; [done|]. by left.
  - split; [done|]. right; by left.
  - pose proof (gateway_address_is_quad env ip Hgw) as Hq. split; [|by right; right].
    destruct Hq as (x & b & c & d & _ & _ & _ & _ & ->). by destruct (pretty x).
  - split; [done|]. right; right. apply loopback_is_quad.
Qed.

Lemma resolved_host_is_never_empty_witness :
  "127.0.0.1" ≠ ""
  ∧ (environ env_bare !! "VOICEVOX_HOST" = Some "127.0.0.1"
     ∨ "127.0.0.1" = "host.docker.internal"
     ∨ dotted_quad "127.0.0.1").
Proof.
  apply (resolved_host_is_never_empty env_bare "127.0.0.1"). reflexivity.
Defined.

(** X6. The host resolver raises only when [VOICEVOX_HOST] is unset or
    empty, the alias does not resolve and the gateway decoder raises; it
    then raises the decoder's exception, which is a [ValueError], an
    [OverflowError] or a [UnicodeDecodeError]. *)
Theorem host_resolver_fails_only_with_decoder env e :
  _default_voicevox_host env = Raise e →
  truthy (environ env !! "VOICEVOX_HOST") = false
  ∧ gethostbyname env "host.docker.internal" = None
  ∧ _get_default_gateway_linux env = Raise e
  ∧ (e = ValueError ∨ e = OverflowError ∨ e = UnicodeDecodeError).
Proof.
  intros He.
  destruct (host_resolver_cases env)
    as [(h & Hh & Hne & Hres)
       |(Hhost & [[_ Hres]|(Hdns & [(ip & Hgw & Hres)|[(_ & Hres)|(e' & Hgw & Hres)]])])];
    rewrite Hres in He; try discriminate He; injection He as <-.
  split; [done|]. split; [done|]. split; [done|]. by apply (gateway_raise_classes env).
Qed.

Lemma host_resolver_fails_only_with_decoder_witness :
  _get_default_gateway_linux (env_with_route route_table_bad_gateway) = Raise ValueError.
Proof.
  apply (host_resolver_fails_only_with_decoder
           (env_with_route route_table_bad_gateway) ValueError).
  vm_compute. reflexivity.
Defined.

Lemma lookup_unset_truthy (m : gmap string string) k n :
  m !! k = Some "" → truthy (delete k m !! n) = truthy (m !! n).
Proof.
  intros Hk. destruct (decide (k = n)) as [->|Hne].
  - by rewrite lookup_delete_eq, Hk.
  - by rewrite lookup_delete_ne.
Qed.

Lemma lookup_unset_or_else (m : gmap string string) k n d :
  m !! k = Some "" → or_else (delete k m !! n) d = or_else (m !! n) d.
Proof.
  intros Hk. destruct (decide (k = n)) as [->|Hne].
  - by rewrite lookup_delete_eq, Hk.
  - by rewrite lookup_delete_ne.
Qed.

Lemma lookup_unset_default (m : gmap string string) k n :
  m !! k = Some "" → default "" (delete k m !! n) = default "" (m !! n).
Proof.
  intros Hk. destruct (decide (k = n)) as [->|Hne].
  - by rewrite lookup_delete_eq, Hk.
  - by rewrite lookup_delete_ne.
Qed.

(** X7. An environment variable set to the empty string counts as not
    set: removing it changes neither the host the resolver returns nor the
    URL either script resolves. *)
Theorem empty_variable_counts_as_unset env cli name :
  environ env !! name = Some "" →
  _default_voicevox_host (unset name env) = _default_voicevox_host env
  ∧ Voicevox.resolve_url (unset name env) cli = Voicevox.resolve_url env cli
  ∧ Quotes.resolve_url (unset name env) cli = Quotes.resolve_url env cli.
Proof.
  intros Hname.
  assert (_default_voicevox_host (unset name env) = _default_voicevox_host env) as Hhost.
  { unfold _default_voicevox_host, _resolve_host_or_none, _get_default_gateway_linux.
    cbn [unset environ gethostbyname proc_net_route].
    by rewrite lookup_unset_truthy, lookup_unset_default. }
  split; [done|]. split.
  - unfold Voicevox.resolve_url, DEFAULT_VOICEVOX_URL, DEFAULT_VOICEVOX_PORT.
    rewrite Hhost. cbn [unset environ].
    destruct (_default_voicevox_host env) as [h|e]; [|done]. cbn [mbind res_bind].
    by rewrite !lookup_unset_or_else.
  - unfold Quotes.resolve_url, Quotes.args_url, Quotes.VOICEVOX_URL_DEFAULT.
    cbn [unset environ]. by rewrite lookup_unset_or_else.
Qed.

Lemma empty_variable_counts_as_unset_witness :
  Voicevox.resolve_url env_empty_url {| arg_url := None; arg_out := None |}
  = Ret "http://10.0.0.9:50021".
Proof.
  destruct (empty_variable_counts_as_unset env_empty_url
              {| arg_url := None; arg_out := None |} "VOICEVOX_URL") as (_ & H & _).
  - vm_compute. reflexivity.
  - rewrite <- H. vm_compute. reflexivity.
Defined.

(** X8. The host resolver runs when [generate_voicevox_voices.py] is
    loaded, before the command line is looked at: when it raises, the
    script ends with that exception and exit status 1 without any effect,
    whether or not [--url] or [VOICEVOX_URL] is given. *)
Theorem resolver_failure_stops_the_script svc env cli w e :
  _default_voicevox_host env = Raise e →
  Voicevox.script svc env cli w = (Raise e, w)
  ∧ exit_code (Voicevox.script svc env cli w).1 = 1.
Proof.
  intros He.
  assert (Voicevox.script svc env cli w = (Raise e, w)) as Hrun.
  { unfold Voicevox.script, Voicevox.resolve_url, DEFAULT_VOICEVOX_URL.
    rewrite bind_run. unfold lift. by rewrite He. }
  split; [done|]. rewrite Hrun. cbn [fst].
  destruct (host_resolver_cases env)
    as [(h & Hh & Hne & Hres)
       |(Hhost & [[_ Hres]|(Hdns & [(ip & Hgw & Hres)|[(_ & Hres)|(e' & Hgw & Hres)]])])];
    rewrite Hres in He; try discriminate He; injection He as <-.
  by destruct (gateway_raise_classes env e' Hgw) as [->|[->| ->]].
Qed.

Lemma resolver_failure_stops_the_script_witness :
  Voicevox.script svc_ok
    {| environ := {[ "VOICEVOX_URL" := "http://10.0.0.9:50021" ]};
       gethostbyname := λ _, None;
       proc_net_route := ReadText route_table_bad_gateway |}
    {| arg_url := Some "http://10.0.0.9:50021"; arg_out := None |} world0
  = (Raise ValueError, world0).
Proof.
  apply resolver_failure_stops_the_script. vm_compute. reflexivity.
Defined.



End ResolverMore.

(** ** The shape of a run *)

Section Shapes.

Variable svc : nat → request → reply.

Lemma calls_after_call req w : calls (after_call svc req w) = S (calls w).
Proof. reflexivity. Qed.

Lemma log_after_call req w :
  log (after_call svc req w) = log w ++ [Net req (svc (calls w) req)].
Proof. reflexivity. Qed.

(** The calls of one item of [generate_voicevox_voices.py]: the query
    call, then at most the synthesis call. *)
Lemma voicevox_fetch_shape url text w :
  let w1 := after_call svc (Voicevox.audio_query_request url text) w in
  (∃ e, Voicevox.fetch svc url text w = (Raise e, w1)
        ∧ (net_failure e ∨ e = RequestException ∨ e = JSONDecodeError))
  ∨ ∃ q r,
      (svc (calls w) (Voicevox.audio_query_request url text) = Replied r
       ∧ ¬ error_status (status r) ∧ json_body r = Some q)
      ∧ let req := Voicevox.synthesis_request url q in
        let w2 := after_call svc req w1 in
        (∃ e, Voicevox.fetch svc url text w = (Raise e, w2)
              ∧ (net_failure e ∨ e = RequestException))
        ∨ ∃ r2, svc (calls w1) req = Replied r2
                ∧ ¬ error_status (status r2)
                ∧ Voicevox.fetch svc url text w = (Ret (content r2), w2).
Proof.
  intros w1. unfold Voicevox.fetch, Voicevox.audio_query.
  rewrite bind_run, checked_run. fold w1.
  destruct (svc (calls w) (Voicevox.audio_query_request url text)) as [f|r] eqn:Hsvc.
  { left. eexists. split; [done|]. destruct f; cbn; auto. }
  destruct ((400 <=? status r) && (status r <? 600)) eqn:Hst.
  { left. eexists. split; [done|]. by left. }
  unfold json_of. destruct (json_body r) as [q|] eqn:Hjson.
  2:{ left. eexists. split; [done|]. auto. }
  right. exists q, r. split.
  { split; [done|]. split; [|done]. intros Herr.
    apply error_status_true in Herr. congruence. }
  cbn zeta. cbn [mret M_ret]. unfold Voicevox.synthesis. rewrite checked_run.
  destruct (svc (calls w1) (Voicevox.synthesis_request url q)) as [f|r2] eqn:Hsvc2.
  { left. eexists. split; [done|]. destruct f; cbn; auto. }
  destruct ((400 <=? status r2) && (status r2 <? 600)) eqn:Hst2.
  { left. eexists. split; [done|]. by left. }
  right. exists r2. split; [done|]. split; [|done].
  intros Herr. apply error_status_true in Herr. congruence.
Qed.

Lemma texts_of_app l1 l2 : texts_of (l1 ++ l2) = texts_of l1 ++ texts_of l2.
Proof. apply omap_app. Qed.

Lemma writes_only_audio_app l1 l2 :
  writes_only_audio l1 → writes_only_audio l2 → writes_only_audio (l1 ++ l2).
Proof.
  intros H1 H2 d n b Hin. apply elem_of_app in Hin as [Hin|Hin].
  - destruct (H1 _ _ _ Hin) as (req & r & Hnet & Hok & Hb).
    exists req, r. split; [|done]. apply elem_of_app. by left.
  - destruct (H2 _ _ _ Hin) as (req & r & Hnet & Hok & Hb).
    exists req, r. split; [|done]. apply elem_of_app. by right.
Qed.

Lemma writes_only_audio_none l : writes_of l = [] → writes_only_audio l.
Proof.
  intros Hnone d n b Hin.
  assert ((d, n, b) ∈ writes_of l) as Hw.
  { unfold writes_of. apply list_elem_of_omap. by exists (WriteBytes d n b). }
  rewrite Hnone in Hw. by apply elem_of_nil in Hw.
Qed.

(** What one turn of the loop of [generate_voicevox_voices.py] adds to
    the log. *)
Lemma voicevox_turn url out_dir filename text w r w' :
  Voicevox.generate_one svc url out_dir (filename, text) w = (r, w') →
  ∃ evs,
    log w' = log w ++ evs
    ∧ texts_of evs = [text]
    ∧ (length (requests_of evs) ≤ 2)%nat
    ∧ writes_only_audio evs
    ∧ ((∃ u, r = Ret u) ∧ (writes_of evs).*1 = [(Some out_dir, filename)]
       ∨ (∃ e, r = Raise e) ∧ writes_of evs = []).
Proof.
  unfold Voicevox.generate_one. rewrite bind_run, try_run.
  destruct (voicevox_fetch_shape url text w)
    as [(e & Hfetch & _)|(q & r1 & _ & [(e & Hfetch & _)|(r2 & Hsvc2 & Hok2 & Hfetch)])];
    rewrite Hfetch.
  - destruct e; cbn; intros [= <- <-]; eexists;
      (split; [unfold after_call, printed; cbn [log]; rewrite <- ?app_assoc; reflexivity|]);
      (split; [done|]); (split; [cbn; lia|]);
      (split; [by apply writes_only_audio_none|]); right; (split; [by eexists|done]).
  - destruct e; cbn; intros [= <- <-]; eexists;
      (split; [unfold after_call, printed; cbn [log]; rewrite <- ?app_assoc; reflexivity|]);
      (split; [done|]); (split; [cbn; lia|]);
      (split; [by apply writes_only_audio_none|]); right; (split; [by eexists|done]).
  - cbn. intros [= <- <-]. eexists.
    split; [unfold after_call, printed; cbn [log]; rewrite <- ?app_assoc; reflexivity|].
    split; [done|]. split; [cbn; lia|]. split; [|left; split; [by eexists|done]].
    intros d n b Hin. cbn in Hin.
    repeat (apply elem_of_cons in Hin as [Hin|Hin]; [try discriminate Hin|]);
      [|by apply elem_of_nil in Hin].
    injection Hin as -> -> ->. cbn in Hsvc2.
    eexists _, r2. split; [|done]. rewrite Hsvc2. right. by left.
Qed.

Lemma orderly_nil texts files : orderly texts files [].
Proof.
  split; [apply prefix_nil|]. split; [apply prefix_nil|]. split; [cbn; lia|].
  by apply writes_only_audio_none.
Qed.

(** A turn, then what the rest of the loop adds. *)
Lemma orderly_cons text name texts files evs1 evs2 (continued : bool) :
  texts_of evs1 = [text] →
  (length (requests_of evs1) ≤ 2)%nat →
  writes_only_audio evs1 →
  (if continued then (writes_of evs1).*1 = [name] else writes_of evs1 = [] ∧ evs2 = []) →
  orderly texts files evs2 →
  orderly (text :: texts) (name :: files) (evs1 ++ evs2).
Proof.
  intros Htexts Hcalls Haudio Hwrites (Ht & Hw & Hc & Ha).
  split; [|split; [|split]].
  - rewrite texts_of_app, Htexts. by apply prefix_cons.
  - rewrite writes_of_app, fmap_app. destruct continued.
    + rewrite Hwrites. by apply prefix_cons.
    + destruct Hwrites as [-> ->]. apply prefix_nil.
  - rewrite requests_of_app, length_app. cbn [length]. lia.
  - by apply writes_only_audio_app.
Qed.

Lemma voicevox_loop url out_dir lines n w r w' :
  Voicevox.generate_all svc url out_dir lines n w = (r, w') →
  ∃ evs, log w' = log w ++ evs
         ∧ orderly (map snd lines) (line_files out_dir lines) evs.
Proof.
  revert n w. induction lines as [|[filename text] rest IH]; intros n w.
  - intros [= <- <-]. exists []. split; [by rewrite app_nil_r|apply orderly_nil].
  - cbn [Voicevox.generate_all]. rewrite bind_run.
    destruct (Voicevox.generate_one svc url out_dir (filename, text) w)
      as [[u|e] w1] eqn:Hone.
    + destruct (voicevox_turn _ _ _ _ _ _ _ Hone)
        as (evs1 & Hlog1 & Ht & Hc & Ha & [[_ Hw]|[[e He] _]]); [|done].
      intros Hrest. destruct (IH _ _ Hrest) as (evs2 & Hlog2 & Hord).
      exists (evs1 ++ evs2). split; [by rewrite Hlog2, Hlog1, app_assoc|].
      by apply (orderly_cons text (Some out_dir, filename) _ _ _ _ true).
    + destruct (voicevox_turn _ _ _ _ _ _ _ Hone)
        as (evs1 & Hlog1 & Ht & Hc & Ha & [[[u Hu] _]|[_ Hw]]); [done|].
      intros [= <- <-]. exists evs1. split; [done|].
      rewrite <- (app_nil_r evs1).
      apply (orderly_cons text (Some out_dir, filename) _ _ _ _ false);
        [done|done|done|done|apply orderly_nil].
Qed.

Lemma voicevox_startup_shape url out_dir r w :
  Voicevox.startup svc url out_dir world0 = (r, w) →
  texts_of (log w) = [] ∧ writes_of (log w) = []
  ∧ requests_of (log w) = [Voicevox.speakers_request url].
Proof.
  rewrite startup_banner, try_run, check_run.
  destruct (svc _ _) as [[| |]|resp]; [..|destruct (_ && _)];
    cbn; intros [= <- <-]; done.
Qed.

(** The whole run of [generate_voicevox_voices.py], whatever the service
    does. *)
Lemma voicevox_run_orderly lines url out_dir :
  let w := (Voicevox.main_with svc lines url out_dir world0).2 in
  texts_of (log w) `prefix_of` map snd lines
  ∧ (writes_of (log w)).*1 `prefix_of` line_files out_dir lines
  ∧ (length (requests_of (log w)) ≤ 1 + 2 * length lines)%nat
  ∧ writes_only_audio (log w).
Proof.
  cbn zeta. unfold Voicevox.main_with. rewrite bind_run.
  destruct (Voicevox.startup svc url out_dir world0) as [[[]|e] ws] eqn:Hstart;
    destruct (voicevox_startup_shape _ _ _ _ Hstart) as (Ht0 & Hw0 & Hr0).
  2:{ cbn [snd]. rewrite Ht0, Hw0, Hr0. split; [apply prefix_nil|].
      split; [apply prefix_nil|]. split; [cbn; lia|].
      by apply writes_only_audio_none. }
  rewrite bind_run.
  destruct (Voicevox.generate_all svc url out_dir lines 0 ws) as [[g|e] w1] eqn:Hloop;
    destruct (voicevox_loop _ _ _ _ _ _ _ Hloop) as (evs & Hlog & Ht & Hw & Hc & Ha);
    rewrite length_map in Hc; cbn [snd print emit log].
  - rewrite Hlog, <- app_assoc, texts_of_app, writes_of_app, requests_of_app.
    rewrite Ht0, Hw0, Hr0, texts_of_app, writes_of_app, requests_of_app. cbn.
    rewrite !app_nil_r. split; [done|]. split; [done|]. split; [lia|].
    apply (writes_only_audio_app (log ws)); [by apply writes_only_audio_none|].
    apply writes_only_audio_app; [done|by apply writes_only_audio_none].
  - rewrite Hlog, texts_of_app, writes_of_app, requests_of_app, Ht0, Hw0, Hr0. cbn.
    split; [done|]. split; [done|]. split; [lia|].
    apply writes_only_audio_app; [by apply writes_only_audio_none|done].
Qed.

(** The calls of one line of [generate_quote_voices.py]. *)
Lemma quotes_fetch_shape voice_params url category line w :
  let w1 := after_call svc (Quotes.audio_query_request url line) w in
  (∃ e, Quotes.fetch svc voice_params url category line w = (Raise e, w1)
        ∧ (net_failure e ∨ e = RequestException ∨ e = JSONDecodeError
           ∨ e = AttributeError))
  ∨ ∃ q,
      let req := Quotes.synthesis_request url q in
      let w2 := after_call svc req w1 in
      (∃ e, Quotes.fetch svc voice_params url category line w = (Raise e, w2)
            ∧ (net_failure e ∨ e = RequestException))
      ∨ ∃ r2, svc (calls w1) req = Replied r2
              ∧ ¬ error_status (status r2)
              ∧ Quotes.fetch svc voice_params url category line w
                = (Ret (content r2), w2).
Proof.
  intros w1. unfold Quotes.fetch, Quotes.audio_query.
  rewrite bind_run, checked_run. fold w1.
  destruct (svc (calls w) (Quotes.audio_query_request url line)) as [f|r] eqn:Hsvc.
  { left. eexists. split; [done|]. destruct f; cbn; auto. }
  destruct ((400 <=? status r) && (status r <? 600)) eqn:Hst.
  { left. eexists. split; [done|]. by left. }
  unfold json_of. destruct (json_body r) as [q0|] eqn:Hjson.
  2:{ left. eexists. split; [done|]. auto. }
  cbn [mret M_ret]. rewrite bind_run. unfold lift.
  destruct (Quotes.apply_tuning (voice_params !! category) q0) as [q|e] eqn:Htune.
  2:{ left. exists e. split; [done|]. do 3 right.
      unfold Quotes.apply_tuning in Htune. by repeat case_match; simplify_eq. }
  right. exists q. cbn zeta. unfold Quotes.synthesis. rewrite checked_run.
  destruct (svc (calls w1) (Quotes.synthesis_request url q)) as [f|r2] eqn:Hsvc2.
  { left. eexists. split; [done|]. destruct f; cbn; auto. }
  destruct ((400 <=? status r2) && (status r2 <? 600)) eqn:Hst2.
  { left. eexists. split; [done|]. by left. }
  right. exists r2. split; [done|]. split; [|done].
  intros Herr. apply error_status_true in Herr. congruence.
Qed.

Lemma quotes_turn voice_params url out_dir category i line manifest w r w' :
  Quotes.generate_line svc voice_params url out_dir category i line manifest w = (r, w') →
  ∃ evs,
    log w' = log w ++ evs
    ∧ texts_of evs = [line]
    ∧ (length (requests_of evs) ≤ 2)%nat
    ∧ writes_only_audio evs
    ∧ ((∃ m, r = Ret m)
       ∧ (writes_of evs).*1 = [(Some out_dir, Quotes.filename_of category i)]
       ∨ (∃ e, r = Raise e) ∧ writes_of evs = []).
Proof.
  unfold Quotes.generate_line. rewrite try_run, bind_run.
  destruct (quotes_fetch_shape voice_params url category line w)
    as [(e & Hfetch & _)|(q & [(e & Hfetch & _)|(r2 & Hsvc2 & Hok2 & Hfetch)])];
    rewrite Hfetch.
  - destruct e; cbn; intros [= <- <-]; eexists;
      (split; [unfold after_call, printed; cbn [log]; rewrite <- ?app_assoc; reflexivity|]);
      (split; [done|]); (split; [cbn; lia|]);
      (split; [by apply writes_only_audio_none|]); right; (split; [by eexists|done]).
  - destruct e; cbn; intros [= <- <-]; eexists;
      (split; [unfold after_call, printed; cbn [log]; rewrite <- ?app_assoc; reflexivity|]);
      (split; [done|]); (split; [cbn; lia|]);
      (split; [by apply writes_only_audio_none|]); right; (split; [by eexists|done]).
  - cbn. intros [= <- <-]. eexists.
    split; [unfold after_call, printed; cbn [log]; rewrite <- ?app_assoc; reflexivity|].
    split; [done|]. split; [cbn; lia|]. split; [|left; split; [by eexists|done]].
    intros d n b Hin. cbn in Hin.
    repeat (apply elem_of_cons in Hin as [Hin|Hin]; [try discriminate Hin|]);
      [|by apply elem_of_nil in Hin].
    injection Hin as -> -> ->. cbn in Hsvc2.
    eexists _, r2. split; [|done]. rewrite Hsvc2. right. by left.
Qed.

(** A finished stretch of the table, then what the rest adds. *)
Lemma orderly_app texts1 files1 texts2 files2 evs1 evs2 :
  texts_of evs1 = texts1 →
  (writes_of evs1).*1 = files1 →
  (length (requests_of evs1) ≤ 2 * length texts1)%nat →
  writes_only_audio evs1 →
  orderly texts2 files2 evs2 →
  orderly (texts1 ++ texts2) (files1 ++ files2) (evs1 ++ evs2).
Proof.
  intros Ht1 Hw1 Hc1 Ha1 (Ht & Hw & Hc & Ha).
  split; [|split; [|split]].
  - rewrite texts_of_app, Ht1. by apply prefix_app.
  - rewrite writes_of_app, fmap_app, Hw1. by apply prefix_app.
  - rewrite requests_of_app, !length_app. lia.
  - by apply writes_only_audio_app.
Qed.

(** An unfinished stretch, after which nothing more is done. *)
Lemma orderly_stop texts1 files1 texts2 files2 evs :
  orderly texts1 files1 evs → orderly (texts1 ++ texts2) (files1 ++ files2) evs.
Proof.
  intros (Ht & Hw & Hc & Ha). split; [|split; [|split]]; [| | |done].
  - by apply prefix_app_r.
  - by apply prefix_app_r.
  - rewrite length_app. lia.
Qed.

Lemma quotes_lines_loop voice_params url out_dir category lines i manifest w r w' :
  Quotes.generate_lines svc voice_params url out_dir category lines i manifest w = (r, w') →
  ∃ evs,
    log w' = log w ++ evs
    ∧ orderly lines
        (map (λ name, (Some out_dir, name)) (filenames_from category i (length lines))) evs
    ∧ (∀ m, r = Ret m →
         texts_of evs = lines
         ∧ (writes_of evs).*1
           = map (λ name, (Some out_dir, name)) (filenames_from category i (length lines))).
Proof.
  revert i manifest w. induction lines as [|line rest IH]; intros i manifest w.
  - intros [= <- <-]. exists [].
    split; [by rewrite app_nil_r|]. split; [apply orderly_nil|done].
  - cbn [Quotes.generate_lines]. rewrite bind_run.
    destruct (Quotes.generate_line svc voice_params url out_dir category i line manifest w)
      as [[m1|e] w1] eqn:Hone.
    + destruct (quotes_turn _ _ _ _ _ _ _ _ _ _ Hone)
        as (evs1 & Hlog1 & Ht & Hc & Ha & [[_ Hw]|[[e He] _]]); [|done].
      intros Hrest. destruct (IH _ _ _ Hrest) as (evs2 & Hlog2 & Hord & Hdone).
      exists (evs1 ++ evs2). split; [by rewrite Hlog2, Hlog1, app_assoc|]. split.
      * cbn [length filenames_from seq map].
        by apply (orderly_cons line (Some out_dir, Quotes.filename_of category i)
                    _ _ _ _ true).
      * intros m ->. destruct (Hdone m eq_refl) as [Ht2 Hw2].
        rewrite texts_of_app, writes_of_app, fmap_app, Ht, Hw, Ht2, Hw2. done.
    + destruct (quotes_turn _ _ _ _ _ _ _ _ _ _ Hone)
        as (evs1 & Hlog1 & Ht & Hc & Ha & [[[m Hm] _]|[_ Hw]]); [done|].
      intros [= <- <-]. exists evs1. split; [done|]. split; [|done].
      rewrite <- (app_nil_r evs1). cbn [length filenames_from seq map].
      apply (orderly_cons line (Some out_dir, Quotes.filename_of category i)
               _ _ _ _ false); [done|done|done|done|apply orderly_nil].
Qed.

Lemma quotes_categories_loop voice_params url out_dir quotes manifest w r w' :
  Quotes.generate_categories svc voice_params url out_dir quotes manifest w = (r, w') →
  ∃ evs,
    log w' = log w ++ evs
    ∧ orderly (all_lines quotes) (quote_files out_dir quotes) evs
    ∧ (∀ m, r = Ret m →
         texts_of evs = all_lines quotes
         ∧ (writes_of evs).*1 = quote_files out_dir quotes).
Proof.
  revert manifest w. induction quotes as [|[category lines] rest IH]; intros manifest w.
  - intros [= <- <-]. exists [].
    split; [by rewrite app_nil_r|]. split; [apply orderly_nil|done].
  - cbn [Quotes.generate_categories]. rewrite bind_run.
    destruct (Quotes.generate_lines svc voice_params url out_dir category lines 0
                (<[category:=[]]> manifest) w) as [[m1|e] w1] eqn:Hlines;
      destruct (quotes_lines_loop _ _ _ _ _ _ _ _ _ _ Hlines)
        as (evs1 & Hlog1 & Hord1 & Hdone1).
    + intros Hrest. destruct (IH _ _ Hrest) as (evs2 & Hlog2 & Hord2 & Hdone2).
      destruct (Hdone1 m1 eq_refl) as [Ht1 Hw1].
      exists (evs1 ++ evs2). split; [by rewrite Hlog2, Hlog1, app_assoc|].
      cbn [all_lines quote_files flat_map snd]. split.
      * destruct Hord1 as (_ & _ & Hc1 & Ha1). by apply orderly_app.
      * intros m ->. destruct (Hdone2 m eq_refl) as [Ht2 Hw2].
        by rewrite texts_of_app, writes_of_app, fmap_app, Ht1, Hw1, Ht2, Hw2.
    + intros [= <- <-]. exists evs1. split; [done|]. split; [|done].
      cbn [all_lines quote_files flat_map snd]. by apply orderly_stop.
Qed.

Lemma emit_print_run e st m w :
  log ((emit e ≫= λ _, print st m) w).2 = log w ++ [e; Print st m].
Proof. unfold mbind, M_bind, emit, print. cbn. by rewrite <- app_assoc. Qed.

Lemma quotes_startup_shape url out_dir r w :
  Quotes.startup svc url out_dir world0 = (r, w) →
  texts_of (log w) = [] ∧ writes_of (log w) = []
  ∧ requests_of (log w) = [Quotes.version_request url].
Proof.
  rewrite quotes_startup_banner, version_check_run. cbn zeta.
  destruct (svc _ _) as [f|resp]; [|destruct (_ && _)];
    cbn; intros [= <- <-]; done.
Qed.

(** The whole run of [generate_quote_voices.py], whatever the service
    does. *)
Lemma quotes_run_orderly quotes voice_params arg_url out_dir :
  let w := (Quotes.main_with svc quotes voice_params arg_url out_dir world0).2 in
  texts_of (log w) `prefix_of` all_lines quotes
  ∧ (writes_of (log w)).*1 `prefix_of` quote_files out_dir quotes
  ∧ (length (requests_of (log w)) ≤ 1 + 2 * length (all_lines quotes))%nat
  ∧ writes_only_audio (log w).
Proof.
  cbn zeta. unfold Quotes.main_with. rewrite bind_run.
  set (url := PyStr.rstrip_char "/" arg_url).
  destruct (quotes_startup_returns svc url out_dir) as [ws Hstart]. rewrite Hstart.
  destruct (quotes_startup_shape _ _ _ _ Hstart) as (Ht0 & Hw0 & Hr0).
  unfold Quotes.batch. rewrite bind_run.
  destruct (Quotes.generate_categories svc voice_params url out_dir quotes ∅ ws)
    as [[m|e] w1] eqn:Hloop;
    destruct (quotes_categories_loop _ _ _ _ _ _ _ _ Hloop)
      as (evs & Hlog & (Ht & Hw & Hc & Ha) & _);
    cbn [snd print emit log mbind M_bind].
  - rewrite emit_print_run, Hlog, <- !app_assoc, texts_of_app, writes_of_app, requests_of_app.
    rewrite Ht0, Hw0, Hr0, texts_of_app, writes_of_app, requests_of_app. cbn.
    rewrite !app_nil_r. split; [done|]. split; [done|]. split; [lia|].
    apply (writes_only_audio_app (log ws)); [by apply writes_only_audio_none|].
    apply writes_only_audio_app; [done|by apply writes_only_audio_none].
  - rewrite Hlog, texts_of_app, writes_of_app, requests_of_app, Ht0, Hw0, Hr0. cbn.
    split; [done|]. split; [done|]. split; [lia|].
    apply writes_only_audio_app; [by apply writes_only_audio_none|done].
Qed.

End Shapes.

(** ** Every run, whatever the service does *)

(** X9. Both batch scripts work through their table in order: in any
    run, whatever the service answers, the texts sent to the query step
    are an initial segment of the texts of the table, in table order, each
    sent once. *)
Theorem lines_are_queried_in_table_order svc :
  (∀ lines url out_dir,
     texts_of (log (Voicevox.main_with svc lines url out_dir world0).2)
     `prefix_of` map snd lines)
  ∧ (∀ quotes voice_params arg_url out_dir,
       texts_of (log (Quotes.main_with svc quotes voice_params arg_url out_dir world0).2)
       `prefix_of` all_lines quotes).
Proof.
  split.
  - intros lines url out_dir. apply (voicevox_run_orderly svc lines url out_dir).
  - intros quotes voice_params arg_url out_dir.
    apply (quotes_run_orderly svc quotes voice_params arg_url out_dir).
Qed.

(** X10. In any run of either batch script the files written are an
    initial segment of the files of the table, in table order: the file
    of an entry is written only after the files of all earlier entries,
    and the run never goes back to an earlier entry. *)
Theorem files_are_written_in_table_order svc :
  (∀ lines url out_dir,
     (writes_of (log (Voicevox.main_with svc lines url out_dir world0).2)).*1
     `prefix_of` line_files out_dir lines)
  ∧ (∀ quotes voice_params arg_url out_dir,
       (writes_of
          (log (Quotes.main_with svc quotes voice_params arg_url out_dir world0).2)).*1
       `prefix_of` quote_files out_dir quotes).
Proof.
  split.
  - intros lines url out_dir. apply (voicevox_run_orderly svc lines url out_dir).
  - intros quotes voice_params arg_url out_dir.
    apply (quotes_run_orderly svc quotes voice_params arg_url out_dir).
Qed.

(** X11. Neither batch script retries: a run makes one health-check call
    and at most two calls per entry of its table. *)
Theorem no_call_is_retried svc :
  (∀ lines url out_dir,
     (length (requests_of (log (Voicevox.main_with svc lines url out_dir world0).2))
      ≤ 1 + 2 * length lines)%nat)
  ∧ (∀ quotes voice_params arg_url out_dir,
       (length
          (requests_of
             (log (Quotes.main_with svc quotes voice_params arg_url out_dir world0).2))
        ≤ 1 + 2 * length (all_lines quotes))%nat).
Proof.
  split.
  - intros lines url out_dir. apply (voicevox_run_orderly svc lines url out_dir).
  - intros quotes voice_params arg_url out_dir.
    apply (quotes_run_orderly svc quotes voice_params arg_url out_dir).
Qed.

(** X12. Apart from the manifest of [generate_quote_voices.py], the two
    scripts under [scripts/] write nothing but audio they received: in
    any run, every audio file written holds the body of a response
    received in that run that carries no error status;
    [generate_voicevox_voices.py] writes no other file, and
    [generate_quote_voices.py] at most one, [manifest.json] in the output
    directory. *)
Theorem files_hold_received_audio svc :
  (∀ lines url out_dir,
     let l := log (Voicevox.main_with svc lines url out_dir world0).2 in
     writes_only_audio l ∧ manifests_of l = [])
  ∧ (∀ quotes voice_params arg_url out_dir,
       let l := log (Quotes.main_with svc quotes voice_params arg_url out_dir world0).2 in
       writes_only_audio l
       ∧ (manifests_of l = [] ∨ ∃ m, manifests_of l = [(out_dir, "manifest.json", m)])).
Proof.
  split.
  - intros lines url out_dir. cbn zeta.
    split; [apply (voicevox_run_orderly svc lines url out_dir)|].
    apply manifests_of_none, emits_from_start.
    eapply emits_mono; [|apply main_events].
    intros e He. by eapply before_manifest_not_manifest.
  - intros quotes voice_params arg_url out_dir. cbn zeta.
    split; [apply (quotes_run_orderly svc quotes voice_params arg_url out_dir)|].
    unfold Quotes.main_with. rewrite bind_run.
    set (url := PyStr.rstrip_char "/" arg_url).
    destruct (quotes_startup_returns svc url out_dir) as [ws Hstart]. rewrite Hstart.
    destruct (quotes_startup_writes_nothing _ _ _ _ _ Hstart) as [_ Hms].
    destruct (Quotes.batch svc quotes voice_params url out_dir ws) as [r w] eqn:Hbatch.
    destruct (batch_result _ _ _ _ _ _ _ _ Hbatch) as [Hok Hfail]. cbn [snd].
    destruct r as [[]|e].
    + right. destruct (Hok eq_refl) as (pre & m & -> & Hpre & _). exists m.
      rewrite manifests_of_app, Hpre, Hms. reflexivity.
    + left. rewrite Hfail by done. exact Hms.
Qed.

(** ** Runs that end normally *)

Section Complete.

Variable svc : nat → request → reply.

Lemma voicevox_turn_done url out_dir filename text w u w' :
  Voicevox.generate_one svc url out_dir (filename, text) w = (Ret u, w') →
  ∃ evs,
    log w' = log w ++ evs
    ∧ texts_of evs = [text]
    ∧ length (requests_of evs) = 2%nat
    ∧ (writes_of evs).*1 = [(Some out_dir, filename)].
Proof.
  unfold Voicevox.generate_one. rewrite bind_run, try_run.
  destruct (voicevox_fetch_shape svc url text w)
    as [(e & Hfetch & _)|(q & r1 & _ & [(e & Hfetch & _)|(r2 & Hsvc2 & Hok2 & Hfetch)])];
    rewrite Hfetch.
  - destruct e; cbn; intros H; discriminate H.
  - destruct e; cbn; intros H; discriminate H.
  - cbn. intros [= <- <-]. eexists.
    split; [unfold after_call, printed; cbn [log]; rewrite <- ?app_assoc; reflexivity|].
    done.
Qed.

Lemma voicevox_loop_done url out_dir lines n w g w' :
  Voicevox.generate_all svc url out_dir lines n w = (Ret g, w') →
  ∃ evs,
    log w' = log w ++ evs
    ∧ texts_of evs = map snd lines
    ∧ length (requests_of evs) = (2 * length lines)%nat
    ∧ (writes_of evs).*1 = line_files out_dir lines
    ∧ g = (n + length lines)%nat.
Proof.
  revert n w. induction lines as [|[filename text] rest IH]; intros n w.
  - intros [= <- <-]. exists []. rewrite app_nil_r. repeat split; cbn; lia.
  - cbn [Voicevox.generate_all]. rewrite bind_run.
    destruct (Voicevox.generate_one svc url out_dir (filename, text) w)
      as [[u|e] w1] eqn:Hone; [|done].
    destruct (voicevox_turn_done _ _ _ _ _ _ _ Hone) as (evs1 & Hlog1 & Ht1 & Hc1 & Hw1).
    intros Hrest. destruct (IH _ _ Hrest) as (evs2 & Hlog2 & Ht2 & Hc2 & Hw2 & ->).
    exists (evs1 ++ evs2). split; [by rewrite Hlog2, Hlog1, app_assoc|].
    rewrite texts_of_app, requests_of_app, writes_of_app, fmap_app, length_app.
    rewrite Ht1, Ht2, Hc1, Hc2, Hw1, Hw2. cbn [length]. repeat split; lia.
Qed.

Lemma quotes_turn_done voice_params url out_dir category i line manifest w m w' :
  Quotes.generate_line svc voice_params url out_dir category i line manifest w = (Ret m, w') →
  ∃ evs,
    log w' = log w ++ evs
    ∧ texts_of evs = [line]
    ∧ length (requests_of evs) = 2%nat
    ∧ (writes_of evs).*1 = [(Some out_dir, Quotes.filename_of category i)].
Proof.
  unfold Quotes.generate_line. rewrite try_run, bind_run.
  destruct (quotes_fetch_shape svc voice_params url category line w)
    as [(e & Hfetch & _)|(q & [(e & Hfetch & _)|(r2 & Hsvc2 & Hok2 & Hfetch)])];
    rewrite Hfetch.
  - destruct e; cbn; intros H; discriminate H.
  - destruct e; cbn; intros H; discriminate H.
  - cbn. intros [= <- <-]. eexists.
    split; [unfold after_call, printed; cbn [log]; rewrite <- ?app_assoc; reflexivity|].
    done.
Qed.

Lemma quotes_lines_done voice_params url out_dir category lines i manifest w m w' :
  Quotes.generate_lines svc voice_params url out_dir category lines i manifest w = (Ret m, w') →
  ∃ evs,
    log w' = log w ++ evs
    ∧ texts_of evs = lines
    ∧ length (requests_of evs) = (2 * length lines)%nat
    ∧ (writes_of evs).*1
      = map (λ name, (Some out_dir, name)) (filenames_from category i (length lines)).
Proof.
  revert i manifest w. induction lines as [|line rest IH]; intros i manifest w.
  - intros [= <- <-]. exists []. by rewrite app_nil_r.
  - cbn [Quotes.generate_lines]. rewrite bind_run.
    destruct (Quotes.generate_line svc voice_params url out_dir category i line manifest w)
      as [[m1|e] w1] eqn:Hone; [|done].
    destruct (quotes_turn_done _ _ _ _ _ _ _ _ _ _ Hone) as (evs1 & Hlog1 & Ht1 & Hc1 & Hw1).
    intros Hrest. destruct (IH _ _ _ Hrest) as (evs2 & Hlog2 & Ht2 & Hc2 & Hw2).
    exists (evs1 ++ evs2). split; [by rewrite Hlog2, Hlog1, app_assoc|].
    rewrite texts_of_app, requests_of_app, writes_of_app, fmap_app, length_app.
    rewrite Ht1, Ht2, Hc1, Hc2, Hw1, Hw2. cbn [length]. repeat split; lia.
Qed.

Lemma quotes_categories_done voice_params url out_dir quotes manifest w m w' :
  Quotes.generate_categories svc voice_params url out_dir quotes manifest w = (Ret m, w') →
  ∃ evs,
    log w' = log w ++ evs
    ∧ texts_of evs = all_lines quotes
    ∧ length (requests_of evs) = (2 * length (all_lines quotes))%nat
    ∧ (writes_of evs).*1 = quote_files out_dir quotes.
Proof.
  revert manifest w. induction quotes as [|[category lines] rest IH]; intros manifest w.
  - intros [= <- <-]. exists []. by rewrite app_nil_r.
  - cbn [Quotes.generate_categories]. rewrite bind_run.
    destruct (Quotes.generate_lines svc voice_params url out_dir category lines 0
                (<[category:=[]]> manifest) w) as [[m1|e] w1] eqn:Hlines; [|done].
    destruct (quotes_lines_done _ _ _ _ _ _ _ _ _ _ Hlines)
      as (evs1 & Hlog1 & Ht1 & Hc1 & Hw1).
    intros Hrest. destruct (IH _ _ Hrest) as (evs2 & Hlog2 & Ht2 & Hc2 & Hw2).
    exists (evs1 ++ evs2). split; [by rewrite Hlog2, Hlog1, app_assoc|].
    rewrite texts_of_app, requests_of_app, writes_of_app, fmap_app, length_app.
    rewrite Ht1, Ht2, Hc1, Hc2, Hw1, Hw2.
    unfold all_lines. cbn [quote_files flat_map snd]. rewrite length_app.
    repeat split; lia.
Qed.

(** X13. A run of [generate_voicevox_voices.py] that ends normally is
    complete: it has queried the text of every entry of the table and
    written the file of every entry, both in table order and nothing
    else, with the health check and two calls per entry, and its last
    line reports the number of entries. *)
Theorem voicevox_normal_end_is_complete lines url out_dir w :
  Voicevox.main_with svc lines url out_dir world0 = (Ret tt, w) →
  texts_of (log w) = map snd lines
  ∧ (writes_of (log w)).*1 = line_files out_dir lines
  ∧ length (requests_of (log w)) = (1 + 2 * length lines)%nat
  ∧ last (log w) = Some (Print Stdout (MsgDoneCount (length lines))).
Proof.
  unfold Voicevox.main_with. rewrite bind_run.
  destruct (Voicevox.startup svc url out_dir world0) as [[[]|e] ws] eqn:Hstart; [|done].
  destruct (voicevox_startup_shape _ _ _ _ _ Hstart) as (Ht0 & Hw0 & Hr0).
  rewrite bind_run.
  destruct (Voicevox.generate_all svc url out_dir lines 0 ws) as [[g|e] w1] eqn:Hloop;
    [|done].
  destruct (voicevox_loop_done _ _ _ _ _ _ _ Hloop) as (evs & Hlog & Ht & Hc & Hw & ->).
  unfold print, emit. intros [= <-]. cbn [log].
  rewrite Hlog, last_snoc.
  rewrite !texts_of_app, !writes_of_app, !requests_of_app, !fmap_app, !length_app.
  rewrite Ht0, Hw0, Hr0, Ht, Hw, Hc. cbn. rewrite !app_nil_r. done.
Qed.

(** X14. A run of [generate_quote_voices.py] that ends normally is
    complete: it has queried every line of every category and written
    the file of every line, both in table order and nothing else, with
    the version check and two calls per line, and its last line is
    [Done.]. *)
Theorem quotes_normal_end_is_complete quotes voice_params arg_url out_dir w :
  Quotes.main_with svc quotes voice_params arg_url out_dir world0 = (Ret tt, w) →
  texts_of (log w) = all_lines quotes
  ∧ (writes_of (log w)).*1 = quote_files out_dir quotes
  ∧ length (requests_of (log w)) = (1 + 2 * length (all_lines quotes))%nat
  ∧ last (log w) = Some (Print Stdout MsgDone).
Proof.
  unfold Quotes.main_with. rewrite bind_run.
  set (url := PyStr.rstrip_char "/" arg_url).
  destruct (quotes_startup_returns svc url out_dir) as [ws Hstart]. rewrite Hstart.
  destruct (quotes_startup_shape _ _ _ _ _ Hstart) as (Ht0 & Hw0 & Hr0).
  unfold Quotes.batch. rewrite bind_run.
  destruct (Quotes.generate_categories svc voice_params url out_dir quotes ∅ ws)
    as [[m|e] w1] eqn:Hloop; [|done].
  destruct (quotes_categories_done _ _ _ _ _ _ _ _ Hloop) as (evs & Hlog & Ht & Hc & Hw).
  intros Hend.
  assert (log w = log w1 ++ [WriteManifest out_dir "manifest.json" m; Print Stdout MsgDone])
    as ->.
  { pose proof (emit_print_run (WriteManifest out_dir "manifest.json" m)
                  Stdout MsgDone w1) as Hl.
    by rewrite Hend in Hl. }
  rewrite Hlog.
  rewrite !texts_of_app, !writes_of_app, !requests_of_app, !fmap_app, !length_app.
  rewrite Ht0, Hw0, Hr0, Ht, Hw, Hc. cbn. rewrite !app_nil_r.
  split; [done|]. split; [done|]. split; [lia|].
  change [WriteManifest out_dir "manifest.json" m; Print Stdout MsgDone]
    with ([WriteManifest out_dir "manifest.json" m] ++ [Print Stdout MsgDone]).
  by rewrite !app_assoc, last_snoc.
Qed.

End Complete.

Lemma voicevox_normal_end_is_complete_witness :
  let run := Voicevox.main_with svc_ok Voicevox.LINES "http://127.0.0.1:50021" "out"
               world0 in
  run.1 = Ret tt
  ∧ texts_of (log run.2) = map snd Voicevox.LINES
  ∧ (writes_of (log run.2)).*1 = line_files "out" Voicevox.LINES
  ∧ length (requests_of (log run.2)) = (1 + 2 * length Voicevox.LINES)%nat
  ∧ last (log run.2) = Some (Print Stdout (MsgDoneCount (length Voicevox.LINES))).
Proof.
  cbv zeta.
  assert ((Voicevox.main_with svc_ok Voicevox.LINES "http://127.0.0.1:50021" "out"
             world0).1 = Ret tt) as Hend by (vm_compute; reflexivity).
  split; [exact Hend|].
  apply (voicevox_normal_end_is_complete svc_ok Voicevox.LINES
           "http://127.0.0.1:50021" "out").
  exact (run_ends _ _ Hend).
Defined.

Lemma quotes_normal_end_is_complete_witness :
  let run := Quotes.main_with svc_ok Quotes.QUOTES Quotes.VOICE_PARAMS
               "http://127.0.0.1:50021/" "out" world0 in
  run.1 = Ret tt
  ∧ texts_of (log run.2) = all_lines Quotes.QUOTES
  ∧ (writes_of (log run.2)).*1 = quote_files "out" Quotes.QUOTES
  ∧ length (requests_of (log run.2)) = (1 + 2 * length (all_lines Quotes.QUOTES))%nat
  ∧ last (log run.2) = Some (Print Stdout MsgDone).
Proof.
  cbv zeta.
  assert ((Quotes.main_with svc_ok Quotes.QUOTES Quotes.VOICE_PARAMS
             "http://127.0.0.1:50021/" "out" world0).1 = Ret tt) as Hend
    by (vm_compute; reflexivity).
  split; [exact Hend|].
  apply (quotes_normal_end_is_complete svc_ok Quotes.QUOTES Quotes.VOICE_PARAMS
           "http://127.0.0.1:50021/" "out").
  exact (run_ends _ _ Hend).
Defined.

(** ** update_voices.py *)

Section Update.

Import UpdateVoices.
Variable svc : nat → request → reply.

Lemma local_events_app l1 l2 :
  local_events (l1 ++ l2) = local_events l1 ++ local_events l2.
Proof. apply omap_app. Qed.

Lemma emit3_run a st m c w :
  (emit a ≫= λ _, print st m ≫= λ _, emit c) w
  = (Ret tt, {| calls := calls w; log := log w ++ [a; Print st m; c] |}).
Proof.
  unfold mbind, M_bind, emit, print. cbn. by rewrite <- !app_assoc.
Qed.

(** [generate_wav], by what the service answers. *)
Lemma generate_wav_shape v w :
  let w1 := after_call svc (audio_query_request v) w in
  (∃ e, generate_wav svc v w = (Raise e, w1))
  ∨ ∃ q,
      let w2 := after_call svc (synthesis_request v q) w1 in
      (∃ e, generate_wav svc v w = (Raise e, w2))
      ∨ ∃ r2, svc (calls w1) (synthesis_request v q) = Replied r2
              ∧ generate_wav svc v w
                = (Ret tt,
                   {| calls := calls w2;
                      log := log w2 ++ [WriteBytes None (filename v) (content r2);
                                        Print Stdout (MsgGeneratedName (filename v));
                                        Sleep 500] |}).
Proof.
  intros w1. unfold generate_wav. rewrite bind_run, http_run. fold w1.
  destruct (svc (calls w) (audio_query_request v)) as [f|r]; [left; by eexists|].
  rewrite bind_run. unfold json_of.
  destruct (json_body r) as [q0|]; [|left; by eexists].
  cbn [mret M_ret]. rewrite bind_run. unfold lift.
  destruct (tune v q0) as [q|e]; [|left; by eexists].
  right. exists q. cbn zeta. rewrite bind_run, http_run.
  destruct (svc (calls w1) (synthesis_request v q)) as [f|r2] eqn:Hsvc2;
    [left; by eexists|].
  right. exists r2. split; [done|]. by rewrite emit3_run.
Qed.

(** What one voice adds to the log. *)
Lemma generate_wav_turn v w r w' :
  generate_wav svc v w = (r, w') →
  ∃ evs,
    log w' = log w ++ evs
    ∧ local_events evs = flat_map voice_block (writes_of evs)
    ∧ ((∃ u, r = Ret u)
       ∧ (writes_of evs).*1 = [(None, filename v)]
       ∧ length (requests_of evs) = 2%nat
       ∨ (∃ e, r = Raise e) ∧ writes_of evs = []
         ∧ (length (requests_of evs) ≤ 2)%nat).
Proof.
  destruct (generate_wav_shape v w)
    as [(e & ->)|(q & [(e & ->)|(r2 & _ & ->)])]; intros [= <- <-]; eexists;
    (split; [unfold after_call; cbn [log]; rewrite <- ?app_assoc; reflexivity|]);
    (split; [reflexivity|]).
  - right. split; [by eexists|]. split; [done|cbn; lia].
  - right. split; [by eexists|]. split; [done|cbn; lia].
  - left. split; [by eexists|done].
Qed.

Lemma generate_each_turns vs w r w' :
  generate_each svc vs w = (r, w') →
  ∃ evs,
    log w' = log w ++ evs
    ∧ local_events evs = flat_map voice_block (writes_of evs)
    ∧ (writes_of evs).*1 `prefix_of` voice_files vs
    ∧ (length (requests_of evs) ≤ 2 * length vs)%nat
    ∧ (r = Ret tt →
       (writes_of evs).*1 = voice_files vs
       ∧ length (requests_of evs) = (2 * length vs)%nat).
Proof.
  revert w. induction vs as [|v rest IH]; intros w.
  - intros [= <- <-]. exists []. by rewrite app_nil_r.
  - cbn [generate_each]. rewrite bind_run.
    destruct (generate_wav svc v w) as [[u|e] w1] eqn:Hone;
      destruct (generate_wav_turn _ _ _ _ Hone)
        as (evs1 & Hlog1 & Hl1 & [([u' Hu] & Hw1 & Hc1)|([e' He] & Hw1 & Hc1)]);
      try discriminate.
    + intros Hrest.
      destruct (IH _ Hrest) as (evs2 & Hlog2 & Hl2 & Hw2 & Hc2 & Hdone).
      exists (evs1 ++ evs2). split; [by rewrite Hlog2, Hlog1, app_assoc|].
      rewrite local_events_app, writes_of_app, requests_of_app, fmap_app, !length_app.
      rewrite flat_map_app, Hl1, Hl2, Hw1, Hc1.
      split; [done|]. split; [by apply prefix_cons|]. split; [cbn [length]; lia|].
      intros ->. destruct (Hdone eq_refl) as [-> ->]. split; [done|]. cbn [length]. lia.
    + intros [= <- <-]. exists evs1. split; [done|]. split; [done|].
      rewrite Hw1. split; [apply prefix_nil|]. split; [cbn [length]; lia|]. done.
Qed.

(** X15. [update_voices.py] works through its voices in order and
    stops at the first exception: in any run the files written are an
    initial segment of the files of the voices, in order; apart from its
    network calls the run does nothing but, for each file it writes and in
    this order, write the file, print the line that reports it and pause
    for half a second, so that every write is followed by a pause and
    there is no other pause; and no voice takes more than two calls. *)
Theorem update_voices_run_is_orderly vs :
  let w := (generate_each svc vs world0).2 in
  (writes_of (log w)).*1 `prefix_of` voice_files vs
  ∧ local_events (log w) = flat_map voice_block (writes_of (log w))
  ∧ (length (requests_of (log w)) ≤ 2 * length vs)%nat.
Proof.
  cbn zeta. destruct (generate_each svc vs world0) as [r w] eqn:Hrun.
  destruct (generate_each_turns _ _ _ _ Hrun) as (evs & Hlog & Hl & Hw & Hc & _).
  cbn [snd]. rewrite Hlog. by cbn.
Qed.

(** X16. A run of [update_voices.py] that ends normally is complete: it
    has written the file of every voice, in order and nothing else, with
    two calls per voice. *)
Theorem update_voices_normal_end_is_complete vs w :
  generate_each svc vs world0 = (Ret tt, w) →
  (writes_of (log w)).*1 = voice_files vs
  ∧ length (requests_of (log w)) = (2 * length vs)%nat.
Proof.
  intros Hrun.
  destruct (generate_each_turns _ _ _ _ Hrun) as (evs & Hlog & _ & _ & _ & Hdone).
  rewrite Hlog. cbn. by apply Hdone.
Qed.

End Update.

Lemma update_voices_normal_end_is_complete_witness :
  let run := UpdateVoices.generate_each svc_ok UpdateVoices.voices world0 in
  run.1 = Ret tt
  ∧ (writes_of (log run.2)).*1 = voice_files UpdateVoices.voices
  ∧ length (requests_of (log run.2)) = (2 * length UpdateVoices.voices)%nat.
Proof.
  cbv zeta.
  assert ((UpdateVoices.generate_each svc_ok UpdateVoices.voices world0).1 = Ret tt)
    as Hend by (vm_compute; reflexivity).
  split; [exact Hend|].
  apply (update_voices_normal_end_is_complete svc_ok UpdateVoices.voices).
  exact (run_ends _ _ Hend).
Defined.

(** ** Failures the loops do not catch *)

Section Uncaught.

Variable svc : nat → request → reply.

Lemma voicevox_fetch_raises url text w e w' :
  Voicevox.fetch svc url text w = (Raise e, w') →
  net_failure e ∨ e = RequestException ∨ e = JSONDecodeError.
Proof.
  intros Hfetch.
  destruct (voicevox_fetch_shape svc url text w)
    as [(e' & H & Hcl)|(q & r1 & _ & [(e' & H & Hcl)|(r2 & _ & _ & H)])];
    rewrite H in Hfetch; simplify_eq; tauto.
Qed.

Lemma quotes_fetch_raises voice_params url category line w e w' :
  Quotes.fetch svc voice_params url category line w = (Raise e, w') →
  net_failure e ∨ e = RequestException ∨ e = JSONDecodeError ∨ e = AttributeError.
Proof.
  intros Hfetch.
  destruct (quotes_fetch_shape svc voice_params url category line w)
    as [(e' & H & Hcl)|(q & [(e' & H & Hcl)|(r2 & _ & _ & H)])];
    rewrite H in Hfetch; simplify_eq; tauto.
Qed.

(** X17. The loops catch connection errors, timeouts and HTTP errors
    only.  When the calls of an entry fail in another way after the
    entries before it succeeded, the run ends right there with that
    exception and exit status 1, and no failure line is printed: in
    [generate_voicevox_voices.py] the exception is a [RequestException] of
    another class or a JSON decoding error, and the status is not 4; in
    [generate_quote_voices.py] it can also be the [AttributeError] of a
    tuned query that is no object. *)
Theorem other_failures_are_not_caught out_dir :
  (∀ url lines k filename text ws g w1 e w2,
     Voicevox.startup svc url out_dir world0 = (Ret tt, ws) →
     lines !! k = Some (filename, text) →
     Voicevox.generate_all svc url out_dir (take k lines) 0 ws = (Ret g, w1) →
     Voicevox.fetch svc url text w1 = (Raise e, w2) →
     ¬ net_failure e →
     Voicevox.main_with svc lines url out_dir world0 = (Raise e, w2)
     ∧ exit_code (Raise e : res unit) = 1
     ∧ (e = RequestException ∨ e = JSONDecodeError))
  ∧ (∀ voice_params arg_url quotes c category lines i line ws m0 w1 m1 w2 e w3,
       let url := PyStr.rstrip_char "/" arg_url in
       Quotes.startup svc url out_dir world0 = (Ret tt, ws) →
       quotes !! c = Some (category, lines) →
       Quotes.generate_categories svc voice_params url out_dir (take c quotes) ∅ ws
       = (Ret m0, w1) →
       lines !! i = Some line →
       Quotes.generate_lines svc voice_params url out_dir category (take i lines) 0
         (<[category:=[]]> m0) w1 = (Ret m1, w2) →
       Quotes.fetch svc voice_params url category line w2 = (Raise e, w3) →
       ¬ net_failure e →
       Quotes.main_with svc quotes voice_params arg_url out_dir world0 = (Raise e, w3)
       ∧ exit_code (Raise e : res unit) = 1
       ∧ (e = RequestException ∨ e = JSONDecodeError ∨ e = AttributeError)).
Proof.
  split.
  - intros url lines k filename text ws g w1 e w2 Hstart Hk Hbefore Hfetch He.
    assert (e = RequestException ∨ e = JSONDecodeError) as Hcl.
    { destruct (voicevox_fetch_raises _ _ _ _ _ Hfetch) as [?|?]; [done|done]. }
    split; [|split; [by destruct Hcl as [-> | ->]|done]].
    unfold Voicevox.main_with. rewrite (bind_run_ret _ _ _ _ _ Hstart), bind_run.
    rewrite <- (take_drop_middle lines k _ Hk), generate_all_app.
    rewrite (bind_run_ret _ _ _ _ _ Hbefore). cbn [Voicevox.generate_all].
    rewrite bind_run. unfold Voicevox.generate_one.
    rewrite bind_run, try_run, Hfetch. by destruct Hcl as [-> | ->].
  - intros voice_params arg_url quotes c category lines i line ws m0 w1 m1 w2 e w3 url
      Hstart Hc Hcats Hi Hlines Hfetch He.
    assert (e = RequestException ∨ e = JSONDecodeError ∨ e = AttributeError) as Hcl.
    { destruct (quotes_fetch_raises _ _ _ _ _ _ _ Hfetch) as [?|?]; [done|done]. }
    split; [|split; [by destruct Hcl as [-> |[-> | ->]]|done]].
    unfold Quotes.main_with. fold url. rewrite (bind_run_ret _ _ _ _ _ Hstart).
    unfold Quotes.batch. rewrite bind_run.
    rewrite <- (take_drop_middle quotes c _ Hc), generate_categories_app.
    rewrite (bind_run_ret _ _ _ _ _ Hcats). cbn [Quotes.generate_categories].
    rewrite bind_run.
    rewrite <- (take_drop_middle lines i _ Hi), generate_lines_app.
    rewrite (bind_run_ret _ _ _ _ _ Hlines). cbn [Quotes.generate_lines].
    rewrite bind_run. unfold Quotes.generate_line.
    rewrite try_run, bind_run, Hfetch. by destruct Hcl as [-> |[-> | ->]].
Qed.

End Uncaught.

Lemma other_failures_are_not_caught_witness :
  Voicevox.main_with (svc_except 3 (Replied audio_response)) Voicevox.LINES
    "http://127.0.0.1:50021" "out" world0
  = (Raise JSONDecodeError,
     (Voicevox.main_with (svc_except 3 (Replied audio_response)) Voicevox.LINES
        "http://127.0.0.1:50021" "out" world0).2)
  ∧ exit_code (Raise JSONDecodeError : res unit) = 1.
Proof.
  edestruct (proj1 (other_failures_are_not_caught
                      (svc_except 3 (Replied audio_response)) "out")
               "http://127.0.0.1:50021" Voicevox.LINES 1%nat)
    as (Hrun & Hcode & _).
  - vm_compute. reflexivity.
  - reflexivity.
  - vm_compute. reflexivity.
  - vm_compute. reflexivity.
  - intros H. exact H.
  - rewrite Hrun. cbn [snd]. split; [reflexivity|exact Hcode].
Defined.

(** ** Queries and tuning *)

Section TuningMore.

Variable svc : nat → request → reply.

Lemma overridden_union (tuning fields sent : gmap string jvalue) :
  overridden tuning fields sent → sent = tuning ∪ fields.
Proof.
  intros H. apply map_eq. intros k. rewrite (H k), lookup_union.
  destruct (tuning !! k), (fields !! k); done.
Qed.

Lemma union_twice (tuning fields : gmap string jvalue) :
  tuning ∪ (tuning ∪ fields) = tuning ∪ fields.
Proof. by rewrite (assoc_L (∪)), (idemp_L (∪)). Qed.

(** X18. Tuning a structured query never drops a field and is
    idempotent: the query sent has the fields of the returned query and
    those of the tuning set, no other, and tuning it again with the same
    set changes nothing; so for [query.update] of
    [generate_quote_voices.py] and for the three assignments of
    [update_voices.py]. *)
Theorem tuning_keeps_fields_and_is_idempotent tuning v fields :
  (∃ sent,
     Quotes.apply_tuning tuning (JObject fields) = Ret (JObject sent)
     ∧ dom sent = dom (default ∅ tuning) ∪ dom fields
     ∧ Quotes.apply_tuning tuning (JObject sent) = Ret (JObject sent))
  ∧ (∃ sent,
       UpdateVoices.tune v (JObject fields) = Ret (JObject sent)
       ∧ dom sent = {[ "speedScale"; "pitchScale"; "intonationScale" ]} ∪ dom fields
       ∧ UpdateVoices.tune v (JObject sent) = Ret (JObject sent)).
Proof.
  split.
  - destruct (apply_tuning_overridden tuning fields) as (sent & Hsent & Hover).
    apply overridden_union in Hover as ->.
    eexists. split; [exact Hsent|]. split; [by rewrite dom_union_L|].
    destruct (apply_tuning_overridden tuning (default ∅ tuning ∪ fields))
      as (sent2 & Hsent2 & Hover2).
    apply overridden_union in Hover2 as ->. rewrite Hsent2.
    by rewrite union_twice.
  - destruct (tune_overridden v fields) as (sent & Hsent & Hover).
    apply overridden_union in Hover as ->.
    eexists. split; [exact Hsent|]. split.
    + rewrite dom_union_L. unfold tuning_of. rewrite !dom_insert_L, dom_singleton_L.
      set_solver.
    + destruct (tune_overridden v (tuning_of v ∪ fields)) as (sent2 & Hsent2 & Hover2).
      apply overridden_union in Hover2 as ->. rewrite Hsent2.
      by rewrite union_twice.
Qed.

(** X19. A query answer that is JSON but no object: with a non-empty
    tuning set [generate_quote_voices.py] raises [AttributeError] and
    [update_voices.py] raises [TypeError], in both cases right after the
    query call, before any synthesis call and without writing a file;
    without tuning set [generate_quote_voices.py] passes the answer on to
    the synthesis step as it is. *)
Theorem non_object_query_answers voice_params url out_dir category i line manifest
    v w r value :
  json_body r = Some (JOther value) →
  (svc (calls w) (Quotes.audio_query_request url line) = Replied r →
   ¬ error_status (status r) →
   (∀ tuning, voice_params !! category = Some tuning → tuning ≠ ∅ →
      Quotes.generate_line svc voice_params url out_dir category i line manifest w
      = (Raise AttributeError, after_call svc (Quotes.audio_query_request url line) w))
   ∧ (voice_params !! category = None →
      requests_of
        (log (Quotes.generate_line svc voice_params url out_dir category i line
                manifest w).2)
      = requests_of (log w)
        ++ [Quotes.audio_query_request url line;
            Quotes.synthesis_request url (JOther value)]))
  ∧ (svc (calls w) (UpdateVoices.audio_query_request v) = Replied r →
     UpdateVoices.generate_wav svc v w
     = (Raise TypeError, after_call svc (UpdateVoices.audio_query_request v) w)).
Proof.
  intros Hjson. split.
  - intros Hsvc Hok. split.
    + intros tuning Htuning Hne. unfold Quotes.generate_line.
      rewrite try_run, bind_run. unfold Quotes.fetch. rewrite bind_run.
      unfold Quotes.audio_query.
      rewrite checked_run, Hsvc, (error_status_false _ Hok).
      unfold json_of. rewrite Hjson. cbn [mret M_ret]. rewrite bind_run.
      unfold lift, Quotes.apply_tuning. rewrite Htuning.
      by destruct (decide (tuning = ∅)).
    + intros Hnone. unfold Quotes.generate_line.
      rewrite try_bind_quiet.
      2:{ intros wav. repeat emits_step; done. }
      2:{ intros e c. destruct e; try done; intros [= <-]; repeat emits_step; done. }
      unfold Quotes.fetch, Quotes.audio_query.
      rewrite bind_run, checked_run, Hsvc, (error_status_false _ Hok).
      unfold json_of. rewrite Hjson. cbn [mret M_ret]. rewrite bind_run.
      unfold lift, Quotes.apply_tuning. rewrite Hnone.
      unfold Quotes.synthesis. rewrite checked_run.
      set (w1 := after_call svc (Quotes.audio_query_request url line) w).
      set (req := Quotes.synthesis_request url (JOther value)).
      assert (requests_of (log (after_call svc req w1))
              = requests_of (log w) ++ [Quotes.audio_query_request url line; req]) as Hreq.
      { rewrite requests_after_call. unfold w1.
        by rewrite requests_after_call, <- app_assoc. }
      destruct (svc (calls w1) req) as [f|r2]; [done|].
      by destruct ((400 <=? status r2) && (status r2 <? 600)).
  - intros Hsvc. unfold UpdateVoices.generate_wav.
    rewrite bind_run, http_run, Hsvc, bind_run. unfold json_of. rewrite Hjson.
    cbn [mret M_ret]. rewrite bind_run. done.
Qed.

End TuningMore.

Lemma non_object_query_answers_witness :
  UpdateVoices.generate_wav
    (svc_except 0 (Replied {| status := 200; content := []; text := "[]";
                              json_body := Some (JOther (JList [])) |}))
    {| UpdateVoices.filename := "a.wav"; UpdateVoices.voice_text := "a";
       UpdateVoices.speed := JFloat 1 0; UpdateVoices.pitch := JFloat 0 0;
       UpdateVoices.intonation := JFloat 1 0 |} world0
  = (Raise TypeError,
     after_call
       (svc_except 0 (Replied {| status := 200; content := []; text := "[]";
                                 json_body := Some (JOther (JList [])) |}))
       (UpdateVoices.audio_query_request
          {| UpdateVoices.filename := "a.wav"; UpdateVoices.voice_text := "a";
             UpdateVoices.speed := JFloat 1 0; UpdateVoices.pitch := JFloat 0 0;
             UpdateVoices.intonation := JFloat 1 0 |}) world0).
Proof.
  apply (proj2 (non_object_query_answers _ ∅ "" "" "" 0 "" ∅ _ world0
                  {| status := 200; content := []; text := "[]";
                     json_body := Some (JOther (JList [])) |} (JList []) eq_refl)).
  reflexivity.
Defined.

(** ** File names and URLs *)

Section Names.

Lemma list_ascii_of_append s1 s2 :
  list_ascii_of_string (s1 +:+ s2) = list_ascii_of_string s1 ++ list_ascii_of_string s2.
Proof.
  induction s1 as [|c s1 IH]; [done|].
  rewrite append_cons. cbn [list_ascii_of_string app]. by rewrite IH.
Qed.

Lemma list_ascii_of_string_eq s1 s2 :
  list_ascii_of_string s1 = list_ascii_of_string s2 → s1 = s2.
Proof.
  intros H. rewrite <- (string_of_list_ascii_of_string s1), H.
  apply string_of_list_ascii_of_string.
Qed.

Lemma pretty_N_char_no_underscore x : pretty_N_char x ≠ "_"%char.
Proof. unfold pretty_N_char. by repeat case_match. Qed.

Lemma pretty_N_go_no_underscore x s :
  "_"%char ∉ list_ascii_of_string s →
  "_"%char ∉ list_ascii_of_string (pretty_N_go x s).
Proof.
  revert s. induction (N.lt_wf_0 x) as [x _ IH]; intros s Hs.
  assert (x = 0 ∨ 0 < x)%N as [->|Hx] by lia.
  - by rewrite pretty_N_go_0.
  - rewrite pretty_N_go_step by done. apply IH.
    + by apply N.div_lt.
    + cbn [list_ascii_of_string]. intros Hin.
      apply elem_of_cons in Hin as [Heq|Hin]; [|done].
      by eapply pretty_N_char_no_underscore.
Qed.

Lemma pretty_nat_no_underscore (i : nat) :
  "_"%char ∉ list_ascii_of_string (pretty i).
Proof.
  unfold pretty, pretty_nat, pretty, pretty_N. case_decide.
  - cbn. intros Hin. apply elem_of_cons in Hin as [Heq|Hin]; [done|].
    by apply elem_of_nil in Hin.
  - apply pretty_N_go_no_underscore. cbn. apply not_elem_of_nil.
Qed.

(** Two lists cut at the last occurrence of [x] agree piece by piece. *)
Lemma cut_at_last {A} (x : A) l1 l2 k1 k2 :
  x ∉ l2 → x ∉ k2 → l1 ++ x :: l2 = k1 ++ x :: k2 → l1 = k1 ∧ l2 = k2.
Proof.
  intros Hl Hk Heq.
  assert (reverse l2 ++ x :: reverse l1 = reverse k2 ++ x :: reverse k1) as Hrev.
  { apply (f_equal reverse) in Heq.
    by rewrite !reverse_app, !reverse_cons, <- !app_assoc in Heq. }
  assert (∀ a b c d : list A, x ∉ a → x ∉ c → a ++ x :: b = c ++ x :: d → a = c ∧ b = d)
    as Hfirst.
  { clear. induction a as [|y a IH]; intros b c d Ha Hc Heq.
    - destruct c as [|z c]; [by simplify_eq|].
      simplify_eq/=. destruct Hc. by left.
    - destruct c as [|z c].
      + simplify_eq/=. destruct Ha. by left.
      + simplify_eq/=. apply not_elem_of_cons in Ha as [_ Ha].
        apply not_elem_of_cons in Hc as [_ Hc].
        destruct (IH _ _ _ Ha Hc H0) as [-> ->]. done. }
  destruct (Hfirst (reverse l2) (reverse l1) (reverse k2) (reverse k1)) as [H2 H1];
    [by rewrite elem_of_reverse|by rewrite elem_of_reverse|done|].
  split.
  - by apply (inj reverse).
  - by apply (inj reverse).
Qed.

Lemma filename_of_inj category1 i1 category2 i2 :
  Quotes.filename_of category1 i1 = Quotes.filename_of category2 i2 →
  category1 = category2 ∧ i1 = i2.
Proof.
  unfold Quotes.filename_of. intros Heq.
  apply (f_equal list_ascii_of_string) in Heq.
  rewrite !list_ascii_of_append in Heq.
  rewrite !app_assoc in Heq.
  apply app_inj_2 in Heq as [Heq _]; [|done].
  rewrite <- !app_assoc in Heq. cbn [list_ascii_of_string app] in Heq.
  apply cut_at_last in Heq as [Hc Hi]; try apply pretty_nat_no_underscore.
  split.
  - by apply list_ascii_of_string_eq.
  - apply list_ascii_of_string_eq in Hi. by apply (inj pretty) in Hi.
Qed.

Lemma quote_files_category out_dir quotes name :
  name ∈ quote_files out_dir quotes →
  ∃ category i, category ∈ quotes.*1 ∧ name = (Some out_dir, Quotes.filename_of category i).
Proof.
  unfold quote_files. rewrite list_elem_of_In, in_flat_map.
  intros ([category lines] & Hin & Hname).
  apply list_elem_of_In in Hin. apply list_elem_of_In in Hname.
  apply list_elem_of_fmap in Hname as (file & -> & Hfile).
  apply list_elem_of_fmap in Hfile as (i & -> & _).
  exists category, i. split; [|done].
  apply list_elem_of_fmap. by exists (category, lines).
Qed.

Lemma quote_files_NoDup out_dir quotes :
  NoDup quotes.*1 → NoDup (quote_files out_dir quotes).
Proof.
  induction quotes as [|[category lines] rest IH]; [constructor|].
  rewrite fmap_cons, NoDup_cons. intros [Hfresh Hrest].
  change (quote_files out_dir ((category, lines) :: rest))
    with (map (λ name, (Some out_dir, name)) (filenames_from category 0 (length lines))
          ++ quote_files out_dir rest).
  apply NoDup_app. split; [|split].
  - apply (NoDup_fmap_2 _). unfold filenames_from.
    apply NoDup_fmap_2_strong; [|apply NoDup_seq].
    intros i j _ _ Heq. by apply filename_of_inj in Heq as [_ ->].
  - intros name Hhere Hthere.
    apply list_elem_of_fmap in Hhere as (file & -> & Hfile).
    apply list_elem_of_fmap in Hfile as (i & -> & _).
    apply quote_files_category in Hthere as (category' & j & Hin & [= Heq]).
    apply filename_of_inj in Heq as [-> _]. done.
  - by apply IH.
Qed.

End Names.

(** X20. [generate_quote_voices.py] names its files so that the category
    and the index can be read back from the name; hence, when no category
    occurs twice in the table, no run writes two files of the same name,
    whatever the service answers: nothing the run has written is
    overwritten by it. *)
Theorem quote_files_are_not_overwritten svc quotes voice_params arg_url out_dir :
  NoDup quotes.*1 →
  (∀ category1 i1 category2 i2,
     Quotes.filename_of category1 i1 = Quotes.filename_of category2 i2 →
     category1 = category2 ∧ i1 = i2)
  ∧ NoDup (writes_of
             (log (Quotes.main_with svc quotes voice_params arg_url out_dir world0).2)).*1.
Proof.
  intros Hkeys. split; [apply filename_of_inj|].
  destruct (quotes_run_orderly svc quotes voice_params arg_url out_dir)
    as (_ & [rest Hfiles] & _).
  apply (quote_files_NoDup out_dir) in Hkeys.
  rewrite Hfiles in Hkeys. by apply NoDup_app in Hkeys as [? _].
Qed.

Lemma quote_files_are_not_overwritten_witness :
  NoDup (writes_of
           (log (Quotes.main_with svc_ok Quotes.QUOTES Quotes.VOICE_PARAMS
                   "http://localhost:50021/" "out" world0).2)).*1.
Proof.
  apply (quote_files_are_not_overwritten svc_ok Quotes.QUOTES Quotes.VOICE_PARAMS
           "http://localhost:50021/" "out").
  apply (bool_decide_unpack _). vm_compute. exact I.
Defined.
